(** * Mandelbrot: the escape-time evaluator and its colour pipeline

  A shallow embedding of [mandelbrot.py] and [colormap.py].

  Numbers are the ones Python and numpy compute with: [np.float64] is
  Rocq's primitive binary64 [float] (same IEEE 754 operations, round to
  nearest even), Python's [int] is [Z].  Exceptions are values of a
  result type; the methods of [ColorMap], which mutate [self] and may
  raise half-way, live in a small state-and-exception monad. *)

From Stdlib Require Import ZArith QArith List Bool Lia String Floats.
Import ListNotations.
Local Open Scope Z_scope.

(* ================================================================== *)
(** * The Python runtime the two files rely on *)
(* ================================================================== *)

Module Py.

(** The built-in exceptions that the modelled operations can raise. *)
Inductive exn : Set :=
| IndexError
| ValueError
| OverflowError
| ZeroDivisionError.

Inductive result (A : Type) : Type :=
| Ok (a : A)
| Raise (e : exn).
Arguments Ok {A} a.
Arguments Raise {A} e.

Definition bind {A B : Type} (r : result A) (k : A -> result B) : result B :=
  match r with
  | Ok a => k a
  | Raise e => Raise e
  end.

(** [seq[i]] on a list or a one-dimensional array: a negative index
    counts from the end, anything outside [-len, len) raises. *)
Definition getitem {A : Type} (l : list A) (i : Z) : result A :=
  let n := Z.of_nat (List.length l) in
  let k := if i <? 0 then i + n else i in
  if (0 <=? k) && (k <? n)
  then match nth_error l (Z.to_nat k) with
       | Some a => Ok a
       | None => Raise IndexError
       end
  else Raise IndexError.

Fixpoint replace_nth {A : Type} (n : nat) (v : A) (l : list A) : list A :=
  match l, n with
  | [], _ => []
  | _ :: t, O => v :: t
  | h :: t, S n' => h :: replace_nth n' v t
  end.

(** [seq[i] = v], with the same index rule. *)
Definition setitem {A : Type} (l : list A) (i : Z) (v : A) : result (list A) :=
  let n := Z.of_nat (List.length l) in
  let k := if i <? 0 then i + n else i in
  if (0 <=? k) && (k <? n)
  then Ok (replace_nth (Z.to_nat k) v l)
  else Raise IndexError.

(** [float(n)] for an [int] (exact below 2^53, rounded to nearest up to
    2^63, the range of the primitive conversion). *)
Definition Z2F (z : Z) : float :=
  match z with
  | Z0 => 0%float
  | Zpos _ => of_uint63 (Uint63.of_Z z)
  | Zneg p => (- of_uint63 (Uint63.of_Z (Zpos p)))%float
  end.

(** [round(x)] with one argument, on a binary64: the nearest integer,
    a tie going to the even one; [nan] and the infinities raise.  The
    float is [m * 2^e] by its decomposition [Prim2SF]. *)
Definition round_half_even (m e : Z) : Z :=
  if 0 <=? e then m * 2 ^ e
  else
    let d := 2 ^ (- e) in
    let q := m / d in
    match 2 * (m mod d) ?= d with
    | Lt => q
    | Gt => q + 1
    | Eq => if Z.even q then q else q + 1
    end.

Definition py_round (f : float) : result Z :=
  match Prim2SF f with
  | S754_nan => Raise ValueError
  | S754_infinity _ => Raise OverflowError
  | S754_zero _ => Ok 0
  | S754_finite s m e => Ok (cond_Zopp s (round_half_even (Zpos m) e))
  end.

(** [for x in l] collecting what the body returns, stopping at the
    first exception. *)
Fixpoint collect {A B : Type} (body : A -> result B) (l : list A) : result (list B) :=
  match l with
  | [] => Ok []
  | a :: t =>
      match body a with
      | Raise e => Raise e
      | Ok b => match collect body t with
                | Raise e => Raise e
                | Ok bs => Ok (b :: bs)
                end
      end
  end.

(** [range(n)] *)
Definition range (n : nat) : list Z := map Z.of_nat (seq 0 n).

End Py.

Export Py.

Declare Scope result_scope.
Delimit Scope result_scope with result.
Notation "x <- c1 ;; c2" := (Py.bind c1 (fun x => c2))
(at level 61, c1 at next level, right associativity) : result_scope.

(* ================================================================== *)
(** * numpy: [np.linspace] *)
(* ================================================================== *)

Module Numpy.

Local Open Scope float_scope.

(** [arange(0, num)] as binary64. *)
Definition arange (num : Z) : list float :=
  map (fun i => Z2F (Z.of_nat i)) (seq 0 (Z.to_nat num)).

(** [np.linspace(start, stop, num)] with its defaults ([endpoint=True]),
    as numpy computes it: [step = (stop - start) / (num - 1)], sample [i]
    is [i * step + start] (when the step underflows to zero,
    [(i / (num - 1)) * (stop - start) + start]), and the last sample is
    then overwritten with [stop] itself.  A negative [num] raises. *)
Definition linspace (start stop : float) (num : Z) : result (list float) :=
  if (num <? 0)%Z then Raise ValueError
  else
    let div := (num - 1)%Z in
    let delta := stop - start in
    let y := arange num in
    let y :=
      if (0 <? div)%Z then
        let step := delta / Z2F div in
        if step =? 0
        then map (fun v => v / Z2F div * delta) y
        else map (fun v => v * step) y
      else map (fun v => v * delta) y in
    let y := map (fun v => v + start) y in
    Ok (if (1 <? num)%Z then replace_nth (List.length y - 1) stop y else y).

End Numpy.

(* ================================================================== *)
(** * matplotlib: named colormaps, [Normalize], [ScalarMappable] *)
(* ================================================================== *)

Module Matplotlib.

Local Open Scope float_scope.

(** What a colormap returns for one scalar: four binary64 channels. *)
Record RGBA : Set := mkRGBA { red : float; green : float; blue : float; alpha : float }.

(** The installed library, as far as [colormap.py] sees it:
    [plt.colormaps()], the registered names, and for a registered name
    the colour its [Colormap] object returns when called with an already
    normalised scalar. *)
Class Backend : Type := {
  colormaps : list string;
  lut : string -> float -> RGBA
}.

Section WithBackend.
Context {mpl : Backend}.

(** [plt.get_cmap(name)]: the registered colormap, [ValueError] for a
    name that is not registered.  The object is represented by its name. *)
Definition registered (name : string) : bool :=
  existsb (String.eqb name) colormaps.

Definition get_cmap (name : string) : result string :=
  if registered name then Ok name else Raise ValueError.

(** [mpl.colors.Normalize(vmin, vmax)] *)
Record Normalize : Set := mkNormalize { vmin : float; vmax : float }.

(** [norm(value)]: [0] when the interval is empty, [ValueError] when it
    is reversed, and [(value - vmin) / (vmax - vmin)] otherwise. *)
Definition normalize (n : Normalize) (value : float) : result float :=
  if vmin n =? vmax n then Ok 0
  else if vmax n <? vmin n then Raise ValueError
  else Ok ((value - vmin n) / (vmax n - vmin n)).

(** [cm.ScalarMappable(norm, cmap)] *)
Record ScalarMappable : Set := mkScalarMappable { sm_norm : Normalize; sm_cmap : string }.

(** [scalarMap.to_rgba(val)]: normalise, then look the colour up. *)
Definition to_rgba (sm : ScalarMappable) (val : float) : result RGBA :=
  (t <- normalize (sm_norm sm) val ;; Ok (lut (sm_cmap sm) t))%result.

End WithBackend.

End Matplotlib.

Export Matplotlib.

(* ================================================================== *)
(** * colormap.py: class [ColorMap] *)
(* ================================================================== *)

Module Colormap.

Local Open Scope float_scope.
Local Open Scope string_scope.

(** A Python number inside a colour tuple. *)
Inductive num : Set :=
| PyInt (z : Z)
| PyFloat (f : float).

(** The tuples stored in [colormap_array]: [(r, g, b)] or [(r, g, b, a)]. *)
Inductive Color : Set :=
| Tuple3 (r g b : num)
| Tuple4 (r g b a : num).

(** The attributes of a [ColorMap] instance. *)
Record ColorMap : Set := mkColorMap {
  names_all : list string;
  names_to_cycle : list string;
  current_cycle_number : Z;
  cmap_name : string;
  min_value : float;
  max_value : float;
  number_colors : Z;
  colormap_array : list Color;
  array_type : string;
  cmap : string;
  norm : Normalize;
  scalarMap : ScalarMappable
}.

(** Attribute assignments [self.f = v]. *)
Definition set_current_cycle_number (v : Z) (s : ColorMap) : ColorMap :=
  mkColorMap (names_all s) (names_to_cycle s) v (cmap_name s) (min_value s)
    (max_value s) (number_colors s) (colormap_array s) (array_type s) (cmap s)
    (norm s) (scalarMap s).

Definition set_cmap_name (v : string) (s : ColorMap) : ColorMap :=
  mkColorMap (names_all s) (names_to_cycle s) (current_cycle_number s) v
    (min_value s) (max_value s) (number_colors s) (colormap_array s)
    (array_type s) (cmap s) (norm s) (scalarMap s).



Definition set_number_colors_attr (v : Z) (s : ColorMap) : ColorMap :=
  mkColorMap (names_all s) (names_to_cycle s) (current_cycle_number s)
    (cmap_name s) (min_value s) (max_value s) v (colormap_array s)
    (array_type s) (cmap s) (norm s) (scalarMap s).

Definition set_colormap_array (v : list Color) (s : ColorMap) : ColorMap :=
  mkColorMap (names_all s) (names_to_cycle s) (current_cycle_number s)
    (cmap_name s) (min_value s) (max_value s) (number_colors s) v
    (array_type s) (cmap s) (norm s) (scalarMap s).

Definition set_array_type_attr (v : string) (s : ColorMap) : ColorMap :=
  mkColorMap (names_all s) (names_to_cycle s) (current_cycle_number s)
    (cmap_name s) (min_value s) (max_value s) (number_colors s)
    (colormap_array s) v (cmap s) (norm s) (scalarMap s).

Definition set_cmap (v : string) (s : ColorMap) : ColorMap :=
  mkColorMap (names_all s) (names_to_cycle s) (current_cycle_number s)
    (cmap_name s) (min_value s) (max_value s) (number_colors s)
    (colormap_array s) (array_type s) v (norm s) (scalarMap s).

Definition set_norm (v : Normalize) (s : ColorMap) : ColorMap :=
  mkColorMap (names_all s) (names_to_cycle s) (current_cycle_number s)
    (cmap_name s) (min_value s) (max_value s) (number_colors s)
    (colormap_array s) (array_type s) (cmap s) v (scalarMap s).

Definition set_scalarMap (v : ScalarMappable) (s : ColorMap) : ColorMap :=
  mkColorMap (names_all s) (names_to_cycle s) (current_cycle_number s)
    (cmap_name s) (min_value s) (max_value s) (number_colors s)
    (colormap_array s) (array_type s) (cmap s) (norm s) v.

(** ** Methods: computations on [self] that may raise

    A method gets [self], returns a value or raises, and leaves [self]
    as it is at that point: what was assigned before an exception stays
    assigned. *)
Definition method (A : Type) : Type := ColorMap -> result A * ColorMap.

Definition ret {A : Type} (a : A) : method A := fun self => (Ok a, self).

Definition mbind {A B : Type} (m : method A) (k : A -> method B) : method B :=
  fun self =>
    match m self with
    | (Ok a, self') => k a self'
    | (Raise e, self') => (Raise e, self')
    end.

Definition get : method ColorMap := fun self => (Ok self, self).

Definition modify (f : ColorMap -> ColorMap) : method unit :=
  fun self => (Ok tt, f self).

Definition lift {A : Type} (r : result A) : method A := fun self => (r, self).

Declare Scope method_scope.
Delimit Scope method_scope with method.
Notation "x <- c1 ;; c2" := (mbind c1 (fun x => c2))
  (at level 61, c1 at next level, right associativity) : method_scope.
Notation "c1 ;; c2" := (mbind c1 (fun _ => c2))
  (at level 61, right associativity) : method_scope.

(** [for v in l: body(v)] *)
Fixpoint for_each {A : Type} (l : list A) (body : A -> method unit) : method unit :=
  match l with
  | [] => ret tt
  | a :: t => (body a ;; for_each t body)%method
  end.

Section WithBackend.
Context {mpl : Backend}.

(** ** The four getters *)

Definition get_rgb_u8 (self : ColorMap) (val : float) : result Color :=
  (c <- to_rgba (scalarMap self) val ;;
   r <- py_round (255 * red c) ;;
   g <- py_round (255 * green c) ;;
   b <- py_round (255 * blue c) ;;
   Ok (Tuple3 (PyInt r) (PyInt g) (PyInt b)))%result.

Definition get_rgba_u8 (self : ColorMap) (val : float) : result Color :=
  (c <- to_rgba (scalarMap self) val ;;
   r <- py_round (255 * red c) ;;
   g <- py_round (255 * green c) ;;
   b <- py_round (255 * blue c) ;;
   Ok (Tuple4 (PyInt r) (PyInt g) (PyInt b) (PyFloat (alpha c))))%result.

Definition get_rgb_f (self : ColorMap) (val : float) : result Color :=
  (c <- to_rgba (scalarMap self) val ;;
   Ok (Tuple3 (PyFloat (red c)) (PyFloat (green c)) (PyFloat (blue c))))%result.

Definition get_rgba_f (self : ColorMap) (val : float) : result Color :=
  (c <- to_rgba (scalarMap self) val ;;
   Ok (Tuple4 (PyFloat (red c)) (PyFloat (green c)) (PyFloat (blue c))
              (PyFloat (alpha c))))%result.

(** ** [initialize] *)

(** The body of [for v in vals]: the getter chosen by [array_type], its
    result appended; no branch, and nothing appended, for any other
    [array_type]. *)
Definition append_color (v : float) : method unit :=
  (self <- get ;;
   if array_type self =? "rgb_u8" then
     c <- lift (get_rgb_u8 self v) ;;
     modify (fun s => set_colormap_array (colormap_array s ++ [c]) s)
   else if array_type self =? "rgba_u8" then
     c <- lift (get_rgba_u8 self v) ;;
     modify (fun s => set_colormap_array (colormap_array s ++ [c]) s)
   else if array_type self =? "rgb_f" then
     c <- lift (get_rgb_f self v) ;;
     modify (fun s => set_colormap_array (colormap_array s ++ [c]) s)
   else if array_type self =? "rgba_f" then
     c <- lift (get_rgba_f self v) ;;
     modify (fun s => set_colormap_array (colormap_array s ++ [c]) s)
   else ret tt)%method.

Definition initialize : method unit :=
  (self <- get ;;
   cm <- lift (get_cmap (cmap_name self)) ;;
   modify (set_cmap cm) ;;
   let nrm := mkNormalize (min_value self) (max_value self) in
   modify (set_norm nrm) ;;
   modify (set_scalarMap (mkScalarMappable nrm cm)) ;;
   vals <- lift (Numpy.linspace (min_value self) (max_value self) (number_colors self)) ;;
   modify (set_colormap_array []) ;;
   for_each vals append_color)%method.

(** ** [__init__]

    [cmap], [norm] and [scalarMap] do not exist before the first
    [initialize]; the record holds placeholders there.  A constructor
    that raises leaves no object. *)
Definition cycle_names : list string :=
  ["viridis"; "plasma"; "magma"; "inferno"; "cividis"; "spring";
   "summer"; "autumn"; "winter"; "hot"; "twilight"].

Definition fresh (min_val max_val : float) (name : string) (num_colors : Z)
    (ar_type : string) : ColorMap :=
  mkColorMap colormaps cycle_names 0 name min_val max_val num_colors []
    ar_type "" (mkNormalize 0 0) (mkScalarMappable (mkNormalize 0 0) "").

Definition init (min_val max_val : float) (name : string) (num_colors : Z)
    (ar_type : string) : result ColorMap :=
  match initialize (fresh min_val max_val name num_colors ar_type) with
  | (Ok _, self') => Ok self'
  | (Raise e, _) => Raise e
  end.

(** [ColorMap(min_val, max_val, cmap_name)] with the remaining defaults. *)
Definition init_default (min_val max_val : float) (name : string) : result ColorMap :=
  init min_val max_val name 256 "rgb_u8".

(** ** The mutators *)

Definition cycle_colormap : method unit :=
  (modify (fun s => set_current_cycle_number (current_cycle_number s + 1) s) ;;
   self <- get ;;
   let n := Z.of_nat (List.length (names_to_cycle self)) in
   (if (n =? 0)%Z then lift (Raise ZeroDivisionError) else ret tt) ;;
   modify (set_current_cycle_number (current_cycle_number self mod n)) ;;
   self <- get ;;
   name <- lift (getitem (names_to_cycle self) (current_cycle_number self)) ;;
   modify (set_cmap_name name) ;;
   initialize)%method.



Definition set_array_type (ar_type : string) : method unit :=
  (modify (set_array_type_attr ar_type) ;;
   initialize)%method.

Definition set_number_colors (num_cols : Z) : method unit :=
  (modify (set_number_colors_attr num_cols) ;;
   initialize)%method.

End WithBackend.

End Colormap.

(* ================================================================== *)
(** * mandelbrot.py *)
(* ================================================================== *)

Module Mandelbrot.

Import Colormap.
Local Open Scope float_scope.

(** ** [calculate_mandelbrot] *)

(** The three variables the [while] of [calculate_mandelbrot] updates.
    [x] and [y] start as the [int] 0; every later value is a binary64
    and [0] behaves as [0.0] in the first products, so they are floats
    throughout. *)
Record LoopState : Set := mkLoop { itr : Z; x : float; y : float }.

Definition loop_init : LoopState := mkLoop 0 0 0.

(** [itr < max_itr-1 and x*x + y*y <= 4] *)
Definition loop_cond (max_itr : Z) (s : LoopState) : bool :=
  (itr s <? max_itr - 1)%Z && (x s * x s + y s * y s <=? 4).

(** One pass through the body: [newx] and the new [y] are both computed
    from the old [x] and [y]. *)
Definition loop_body (cx cy : float) (s : LoopState) : LoopState :=
  mkLoop (itr s + 1)
         (x s * x s - y s * y s + cx)
         (2 * x s * y s + cy).

(** The loop as a relation between the state on entry and on exit. *)
Inductive while_exec (max_itr : Z) (cx cy : float) : LoopState -> LoopState -> Prop :=
| while_exit s :
    loop_cond max_itr s = false -> while_exec max_itr cx cy s s
| while_iter s s' :
    loop_cond max_itr s = true ->
    while_exec max_itr cx cy (loop_body cx cy s) s' ->
    while_exec max_itr cx cy s s'.

(** The loop as a function; the guard bounds the number of passes by
    [max_itr - 1 - itr], so that much fuel always reaches the exit. *)
Fixpoint while_loop (fuel : nat) (max_itr : Z) (cx cy : float) (s : LoopState)
  : LoopState :=
  match fuel with
  | O => s
  | S fuel' =>
      if loop_cond max_itr s
      then while_loop fuel' max_itr cx cy (loop_body cx cy s)
      else s
  end.

(** The value written to [px_arr[i,j]] for the point [cx + i*cy]. *)
Definition escape_time (max_itr : Z) (cx cy : float) : Z :=
  itr (while_loop (Z.to_nat (max_itr - 1)) max_itr cx cy loop_init).

(** [calculate_mandelbrot()]: the matrix it leaves in [px_arr], column
    [i] of [real_values] by row [j] of [imag_values].  [px_arr] stores
    the counts as binary64; they are integers far below 2^53, so
    [int(px_arr[i,j])] reads back the same [int] and the matrix is kept
    over [Z]. *)
Definition calculate_mandelbrot (real_values imag_values : list float) (max_itr : Z)
  : list (list Z) :=
  map (fun cx => map (fun cy => escape_time max_itr cx cy) imag_values) real_values.

(** [px_arr[i,j]] *)
Definition px_at (px_arr : list (list Z)) (i j : Z) : result Z :=
  (row <- getitem px_arr i ;; getitem row j)%result.

(** ** The zoom arithmetic

    Line 151, [imag_min = imag_max - num_y*(real_max - real_min)/num_x],
    written once over the operations it uses, so that the same
    expression can be read in binary64, as the program evaluates it, and
    in exact rational arithmetic. *)
Class Arith (A : Type) : Type := {
  of_int : Z -> A;
  sub : A -> A -> A;
  mul : A -> A -> A;
  div : A -> A -> A
}.

#[export] Instance float_arith : Arith float :=
  {| of_int := Z2F; sub := PrimFloat.sub; mul := PrimFloat.mul; div := PrimFloat.div |}.

#[export] Instance Q_arith : Arith Q :=
  {| of_int := inject_Z; sub := Qminus; mul := Qmult; div := Qdiv |}.

Definition zoom_imag_min {A : Type} {ops : Arith A}
    (num_x num_y : Z) (real_min real_max imag_max : A) : A :=
  sub imag_max (div (mul (of_int num_y) (sub real_max real_min)) (of_int num_x)).

(** ** Module state and the event loop *)

(** The module-level variables. *)
Record Globals : Set := mkGlobals {
  num_x : Z;
  num_y : Z;
  real_min : float;
  real_max : float;
  imag_max : float;
  imag_min : float;
  real_values : list float;
  imag_values : list float;
  cmap : ColorMap;
  set_black : bool;
  max_itr : Z;
  px_arr : list (list Z);
  mouse_down_x : Z;
  mouse_down_y : Z;
  mouse_up_x : Z;
  mouse_up_y : Z;
  run : bool
}.

Inductive key : Set := K_c | K_b | K_ESCAPE | K_other.

(** The events the loop looks at; the two mouse events carry the pixel
    position the handler reads. *)
Inductive event : Set :=
| QUIT
| MOUSEBUTTONDOWN (pos : Z * Z)
| MOUSEBUTTONUP (pos : Z * Z)
| KEYDOWN (k : key)
| OTHER.

Definition black : Color := Tuple3 (PyInt 0) (PyInt 0) (PyInt 0).

Section WithBackend.
Context {mpl : Backend}.

(** Lines 37 to 68 and 122, for a window of [nx] by [ny] pixels (1280 by
    800 in the file, which invites smaller values). *)
Definition startup (nx ny : Z) : result Globals :=
  let rmin := (-2)%float in
  let rmax := 1%float in
  if 2 * Z2F nx =? 0 then Raise ZeroDivisionError
  else
    let imax := Z2F ny * (rmax - rmin) / (2 * Z2F nx) in
    let imin := - imax in
    (rv <- Numpy.linspace rmin rmax nx ;;
     iv <- Numpy.linspace imax imin ny ;;
     cm <- init_default 0 255 "viridis" ;;
     let mi := number_colors cm in
     Ok (mkGlobals nx ny rmin rmax imax imin rv iv cm false mi
           (calculate_mandelbrot rv iv mi) 0 0 0 0 true))%result.

(** The [MOUSEBUTTONUP] branch. *)
Definition mouse_button_up (g : Globals) (pos : Z * Z) : result Globals :=
  let up_x := fst pos in
  let up_y := snd pos in
  (rmin <- getitem (real_values g) (mouse_down_x g) ;;
   rmax <- getitem (real_values g) up_x ;;
   imax <- getitem (imag_values g) (mouse_down_y g) ;;
   let imin := zoom_imag_min (num_x g) (num_y g) rmin rmax imax in
   rv <- Numpy.linspace rmin rmax (num_x g) ;;
   iv <- Numpy.linspace imax imin (num_y g) ;;
   Ok (mkGlobals (num_x g) (num_y g) rmin rmax imax imin rv iv (cmap g)
         (set_black g) (max_itr g) (calculate_mandelbrot rv iv (max_itr g))
         (mouse_down_x g) (mouse_down_y g) up_x up_y (run g)))%result.

Definition with_cmap (c : ColorMap) (g : Globals) : Globals :=
  mkGlobals (num_x g) (num_y g) (real_min g) (real_max g) (imag_max g)
    (imag_min g) (real_values g) (imag_values g) c (set_black g) (max_itr g)
    (px_arr g) (mouse_down_x g) (mouse_down_y g) (mouse_up_x g) (mouse_up_y g)
    (run g).

Definition with_set_black (b : bool) (g : Globals) : Globals :=
  mkGlobals (num_x g) (num_y g) (real_min g) (real_max g) (imag_max g)
    (imag_min g) (real_values g) (imag_values g) (cmap g) b (max_itr g)
    (px_arr g) (mouse_down_x g) (mouse_down_y g) (mouse_up_x g) (mouse_up_y g)
    (run g).

Definition with_run (b : bool) (g : Globals) : Globals :=
  mkGlobals (num_x g) (num_y g) (real_min g) (real_max g) (imag_max g)
    (imag_min g) (real_values g) (imag_values g) (cmap g) (set_black g)
    (max_itr g) (px_arr g) (mouse_down_x g) (mouse_down_y g) (mouse_up_x g)
    (mouse_up_y g) b.

(** [cmap.colormap_array[cmap.number_colors - 1] = v] *)
Definition override_last (v : Color) (c : ColorMap) : result ColorMap :=
  (arr <- setitem (colormap_array c) (number_colors c - 1) v ;;
   Ok (set_colormap_array arr c))%result.

(** The [KEYDOWN] branch. *)
Definition key_down (g : Globals) (k : key) : result Globals :=
  match k with
  | K_c =>
      match cycle_colormap (cmap g) with
      | (Raise e, _) => Raise e
      | (Ok _, c) =>
          if set_black g
          then (c' <- override_last black c ;; Ok (with_cmap c' g))%result
          else Ok (with_cmap c g)
      end
  | K_b =>
      let g := with_set_black (negb (set_black g)) g in
      if set_black g
      then (c' <- override_last black (cmap g) ;; Ok (with_cmap c' g))%result
      else (v <- get_rgb_u8 (cmap g) (max_value (cmap g)) ;;
            c' <- override_last v (cmap g) ;;
            Ok (with_cmap c' g))%result
  | K_ESCAPE => Ok (with_run false g)
  | K_other => Ok g
  end.

Definition handle_event (g : Globals) (e : event) : result Globals :=
  match e with
  | QUIT => Ok (with_run false g)
  | MOUSEBUTTONDOWN pos =>
      Ok (mkGlobals (num_x g) (num_y g) (real_min g) (real_max g) (imag_max g)
            (imag_min g) (real_values g) (imag_values g) (cmap g) (set_black g)
            (max_itr g) (px_arr g) (fst pos) (snd pos) (mouse_up_x g)
            (mouse_up_y g) (run g))
  | MOUSEBUTTONUP pos => mouse_button_up g pos
  | KEYDOWN k => key_down g k
  | OTHER => Ok g
  end.

(** [for event in pygame.event.get()] *)
Fixpoint handle_events (g : Globals) (es : list event) : result Globals :=
  match es with
  | [] => Ok g
  | e :: es' => (g' <- handle_event g e ;; handle_events g' es')%result
  end.

(** The colouring pass, lines 184 to 190: the pixels written to
    [pixel_array], or the exception that stops it. *)
Definition render (g : Globals) : result (list (list Color)) :=
  collect (fun i =>
    collect (fun j =>
      (v <- px_at (px_arr g) i j ;;
       getitem (colormap_array (cmap g)) v)%result)
      (range (List.length (imag_values g))))
    (range (List.length (real_values g))).

(** One turn of [while run]: the pending events, then the frame. *)
Definition frame (g : Globals) (es : list event)
  : result (Globals * list (list Color)) :=
  (g' <- handle_events g es ;;
   pixels <- render g' ;;
   Ok (g', pixels))%result.

End WithBackend.

End Mandelbrot.

(* ================================================================== *)
(** * A backend to run the model on *)
(* ================================================================== *)

Module Demo.

Local Open Scope float_scope.

(** Every registered name is drawn as the same two-tone ramp; like
    matplotlib's colormaps it answers [nan] with the transparent black
    "bad" colour. *)
Definition two_tone (name : string) (t : float) : RGBA :=
  if is_nan t then mkRGBA 0 0 0 0
  else if t <? 0.5 then mkRGBA 0.25 0 0.5 1
  else mkRGBA 1 1 0 1.

#[export] Instance backend : Backend :=
  {| colormaps := Colormap.cycle_names ++ ["jet"%string]; lut := two_tone |}.

End Demo.

(* ================================================================== *)
(** * Vocabulary of the statements *)
(* ================================================================== *)

(** [i] is an index Python accepts for [l]. *)
Definition valid_index {A : Type} (l : list A) (i : Z) : Prop :=
  - Z.of_nat (List.length l) <= i < Z.of_nat (List.length l).

(** Two binary64 values mirror each other when one is the negation of
    the other; two zeros mirror each other whatever their signs, as a sum
    that cancels exactly is [+0.0] on both sides. *)
Definition sf_zero (a : spec_float) : Prop := exists s, a = S754_zero s.

Definition sf_mirror (a b : spec_float) : Prop :=
  b = SFopp a \/ (sf_zero a /\ sf_zero b).

Definition mirror (a b : float) : Prop := sf_mirror (Prim2SF a) (Prim2SF b).

(** Loop states that agree on [itr] and [x] and have mirrored [y]. *)
Definition mirrored (s s' : Mandelbrot.LoopState) : Prop :=
  Mandelbrot.itr s = Mandelbrot.itr s' /\
  Mandelbrot.x s = Mandelbrot.x s' /\
  mirror (Mandelbrot.y s) (Mandelbrot.y s').

Import Colormap Mandelbrot.

(** The getter that [initialize] picks for an [array_type], if any. *)
Definition getter_of {mpl : Backend} (ar_type : string)
  : option (ColorMap -> float -> result Color) :=
  if (ar_type =? "rgb_u8")%string then Some get_rgb_u8
  else if (ar_type =? "rgba_u8")%string then Some get_rgba_u8
  else if (ar_type =? "rgb_f")%string then Some get_rgb_f
  else if (ar_type =? "rgba_f")%string then Some get_rgba_f
  else None.

(** What [self] looks like when the samples are about to be drawn. *)
Definition prepared (s : ColorMap) : ColorMap :=
  let nrm := mkNormalize (min_value s) (max_value s) in
  set_scalarMap (mkScalarMappable nrm (cmap_name s))
    (set_norm nrm (set_cmap (cmap_name s) s)).

(** The colormap [name] can be encoded in 8 bits: 255 times each of its
    colour channels is a finite binary64 (matplotlib's colormaps return
    channels in [0, 1]). *)
Definition roundable {mpl : Backend} (name : string) : Prop :=
  forall t : float,
    is_finite (255 * red (lut name t)) = true /\
    is_finite (255 * green (lut name t)) = true /\
    is_finite (255 * blue (lut name t)) = true.

(** [z] is the integer nearest to the binary64 [f], the even one of the
    two when [f] lies half-way. *)
Definition nearest_even (f : float) (z : Z) : Prop :=
  match Prim2SF f with
  | S754_zero _ => z = 0
  | S754_finite s m e =>
      let v := cond_Zopp s (Zpos m) in
      if 0 <=? e then z = v * 2 ^ e
      else 2 * Z.abs (z * 2 ^ (- e) - v) <= 2 ^ (- e) /\
           (2 * Z.abs (z * 2 ^ (- e) - v) = 2 ^ (- e) -> Z.even z = true)
  | _ => False
  end.

(** The first sample of [np.linspace(start, stop, num)] for [num >= 2],
    as it is computed: [0 * step + start], or [0 / (num-1) * delta +
    start] when the step is zero. *)
Definition first_sample (start stop : float) (num : Z) : float :=
  let delta := (stop - start)%float in
  let step := (delta / Z2F (num - 1))%float in
  if (step =? 0)%float
  then (0 / Z2F (num - 1) * delta + start)%float
  else (0 * step + start)%float.

(** What [cycle_colormap] has assigned when it reaches [initialize]:
    the next index, wrapped, and the name found there. *)
Definition cycle_target (self : ColorMap) : ColorMap :=
  let n := Z.of_nat (List.length (names_to_cycle self)) in
  let k := (current_cycle_number self + 1) mod n in
  set_cmap_name (nth (Z.to_nat k) (names_to_cycle self) ""%string)
    (set_current_cycle_number k self).

(** [k] calls of [cycle_colormap] in a row, each on the object as the
    previous call left it. *)
Definition cycled {mpl : Backend} (k : nat) (self : ColorMap) : ColorMap :=
  Nat.iter k (fun s => snd (cycle_colormap s)) self.

(** [k] calls in a row that all return. *)
Fixpoint cycle_times {mpl : Backend} (k : nat) (self : ColorMap) : result ColorMap :=
  match k with
  | O => Ok self
  | S k' =>
      match cycle_colormap self with
      | (Ok _, self') => cycle_times k' self'
      | (Raise e, _) => Raise e
      end
  end.

(** What holds between the palette, the cap and the matrix in every
    state of the program: the cap is the palette's size, the table has
    that many entries, and the matrix is the one computed for the current
    sample points. *)
Definition consistent (g : Globals) : Prop :=
  max_itr g = number_colors (cmap g) /\
  1 <= max_itr g /\
  array_type (cmap g) = "rgb_u8"%string /\
  Z.of_nat (List.length (colormap_array (cmap g))) = max_itr g /\
  px_arr g = calculate_mandelbrot (real_values g) (imag_values g) (max_itr g).

(** The states of the program: the one [startup] leaves, and those that
    handling one more event leads to. *)
Inductive reachable {mpl : Backend} (nx ny : Z) : Globals -> Prop :=
| reach_start g :
    startup nx ny = Ok g -> reachable nx ny g
| reach_event g e g' :
    reachable nx ny g -> handle_event g e = Ok g' -> reachable nx ny g'.

(** The sample arrays and the matrix are those of the stored bounds. *)
Definition in_sync (g : Globals) : Prop :=
  Numpy.linspace (real_min g) (real_max g) (num_x g) = Ok (real_values g) /\
  Numpy.linspace (imag_max g) (imag_min g) (num_y g) = Ok (imag_values g) /\
  px_arr g = calculate_mandelbrot (real_values g) (imag_values g) (max_itr g).

(** A matrix of [w] columns of [h] entries. *)
Definition has_shape {A : Type} (w h : nat) (m : list (list A)) : Prop :=
  List.length m = w /\ Forall (fun col => List.length col = h) m.

(** [cols] is what sampling the gradient of [c] gives in the 8-bit
    encoding: the getter's colour at each [linspace] sample. *)
Definition sampled {mpl : Backend} (c : ColorMap) (cols : list Color) : Prop :=
  exists vals,
    Numpy.linspace (min_value c) (max_value c) (number_colors c) = Ok vals /\
    collect (get_rgb_u8 c) vals = Ok cols.

(** The table is the sampled one, its last slot painted black exactly
    while [set_black] is on. *)
Definition black_slot {mpl : Backend} (g : Globals) : Prop :=
  array_type (cmap g) = "rgb_u8"%string /\
  number_colors (cmap g) = 256 /\
  exists cols,
    sampled (cmap g) cols /\
    colormap_array (cmap g) =
    if set_black g
    then replace_nth (Z.to_nat (number_colors (cmap g) - 1)) black cols
    else cols.

(** Two states show the same region: bounds, samples and matrix agree. *)
Definition same_view (g g' : Globals) : Prop :=
  real_min g' = real_min g /\ real_max g' = real_max g /\
  imag_max g' = imag_max g /\ imag_min g' = imag_min g /\
  real_values g' = real_values g /\ imag_values g' = imag_values g /\
  px_arr g' = px_arr g.

(** Two states are coloured alike: same palette object, same flag. *)
Definition same_colours (g g' : Globals) : Prop :=
  cmap g' = cmap g /\ set_black g' = set_black g.

(** The drag that is pending: where the button went down and up. *)
Definition same_drag (g g' : Globals) : Prop :=
  mouse_down_x g' = mouse_down_x g /\ mouse_down_y g' = mouse_down_y g /\
  mouse_up_x g' = mouse_up_x g /\ mouse_up_y g' = mouse_up_y g.

(** Sample [i] of [np.linspace(start, stop, num)], as it is computed:
    [stop] itself at the last index when there are at least two samples,
    [i * step + start] before it ([i / (num-1) * delta + start] when the
    step is zero), and [i * delta + start] for a single sample. *)
Definition grid_point (start stop : float) (num i : Z) : float :=
  let div := num - 1 in
  let delta := (stop - start)%float in
  if (1 <? num) && (i =? div) then stop
  else if 0 <? div then
    let step := (delta / Z2F div)%float in
    if (step =? 0)%float
    then (Z2F i / Z2F div * delta + start)%float
    else (Z2F i * step + start)%float
  else (Z2F i * delta + start)%float.

(** A colour channel as matplotlib returns it: a binary64 in [0, 1]. *)
Definition unit_interval (c : float) : Prop :=
  (0 <=? c)%float = true /\ (c <=? 1)%float = true.

(** The colormap [name] returns colours whose red, green and blue lie
    in [0, 1]. *)
Definition in_gamut {mpl : Backend} (name : string) : Prop :=
  forall t : float,
    unit_interval (red (lut name t)) /\
    unit_interval (green (lut name t)) /\
    unit_interval (blue (lut name t)).

(** Every name that [cycle_colormap] can select is one matplotlib knows
    and one whose colours can be encoded in 8 bits. *)
Definition cycle_names_usable {mpl : Backend} : Prop :=
  forall name, In name cycle_names -> registered name = true /\ roundable name.

(** The event carries no position, or one inside the window, as pygame
    reports them. *)
Definition inside_window (nx ny : Z) (e : event) : Prop :=
  match e with
  | MOUSEBUTTONDOWN pos | MOUSEBUTTONUP pos =>
      0 <= fst pos < nx /\ 0 <= snd pos < ny
  | _ => True
  end.

(** What the program never changes in its palette: the names to cycle
    and the domain. *)
Definition palette_fixed (g : Globals) : Prop :=
  names_to_cycle (cmap g) = cycle_names /\
  min_value (cmap g) = 0%float /\ max_value (cmap g) = 255%float.

(** The recurrence in the specification's words, on the pair [(x, y)]:
    [new_x = x^2 - y^2 + cx], [new_y = 2*x*y + cy]. *)
Definition spec_step (cx cy : float) (z : float * float) : float * float :=
  ((fst z * fst z - snd z * snd z + cx)%float, (2 * fst z * snd z + cy)%float).

(** The point reached after [k] steps from [x = 0, y = 0]. *)
Fixpoint spec_orbit (cx cy : float) (k : nat) : float * float :=
  match k with
  | O => (0%float, 0%float)
  | S k' => spec_step cx cy (spec_orbit cx cy k')
  end.

(** The specification's test on a point: [x^2 + y^2 <= 4]. *)
Definition spec_within (z : float * float) : bool :=
  (fst z * fst z + snd z * snd z <=? 4)%float.

(** [n] is the count at which the specification's loop stops: the guard
    [iterations < max_iterations - 1 and x^2 + y^2 <= 4] holds at every
    count before [n], on the point reached by then, and fails at [n]. *)
Definition spec_count (max_iterations : Z) (cx cy : float) (n : Z) : Prop :=
  0 <= n /\
  (forall k, 0 <= k < n ->
     k < max_iterations - 1 /\
     spec_within (spec_orbit cx cy (Z.to_nat k)) = true) /\
  (n < max_iterations - 1 ->
   spec_within (spec_orbit cx cy (Z.to_nat n)) = false).




(* ================================================================== *)
(** * Lists, indices and results *)
(* ================================================================== *)

Section Runtime.
Context {A : Type}.

(** An index inside [0, len) reads that entry. *)
Lemma getitem_nonneg (l : list A) (i : Z) :
  0 <= i < Z.of_nat (List.length l) ->
  exists a, nth_error l (Z.to_nat i) = Some a /\ getitem l i = Ok a.
Proof.
  intros Hi. unfold getitem.
  destruct (Z.ltb_spec i 0) as [Hneg|_]; [lia|].
  destruct (Z.leb_spec 0 i) as [_|Hneg]; [|lia].
  destruct (Z.ltb_spec i (Z.of_nat (List.length l))) as [_|Hbig]; [|lia].
  cbn [andb].
  destruct (nth_error l (Z.to_nat i)) as [a|] eqn:E.
  - now exists a.
  - apply nth_error_None in E. lia.
Qed.

Lemma getitem_of_nat (l : list A) (n : nat) (a : A) :
  nth_error l n = Some a -> getitem l (Z.of_nat n) = Ok a.
Proof.
  intros E.
  assert (Hn : (n < List.length l)%nat) by (apply nth_error_Some; congruence).
  destruct (getitem_nonneg l (Z.of_nat n)) as (b & Hb & ->); [lia|].
  rewrite Nat2Z.id in Hb. congruence.
Qed.

End Runtime.

(** Every index Python accepts reads an entry. *)
Lemma getitem_valid {A : Type} (l : list A) (i : Z) :
  valid_index l i -> exists a, getitem l i = Ok a.
Proof.
  unfold valid_index, getitem. intros H.
  set (n := Z.of_nat (List.length l)) in *.
  set (k := if i <? 0 then i + n else i).
  assert (Hk : 0 <= k < n) by (subst k; destruct (Z.ltb_spec i 0); lia).
  destruct (Z.leb_spec 0 k); [|lia]. destruct (Z.ltb_spec k n); [|lia].
  cbn [andb]. destruct (nth_error l (Z.to_nat k)) eqn:E; [eauto|].
  apply nth_error_None in E. lia.
Qed.

(** An index inside [-len, 0) reads the entry [len + i]. *)
Lemma getitem_negative {A : Type} (l : list A) (i : Z) :
  - Z.of_nat (List.length l) <= i < 0 ->
  exists a, nth_error l (Z.to_nat (Z.of_nat (List.length l) + i)) = Some a /\
            getitem l i = Ok a.
Proof.
  intros Hi.
  destruct (getitem_nonneg l (Z.of_nat (List.length l) + i)) as (a & Ha & Hg); [lia|].
  exists a. split; [exact Ha|].
  unfold getitem in *.
  destruct (Z.ltb_spec i 0); [|lia].
  destruct (Z.ltb_spec (Z.of_nat (List.length l) + i) 0); [lia|].
  now rewrite (Z.add_comm i).
Qed.

(** [IndexError] is raised for the other indices, and for no others. *)
Lemma getitem_raises {A : Type} (l : list A) (i : Z) :
  getitem l i = Raise IndexError <-> ~ valid_index l i.
Proof.
  split.
  - intros H V. destruct (getitem_valid l i V) as [a Ha]. congruence.
  - unfold valid_index, getitem. intros H.
    destruct (Z.ltb_spec i 0);
      match goal with |- context [(0 <=? ?k) && (?k <? ?n)] =>
        destruct (Z.leb_spec 0 k); destruct (Z.ltb_spec k n); cbn [andb];
        try reflexivity; lia
      end.
Qed.

Lemma getitem_In {A : Type} (l : list A) (i : Z) (a : A) :
  getitem l i = Ok a -> In a l.
Proof.
  unfold getitem. destruct (_ && _); [|discriminate].
  destruct (nth_error l _) eqn:E; [|discriminate].
  intros [= <-]. eapply nth_error_In, E.
Qed.

Lemma replace_nth_length {A : Type} (n : nat) (v : A) (l : list A) :
  List.length (replace_nth n v l) = List.length l.
Proof.
  revert n. induction l as [|h t IH]; intros [|n]; cbn; auto.
Qed.

Lemma replace_nth_same {A : Type} (n : nat) (v : A) (l : list A) :
  (n < List.length l)%nat -> nth_error (replace_nth n v l) n = Some v.
Proof.
  revert n. induction l as [|h t IH]; intros [|n] H; cbn in *; try lia; auto.
  apply IH. lia.
Qed.

Lemma replace_nth_other {A : Type} (n k : nat) (v : A) (l : list A) :
  n <> k -> nth_error (replace_nth n v l) k = nth_error l k.
Proof.
  revert n k. induction l as [|h t IH]; intros [|n] [|k] H; cbn; auto; try lia.
Qed.

Lemma collect_length {A B : Type} (f : A -> result B) (l : list A) (bs : list B) :
  collect f l = Ok bs -> List.length bs = List.length l.
Proof.
  revert bs. induction l as [|a l IH]; intros bs; cbn [collect].
  - now intros [= <-].
  - destruct (f a); [|discriminate]. destruct (collect f l); [|discriminate].
    intros [= <-]. cbn. f_equal. now apply IH.
Qed.

Lemma collect_nth {A B : Type} (f : A -> result B) (l : list A) (bs : list B) :
  collect f l = Ok bs ->
  forall i a, nth_error l i = Some a ->
              exists b, nth_error bs i = Some b /\ f a = Ok b.
Proof.
  revert bs. induction l as [|h l IH]; intros bs; cbn [collect].
  - intros _ [|i] a; discriminate.
  - destruct (f h) as [b|] eqn:Eh; [|discriminate].
    destruct (collect f l) as [bs'|]; [|discriminate].
    intros [= <-] [|i] a; cbn [nth_error].
    + intros [= <-]. eauto.
    + now apply IH.
Qed.

Lemma collect_ok {A B : Type} (f : A -> result B) (l : list A) :
  (forall a, In a l -> exists b, f a = Ok b) -> exists bs, collect f l = Ok bs.
Proof.
  induction l as [|h l IH]; intros H; cbn [collect]; [eauto|].
  destruct (H h (or_introl eq_refl)) as [b ->].
  destruct IH as [bs ->]; [intros a Ha; apply H; now right|]. eauto.
Qed.

Lemma In_range (n : nat) (i : Z) :
  In i (range n) -> exists k, i = Z.of_nat k /\ (k < n)%nat.
Proof.
  unfold range. intros (k & <- & Hk%in_seq)%in_map_iff. exists k. split; [reflexivity|lia].
Qed.

(* ================================================================== *)
(** * Rounding to the nearest integer *)
(* ================================================================== *)

(** [round_half_even m e] is within half a unit of [m * 2^e], and even
    when it is exactly half a unit away. *)
Lemma round_half_even_nearest (m e : Z) :
  e < 0 ->
  let d := 2 ^ (- e) in
  let z := round_half_even m e in
  2 * Z.abs (z * d - m) <= d /\ (2 * Z.abs (z * d - m) = d -> Z.even z = true).
Proof.
  intros He d z. subst z. unfold round_half_even.
  destruct (Z.leb_spec 0 e); [lia|]. fold d.
  assert (Hd : 0 < d) by (apply Z.pow_pos_nonneg; lia).
  pose proof (Z.div_mod m d ltac:(lia)) as Hm.
  pose proof (Z.mod_pos_bound m d Hd) as Hr.
  set (q := m / d) in *. set (r := m mod d) in *.
  destruct (Z.compare_spec (2 * r) d) as [E|L|G].
  - destruct (Z.even q) eqn:Ev.
    + split; [lia|auto].
    + split; [lia|]. intros _. rewrite Z.even_add, Ev. reflexivity.
  - split; lia.
  - split; lia.
Qed.

(** A finite binary64 is a zero or [m * 2^e]. *)
Lemma is_finite_cases (f : float) :
  is_finite f = true ->
  (exists s, Prim2SF f = S754_zero s) \/ (exists s m e, Prim2SF f = S754_finite s m e).
Proof.
  unfold is_finite, is_nan, is_infinity.
  rewrite !eqb_spec, abs_spec.
  destruct (Prim2SF f) as [s|s| |s m e]; eauto.
  - rewrite orb_true_r. discriminate.
  - discriminate.
Qed.

(** What [round] returns is the nearest integer. *)
Lemma py_round_nearest (f : float) (z : Z) : py_round f = Ok z -> nearest_even f z.
Proof.
  unfold py_round, nearest_even.
  destruct (Prim2SF f) as [s|s| |s m e]; try discriminate.
  - now intros [= <-].
  - intros [= <-]. cbv zeta.
    destruct (Z.leb_spec 0 e) as [He|He].
    + unfold round_half_even. destruct (Z.leb_spec 0 e); [|lia].
      destruct s; cbn [cond_Zopp]; lia.
    + pose proof (round_half_even_nearest (Zpos m) e He) as [H1 H2].
      cbv zeta in H1, H2.
      destruct s; cbn [cond_Zopp]; [|auto].
      replace (- round_half_even (Z.pos m) e * 2 ^ (- e) - - Z.pos m)
        with (- (round_half_even (Z.pos m) e * 2 ^ (- e) - Z.pos m)) by lia.
      rewrite Z.abs_opp, Z.even_opp. auto.
Qed.

(** It returns for every finite binary64. *)
Lemma py_round_finite (f : float) :
  is_finite f = true -> exists z, py_round f = Ok z /\ nearest_even f z.
Proof.
  intros H.
  assert (E : exists z, py_round f = Ok z).
  { unfold py_round.
    destruct (is_finite_cases f H) as [[s ->]|(s & m & e & ->)]; eauto. }
  destruct E as [z E]. exists z. split; [exact E|now apply py_round_nearest].
Qed.

(* ================================================================== *)
(** * Binary64: zeros, and negating an operand *)
(* ================================================================== *)

(** The two binary64 zeros are the only values equal to [0]. *)
Lemma eqb_zero_inv (c : float) :
  (c =? 0)%float = true -> c = 0%float \/ c = (-0)%float.
Proof.
  rewrite eqb_spec. intros H.
  rewrite <- (SF2Prim_Prim2SF c).
  destruct (Prim2SF c) as [[|]| | |]; try discriminate H; auto.
  all: destruct s; discriminate H.
Qed.

Lemma SFeqb_zero_inv (a : spec_float) :
  SFeqb a (S754_zero false) = true -> sf_zero a.
Proof.
  destruct a as [s|s| |s m e]; cbn; try discriminate.
  - intros _. now exists s.
  - now destruct s.
  - now destruct s.
Qed.

Lemma SFsub_add_zero (p a : spec_float) :
  sf_zero p -> SF64sub (SF64add p a) a = SF64sub a a.
Proof.
  intros [sp ->]. destruct a as [sa|sa| |sa m e]; try reflexivity.
  now destruct sp, sa.
Qed.

Lemma SFmul_zero_l (a : spec_float) :
  (sf_zero a \/ exists s m e, a = S754_finite s m e) ->
  sf_zero (SF64mul (S754_zero false) a).
Proof.
  intros [[s ->]|(s & m & e & ->)]; eexists; reflexivity.
Qed.

(** When the step is zero, the quotient [0 / (num-1)] and its product
    with the difference of the bounds are zeros. *)
Lemma SFdiv_zero_step (delta d : spec_float) :
  sf_zero (SF64div delta d) ->
  sf_zero (SF64mul (SF64div (S754_zero false) d) delta).
Proof.
  intros [s H].
  destruct delta as [sx|sx| |sx mx ex], d as [sy|sy| |sy my ey];
    cbn in H; try discriminate H; eexists; reflexivity.
Qed.

(** Rounding to nearest even does not look at the sign: flipping the
    sign of what is rounded flips the sign of the result. *)
Lemma binary_round_aux_negb s m e l :
  binary_round_aux prec emax (negb s) m e l = SFopp (binary_round_aux prec emax s m e l).
Proof.
  unfold binary_round_aux.
  destruct (shr_fexp prec emax m e l) as [mrs' e'].
  destruct (shr_fexp prec emax _ e' loc_Exact) as [mrs'' e''].
  destruct (shr_m mrs''); try reflexivity.
  destruct (e'' <=? emax - prec); reflexivity.
Qed.

Lemma binary_round_negb s m e :
  binary_round prec emax (negb s) m e = SFopp (binary_round prec emax s m e).
Proof.
  unfold binary_round.
  destruct (shl_align m e _) as [mz ez]. apply binary_round_aux_negb.
Qed.

Lemma binary_normalize_opp z e :
  sf_mirror (binary_normalize prec emax z e false)
            (binary_normalize prec emax (- z) e false).
Proof.
  destruct z as [|p|p]; cbn [Z.opp binary_normalize].
  - right. split; exists false; reflexivity.
  - left. apply (binary_round_negb false).
  - left. change false with (negb true). rewrite binary_round_negb.
    now destruct (binary_round prec emax true p e) as [[|]|[|]| |[|] ? ?].
Qed.

(** Products: negating an operand negates the product. *)
Lemma SFmul_opp_r a b : SF64mul a (SFopp b) = SFopp (SF64mul a b).
Proof.
  destruct a as [sa|sa| |sa ma ea], b as [sb|sb| |sb mb eb];
    cbn [SF64mul SFmul SFopp]; try reflexivity;
    try (now destruct sa, sb).
  rewrite <- binary_round_aux_negb. now destruct sa, sb.
Qed.

Lemma SFmul_square_opp a : SF64mul (SFopp a) (SFopp a) = SF64mul a a.
Proof.
  destruct a as [s|s| |s m e]; cbn [SF64mul SFmul SFopp]; try reflexivity;
    now destruct s.
Qed.

Lemma SFmul_square_zero a b : sf_zero a -> sf_zero b -> SF64mul a a = SF64mul b b.
Proof. intros [[|] ->] [[|] ->]; reflexivity. Qed.

Lemma sf_mirror_square a b : sf_mirror a b -> SF64mul a a = SF64mul b b.
Proof.
  intros [-> | [Ha Hb]].
  - symmetry. apply SFmul_square_opp.
  - now apply SFmul_square_zero.
Qed.

Lemma sf_mirror_mul c a b : sf_mirror a b -> sf_mirror (SF64mul c a) (SF64mul c b).
Proof.
  intros [-> | [[sa ->] [sb ->]]].
  - left. apply SFmul_opp_r.
  - destruct c as [sc|sc| |sc mc ec]; cbn [SF64mul SFmul].
    + right. split; eexists; reflexivity.
    + now left.
    + now left.
    + right. split; eexists; reflexivity.
Qed.

(** Sums: negating both operands negates the sum, up to the sign of a
    zero. *)
Lemma SFadd_opp a b : sf_mirror (SF64add a b) (SF64add (SFopp a) (SFopp b)).
Proof.
  destruct a as [sa|sa| |sa ma ea], b as [sb|sb| |sb mb eb];
    cbn [SF64add SFadd SFopp];
    try (left; reflexivity);
    try (destruct sa, sb; (left; reflexivity) || (right; split; eexists; reflexivity)).
  set (ez := Z.min ea eb).
  set (za := Zpos (fst (shl_align ma ea ez))).
  set (zb := Zpos (fst (shl_align mb eb ez))).
  replace (cond_Zopp (negb sa) za + cond_Zopp (negb sb) zb)
    with (- (cond_Zopp sa za + cond_Zopp sb zb))
    by (destruct sa, sb; cbn [cond_Zopp negb]; lia).
  apply binary_normalize_opp.
Qed.

Lemma SFadd_zero_l a b c : sf_zero a -> sf_zero b ->
  sf_mirror (SF64add a c) (SF64add b (SFopp c)).
Proof.
  intros [sa ->] [sb ->].
  destruct c as [sc|sc| |sc mc ec]; cbn [SF64add SFadd SFopp];
    try (left; reflexivity).
  right. split; destruct sa, sb, sc; eexists; reflexivity.
Qed.

Lemma sf_mirror_add a b c : sf_mirror a b -> sf_mirror (SF64add a c) (SF64add b (SFopp c)).
Proof.
  intros [-> | [Ha Hb]].
  - apply SFadd_opp.
  - now apply SFadd_zero_l.
Qed.

(** The same facts on the primitive operations. *)
Lemma mirror_square (a b : float) : mirror a b -> (a * a = b * b)%float.
Proof.
  intros H. apply Prim2SF_inj. rewrite !mul_spec. now apply sf_mirror_square.
Qed.

Lemma mirror_step (c a b d : float) :
  mirror a b -> mirror (c * a + d) (c * b + - d).
Proof.
  intros H. unfold mirror. rewrite !add_spec, !mul_spec, opp_spec.
  apply sf_mirror_add. now apply sf_mirror_mul.
Qed.

Lemma mirror_zero : mirror 0 0.
Proof. right. split; exists false; reflexivity. Qed.

(* ================================================================== *)
(** * The samples of [np.linspace] *)
(* ================================================================== *)

(** [linspace] returns [num] samples whenever [num] is not negative. *)
Lemma arange_length (num : Z) : List.length (Numpy.arange num) = Z.to_nat num.
Proof. unfold Numpy.arange. now rewrite length_map, length_seq. Qed.

Lemma linspace_length (start stop : float) (num : Z) (l : list float) :
  Numpy.linspace start stop num = Ok l -> List.length l = Z.to_nat num.
Proof.
  unfold Numpy.linspace. destruct (num <? 0); [discriminate|].
  intros [= <-].
  destruct (1 <? num); rewrite ?replace_nth_length, length_map;
    destruct (0 <? num - 1); try destruct (_ =? _)%float;
    now rewrite length_map, arange_length.
Qed.

Lemma linspace_ok (start stop : float) (num : Z) :
  0 <= num -> exists l, Numpy.linspace start stop num = Ok l.
Proof.
  intros H. unfold Numpy.linspace.
  destruct (Z.ltb_spec num 0); [lia|]. eexists; reflexivity.
Qed.

(** The last sample is [stop] itself; the first is computed. *)
Lemma linspace_last (start stop : float) (num : Z) (vals : list float) :
  2 <= num -> Numpy.linspace start stop num = Ok vals ->
  nth_error vals (Z.to_nat (num - 1)) = Some stop.
Proof.
  intros Hn H. pose proof (linspace_length _ _ _ _ H) as Hl.
  unfold Numpy.linspace in H.
  destruct (Z.ltb_spec num 0); [lia|]. destruct (Z.ltb_spec 1 num); [|lia].
  injection H as <-. rewrite replace_nth_length in Hl.
  rewrite Hl. replace (Z.to_nat num - 1)%nat with (Z.to_nat (num - 1)) by lia.
  apply replace_nth_same. lia.
Qed.

Lemma linspace_first (start stop : float) (num : Z) (vals : list float) :
  2 <= num -> Numpy.linspace start stop num = Ok vals ->
  nth_error vals 0 = Some (first_sample start stop num).
Proof.
  intros Hn H. pose proof (linspace_length _ _ _ _ H) as Hl.
  unfold Numpy.linspace in H.
  destruct (Z.ltb_spec num 0); [lia|]. destruct (Z.ltb_spec 1 num); [|lia].
  destruct (Z.ltb_spec 0 (num - 1)); [|lia].
  injection H as <-. rewrite replace_nth_length in Hl. rewrite Hl.
  rewrite replace_nth_other by lia.
  unfold first_sample, Numpy.arange.
  destruct (Z.to_nat num) as [|k] eqn:Ek; [lia|].
  destruct (_ =? _)%float; reflexivity.
Qed.

(** The first sample and the lower bound are at the same distance from
    the lower bound (they differ at most in the sign of a zero), as soon
    as the step is finite. *)
Lemma first_sample_offset (start stop : float) (num : Z) :
  is_finite ((stop - start) / Z2F (num - 1)) = true ->
  (first_sample start stop num - start = start - start)%float.
Proof.
  intros F. apply Prim2SF_inj. unfold first_sample.
  set (delta := (stop - start)%float) in *.
  set (step := (delta / Z2F (num - 1))%float) in *.
  assert (Z : sf_zero (Prim2SF (if (step =? 0)%float
                                then (0 / Z2F (num - 1) * delta)%float
                                else (0 * step)%float))).
  { destruct (step =? 0)%float eqn:E.
    - rewrite eqb_spec in E. apply SFeqb_zero_inv in E.
      rewrite mul_spec, div_spec. apply SFdiv_zero_step.
      subst step. now rewrite div_spec in E.
    - rewrite mul_spec. apply SFmul_zero_l. now apply is_finite_cases. }
  destruct (step =? 0)%float; rewrite !sub_spec, add_spec;
    now apply SFsub_add_zero.
Qed.

(* ================================================================== *)
(** * The escape-time loop *)
(* ================================================================== *)

Section EscapeLoop.
Variables (max_itr : Z) (cx cy : float).

(** Fuel that covers the distance to the cap reaches the exit of the
    loop: the function computes the relation. *)
Lemma while_loop_exec (fuel : nat) :
  forall s, max_itr - 1 - itr s <= Z.of_nat fuel ->
            while_exec max_itr cx cy s (while_loop fuel max_itr cx cy s).
Proof.
  induction fuel as [|fuel IH]; intros s Hs; cbn [while_loop].
  - apply while_exit. unfold loop_cond.
    destruct (Z.ltb_spec (itr s) (max_itr - 1)); [lia|reflexivity].
  - destruct (loop_cond max_itr s) eqn:C.
    + apply while_iter; [exact C|]. apply IH. cbn [loop_body itr]. lia.
    + now apply while_exit.
Qed.

(** The loop has one outcome, reached with its guard false. *)
Lemma while_exec_det s s1 s2 :
  while_exec max_itr cx cy s s1 -> while_exec max_itr cx cy s s2 -> s1 = s2.
Proof.
  intros H1. revert s2.
  induction H1 as [s C|s s' C _ IH]; intros s2 H2; inversion H2; subst;
    try congruence; auto.
Qed.

Lemma while_exec_exit s s' :
  while_exec max_itr cx cy s s' -> loop_cond max_itr s' = false.
Proof. induction 1; assumption. Qed.

(** The count only grows, and never past the cap. *)
Lemma while_exec_itr s s' :
  while_exec max_itr cx cy s s' ->
  itr s <= itr s' <= Z.max (itr s) (max_itr - 1).
Proof.
  induction 1 as [s C|s s' C _ IH].
  - lia.
  - cbn [loop_body itr] in IH. unfold loop_cond in C.
    apply andb_prop in C as [C _]. apply Z.ltb_lt in C. lia.
Qed.

Lemma escape_time_exec :
  while_exec max_itr cx cy loop_init
    (while_loop (Z.to_nat (max_itr - 1)) max_itr cx cy loop_init).
Proof. apply while_loop_exec. cbn [loop_init itr]. lia. Qed.

End EscapeLoop.

(** The stored count lies between 0 and the cap. *)
Lemma escape_time_bounds (m : Z) (cx cy : float) :
  0 <= escape_time m cx cy <= Z.max 0 (m - 1).
Proof.
  pose proof (while_exec_itr _ _ _ _ _ (escape_time_exec m cx cy)) as H.
  cbn [loop_init itr] in H. exact H.
Qed.

(** At the origin the orbit stays at [0.0]: every pass leaves [x] and
    [y] unchanged, whichever zero [cx] and [cy] are. *)
Lemma origin_fixed (cx cy : float) (n : Z) :
  (cx = 0 \/ cx = -0)%float -> (cy = 0 \/ cy = -0)%float ->
  loop_body cx cy (mkLoop n 0 0) = mkLoop (n + 1) 0 0.
Proof. intros [-> | ->] [-> | ->]; reflexivity. Qed.

Lemma origin_loop (max_itr : Z) (cx cy : float) (fuel : nat) :
  (cx = 0 \/ cx = -0)%float -> (cy = 0 \/ cy = -0)%float ->
  forall n, n <= max_itr - 1 ->
  itr (while_loop fuel max_itr cx cy (mkLoop n 0 0)) = Z.min (n + Z.of_nat fuel) (max_itr - 1).
Proof.
  intros Hx Hy. induction fuel as [|fuel IH]; intros n Hn; cbn [while_loop].
  - cbn [itr]. lia.
  - unfold loop_cond; cbn [itr x y].
    replace ((0 * 0 + 0 * 0 <=? 4)%float) with true by reflexivity.
    rewrite andb_true_r.
    destruct (Z.ltb_spec n (max_itr - 1)).
    + rewrite origin_fixed by assumption. rewrite IH by lia. lia.
    + cbn [itr]. lia.
Qed.

(** Entry [(i, j)] of the matrix is the count of sample [(i, j)]. *)
Lemma calculate_mandelbrot_at (rv iv : list float) (m : Z) (i j : nat) (cx cy : float) :
  nth_error rv i = Some cx -> nth_error iv j = Some cy ->
  px_at (calculate_mandelbrot rv iv m) (Z.of_nat i) (Z.of_nat j) = Ok (escape_time m cx cy).
Proof.
  intros Hi Hj. unfold px_at, calculate_mandelbrot.
  rewrite (getitem_of_nat _ i (map (fun cy => escape_time m cx cy) iv)).
  - cbn [Py.bind]. apply getitem_of_nat. rewrite nth_error_map, Hj. reflexivity.
  - rewrite nth_error_map, Hi. reflexivity.
Qed.

(** Every entry of the matrix is a count below the cap. *)
Lemma calculate_mandelbrot_entries (rv iv : list float) (m : Z) (i j v : Z) :
  1 <= m -> px_at (calculate_mandelbrot rv iv m) i j = Ok v -> 0 <= v < m.
Proof.
  intros Hm. unfold px_at, calculate_mandelbrot.
  destruct (getitem _ i) as [row|] eqn:Er; [|discriminate]. cbn [Py.bind].
  intros Hv%getitem_In. apply getitem_In, in_map_iff in Er as (cx & <- & _).
  apply in_map_iff in Hv as (cy & <- & _).
  pose proof (escape_time_bounds m cx cy). lia.
Qed.

(** The loop walks the orbit of the recurrence: after [k] passes its
    state is the [k]-th point, and the guard held at every point before
    the one it stops at. *)
Lemma while_exec_orbit (m : Z) (cx cy : float) (s s' : LoopState) :
  while_exec m cx cy s s' ->
  forall k : nat,
    s = mkLoop (Z.of_nat k) (fst (spec_orbit cx cy k)) (snd (spec_orbit cx cy k)) ->
    exists k' : nat,
      (k <= k')%nat /\
      s' = mkLoop (Z.of_nat k') (fst (spec_orbit cx cy k')) (snd (spec_orbit cx cy k')) /\
      forall q : nat, (k <= q < k')%nat ->
        Z.of_nat q < m - 1 /\ spec_within (spec_orbit cx cy q) = true.
Proof.
  induction 1 as [s C|s s' C _ IH]; intros k E.
  - exists k. split; [lia|]. split; [exact E|]. intros q Hq. lia.
  - destruct (IH (S k)) as (k' & Hk & E' & G).
    { subst s. unfold loop_body. cbn [itr x y spec_orbit spec_step fst snd].
      now rewrite Nat2Z.inj_succ. }
    exists k'. split; [lia|]. split; [exact E'|].
    intros q Hq. destruct (Nat.eq_dec q k) as [->|N].
    + subst s. unfold loop_cond in C. cbn [itr x y] in C.
      apply andb_prop in C as [C1 C2]. apply Z.ltb_lt in C1.
      split; [exact C1|exact C2].
    + apply G. lia.
Qed.

(** The specification's loop stops at one count only. *)
Lemma spec_count_unique (m : Z) (cx cy : float) (n n' : Z) :
  spec_count m cx cy n -> spec_count m cx cy n' -> n = n'.
Proof.
  intros (H0 & Hb & He) (H0' & Hb' & He').
  destruct (Z.lt_trichotomy n n') as [L|[E|L]]; [|exact E|].
  - destruct (Hb' n) as [A B]; [lia|]. rewrite He in B by exact A. discriminate B.
  - destruct (Hb n') as [A B]; [lia|]. rewrite He' in B by exact A. discriminate B.
Qed.

(** The count the code stores is the one the specification's loop stops
    at, and the loop's [x] and [y] are then the point of that count. *)
Lemma escape_time_spec_count (m : Z) (cx cy : float) :
  let s := while_loop (Z.to_nat (m - 1)) m cx cy loop_init in
  (x s, y s) = spec_orbit cx cy (Z.to_nat (itr s)) /\
  spec_count m cx cy (itr s).
Proof.
  intros s. pose proof (escape_time_exec m cx cy) as Hexec. fold s in Hexec.
  pose proof (while_exec_exit _ _ _ _ _ Hexec) as Hexit.
  destruct (while_exec_orbit m cx cy loop_init s Hexec 0%nat eq_refl) as (k & _ & E & G).
  rewrite E in Hexit |- *. cbn [itr x y]. rewrite Nat2Z.id.
  split; [now destruct (spec_orbit cx cy k)|].
  split; [lia|]. split.
  - intros q Hq. destruct (G (Z.to_nat q)) as [A B]; [lia|].
    rewrite Z2Nat.id in A by lia. split; [exact A|exact B].
  - intros Hn. rewrite Nat2Z.id. unfold loop_cond in Hexit. cbn [itr x y] in Hexit.
    destruct (Z.ltb_spec (Z.of_nat k) (m - 1)) as [_|Hge]; [|lia].
    exact Hexit.
Qed.

(** C1. For every pixel [(i, j)] whose mapped point is [(cx, cy)],
    [calculate_mandelbrot] stores the count at which the loop exits, and
    that loop is the specification's: started at [x = 0, y = 0] with
    count 0, it applies [new_x = x^2 - y^2 + cx], [new_y = 2*x*y + cy]
    while [count < max_itr - 1] and [x^2 + y^2 <= 4] (the threshold is
    exactly 4).  The stored count is the only one at which that loop can
    stop, [x] and [y] are then the point the recurrence has reached, the
    count is at most [max_itr - 1], never [max_itr], and at the origin it
    is exactly [max_itr - 1] for every [max_itr >= 1]. *)
Theorem recompute_stores_exit_count
    (real_values imag_values : list float) (max_itr : Z) (i j : nat) (cx cy : float) :
  nth_error real_values i = Some cx ->
  nth_error imag_values j = Some cy ->
  exists s : LoopState,
    while_exec max_itr cx cy loop_init s /\
    loop_cond max_itr s = false /\
    px_at (calculate_mandelbrot real_values imag_values max_itr)
          (Z.of_nat i) (Z.of_nat j) = Ok (itr s) /\
    (x s, y s) = spec_orbit cx cy (Z.to_nat (itr s)) /\
    spec_count max_itr cx cy (itr s) /\
    (forall n : Z, spec_count max_itr cx cy n -> n = itr s) /\
    0 <= itr s <= Z.max 0 (max_itr - 1) /\
    (1 <= max_itr -> itr s <= max_itr - 1) /\
    (1 <= max_itr -> (cx =? 0)%float = true -> (cy =? 0)%float = true ->
     itr s = max_itr - 1).
Proof.
  intros Hi Hj.
  pose proof (escape_time_exec max_itr cx cy) as Hexec.
  destruct (escape_time_spec_count max_itr cx cy) as [Horb Hcount].
  exists (while_loop (Z.to_nat (max_itr - 1)) max_itr cx cy loop_init).
  pose proof (while_exec_itr _ _ _ _ _ Hexec) as Hb. cbn [loop_init itr] in Hb.
  split; [exact Hexec|].
  split; [exact (while_exec_exit _ _ _ _ _ Hexec)|].
  split; [exact (calculate_mandelbrot_at _ _ _ _ _ _ _ Hi Hj)|].
  split; [exact Horb|].
  split; [exact Hcount|].
  split; [intros n Hn; exact (spec_count_unique _ _ _ _ _ Hn Hcount)|].
  split; [apply Hb|].
  split; [lia|].
  intros Hm Hx%eqb_zero_inv Hy%eqb_zero_inv.
  unfold loop_init. rewrite origin_loop by (assumption || lia). lia.
Qed.

Lemma recompute_stores_exit_count_witness :
  exists s : LoopState,
    while_exec 5 0 (-0) loop_init s /\
    loop_cond 5 s = false /\
    px_at (calculate_mandelbrot [(-2)%float; 0%float] [(-0)%float] 5) 1 0 = Ok (itr s) /\
    (x s, y s) = spec_orbit 0 (-0) (Z.to_nat (itr s)) /\
    spec_count 5 0 (-0) (itr s) /\
    (forall n : Z, spec_count 5 0 (-0) n -> n = itr s) /\
    0 <= itr s <= Z.max 0 (5 - 1) /\
    (1 <= 5 -> itr s <= 5 - 1) /\
    (1 <= 5 -> (0 =? 0)%float = true -> (-0 =? 0)%float = true -> itr s = 5 - 1).
Proof.
  apply (recompute_stores_exit_count [(-2)%float; 0%float] [(-0)%float] 5 1 0 0 (-0));
    reflexivity.
Defined.

(* ================================================================== *)
(** * Symmetry about the real axis *)
(* ================================================================== *)

Section MirroredOrbit.
Variables (max_itr : Z) (cx cy : float).

(** Orbits of conjugate points stay mirrored: same guard, same [x],
    negated [y], pass after pass. *)
Lemma mirrored_cond s s' : mirrored s s' -> loop_cond max_itr s = loop_cond max_itr s'.
Proof.
  intros (Hi & Hx & Hy). unfold loop_cond.
  now rewrite Hi, Hx, (mirror_square _ _ Hy).
Qed.

Lemma mirrored_body s s' :
  mirrored s s' -> mirrored (loop_body cx cy s) (loop_body cx (- cy) s').
Proof.
  intros (Hi & Hx & Hy). unfold mirrored, loop_body; cbn [itr x y].
  rewrite Hi, Hx, (mirror_square _ _ Hy). repeat split.
  now apply mirror_step.
Qed.

Lemma mirrored_loop (fuel : nat) :
  forall s s', mirrored s s' ->
    mirrored (while_loop fuel max_itr cx cy s) (while_loop fuel max_itr cx (- cy) s').
Proof.
  induction fuel as [|fuel IH]; intros s s' H; cbn [while_loop]; [exact H|].
  rewrite <- (mirrored_cond _ _ H).
  destruct (loop_cond max_itr s); [|exact H].
  apply IH. now apply mirrored_body.
Qed.

(** Conjugate points escape after the same number of passes. *)
Lemma escape_time_conj : escape_time max_itr cx (- cy) = escape_time max_itr cx cy.
Proof.
  unfold escape_time. symmetry.
  apply (mirrored_loop _ loop_init loop_init).
  repeat split. apply mirror_zero.
Qed.

End MirroredOrbit.

(** C8, as the program has it.  Two rows whose sample points are exact
    negatives of each other hold the same counts in every column; for
    row [j] and its mirror image [H-1-j] this is the case exactly when
    [imag_values[H-1-j] = -imag_values[j]] as binary64 values. *)
Theorem mirrored_rows_agree
    (real_values imag_values : list float) (max_itr : Z) (i j : nat) :
  (i < List.length real_values)%nat ->
  (j < List.length imag_values)%nat ->
  nth (List.length imag_values - 1 - j) imag_values 0%float
    = (- nth j imag_values 0)%float ->
  px_at (calculate_mandelbrot real_values imag_values max_itr)
        (Z.of_nat i) (Z.of_nat j)
  = px_at (calculate_mandelbrot real_values imag_values max_itr)
        (Z.of_nat i) (Z.of_nat (List.length imag_values) - 1 - Z.of_nat j).
Proof.
  intros Hi Hj Hm.
  set (H := List.length imag_values) in *.
  replace (Z.of_nat H - 1 - Z.of_nat j) with (Z.of_nat (H - 1 - j)) by lia.
  destruct (nth_error real_values i) as [cx|] eqn:Ex;
    [|apply nth_error_None in Ex; lia].
  assert (Ej : nth_error imag_values j = Some (nth j imag_values 0%float))
    by (apply nth_error_nth'; exact Hj).
  assert (Ej' : nth_error imag_values (H - 1 - j)
                = Some (nth (H - 1 - j) imag_values 0%float))
    by (apply nth_error_nth'; subst H; lia).
  rewrite (calculate_mandelbrot_at _ _ _ _ _ _ _ Ex Ej).
  rewrite (calculate_mandelbrot_at _ _ _ _ _ _ _ Ex Ej').
  now rewrite Hm, escape_time_conj.
Qed.

Lemma mirrored_rows_agree_witness :
  exists iv : list float,
    Numpy.linspace 1 (-1) 3 = Ok iv /\
    px_at (calculate_mandelbrot [(-0.5)%float; 0.25%float] iv 50) 1 0
    = px_at (calculate_mandelbrot [(-0.5)%float; 0.25%float] iv 50) 1
        (Z.of_nat (List.length iv) - 1 - 0).
Proof.
  eexists. split; [vm_compute; reflexivity|].
  apply (mirrored_rows_agree [(-0.5)%float; 0.25%float] _ 50 1 0);
    [cbn; lia | cbn; lia | reflexivity].
Defined.

(** The first frame the program draws (1280 by 800, real axis from -2 to
    1, imaginary axis from 0.9375 down to -0.9375, 256 passes at most) is
    not symmetric: in column 399, row 286 holds 200 and its mirror image,
    row 513, holds 202.  The two sample points differ in the last place. *)
Lemma first_frame_not_symmetric :
  exists rv iv : list float,
    (Z2F 800 * (1 - -2) / (2 * Z2F 1280) = 0.9375)%float /\
    Numpy.linspace (-2) 1 1280 = Ok rv /\
    Numpy.linspace 0.9375 (-0.9375) 800 = Ok iv /\
    px_at (calculate_mandelbrot rv iv 256) 399 286 = Ok 200 /\
    px_at (calculate_mandelbrot rv iv 256) 399 (800 - 1 - 286) = Ok 202.
Proof.
  eexists. eexists.
  split; [vm_compute; reflexivity|].
  split; [vm_compute; reflexivity|].
  split; [vm_compute; reflexivity|].
  split.
  - eapply eq_trans.
    + apply (calculate_mandelbrot_at _ _ 256 399%nat 286%nat); vm_compute; reflexivity.
    + vm_compute. reflexivity.
  - eapply eq_trans.
    + apply (calculate_mandelbrot_at _ _ 256 399%nat 513%nat); vm_compute; reflexivity.
    + vm_compute. reflexivity.
Qed.

(* ================================================================== *)
(** * The zoom *)
(* ================================================================== *)

(** Line 151 read in exact arithmetic: the expression gives the region
    the ratio of the grid, [(imag_max - imag_min)/(real_max - real_min)
    = H/W], whenever [real_max > real_min]. *)
Lemma zoom_ratio_exact (W H : Z) (rmin rmax imax : Q) :
  (rmin < rmax)%Q -> 0 < W ->
  ((imax - zoom_imag_min W H rmin rmax imax) / (rmax - rmin)
   == inject_Z H / inject_Z W)%Q.
Proof.
  intros Hlt HW.
  unfold zoom_imag_min; cbn [Mandelbrot.sub Mandelbrot.mul Mandelbrot.div of_int Q_arith].
  assert (HWq : ~ (inject_Z W == 0)%Q).
  { unfold Qeq; cbn. lia. }
  assert (Hd : ~ (rmax - rmin == 0)%Q).
  { intros E. apply (Qlt_irrefl rmin).
    setoid_replace rmin with (rmin + 0)%Q at 2 by ring.
    rewrite <- E. now ring_simplify. }
  field. now split.
Qed.

(** C2, as the program has it.  The handler checks nothing: for every
    click and release inside the grid it installs the resulting bounds
    and recomputes the matrix over them, in whatever order they come
    out; no exception is raised. *)
Theorem zoom_always_recomputes (g : Globals) (pos : Z * Z) :
  0 <= num_x g -> 0 <= num_y g ->
  valid_index (real_values g) (mouse_down_x g) ->
  valid_index (real_values g) (fst pos) ->
  valid_index (imag_values g) (mouse_down_y g) ->
  exists g' : Globals,
    mouse_button_up g pos = Ok g' /\
    getitem (real_values g) (mouse_down_x g) = Ok (real_min g') /\
    getitem (real_values g) (fst pos) = Ok (real_max g') /\
    Numpy.linspace (real_min g') (real_max g') (num_x g) = Ok (real_values g') /\
    Numpy.linspace (imag_max g') (imag_min g') (num_y g) = Ok (imag_values g') /\
    px_arr g' = calculate_mandelbrot (real_values g') (imag_values g') (max_itr g).
Proof.
  intros Hx Hy Hd Hu Hdy. unfold mouse_button_up.
  destruct (getitem_valid _ _ Hd) as [rmin ->].
  destruct (getitem_valid _ _ Hu) as [rmax ->].
  destruct (getitem_valid _ _ Hdy) as [imax ->].
  cbn [Py.bind].
  destruct (linspace_ok rmin rmax _ Hx) as [rv Erv]. rewrite Erv.
  destruct (linspace_ok imax (zoom_imag_min (num_x g) (num_y g) rmin rmax imax) _ Hy)
    as [iv Eiv]. rewrite Eiv.
  cbn [Py.bind]. eexists. split; [reflexivity|]. cbn. auto.
Qed.

Lemma zoom_always_recomputes_witness :
  exists g : Globals,
    startup (mpl := Demo.backend) 4 3 = Ok g /\
    exists g' : Globals,
      mouse_button_up g (1, 1) = Ok g' /\
      getitem (real_values g) (mouse_down_x g) = Ok (real_min g') /\
      getitem (real_values g) (fst (1, 1)) = Ok (real_max g') /\
      Numpy.linspace (real_min g') (real_max g') (num_x g) = Ok (real_values g') /\
      Numpy.linspace (imag_max g') (imag_min g') (num_y g) = Ok (imag_values g') /\
      px_arr g' = calculate_mandelbrot (real_values g') (imag_values g') (max_itr g).
Proof.
  eexists. split; [vm_compute; reflexivity|].
  apply zoom_always_recomputes; unfold valid_index; cbn; lia.
Defined.

(** A drag from column 2 back to column 1 of a 4 by 3 window, and a
    "drag" that stays in column 2: the first leaves [real_max < real_min],
    the second a viewport of zero width and zero height; both are
    recomputed, and nothing is raised. *)
Lemma reversed_drag_is_recomputed :
  exists g g1 g2 : Globals,
    startup (mpl := Demo.backend) 4 3 = Ok g /\
    handle_events (mpl := Demo.backend) g [MOUSEBUTTONDOWN (2, 0); MOUSEBUTTONUP (1, 1)] = Ok g1 /\
    (real_max g1 <? real_min g1)%float = true /\
    px_arr g1 = calculate_mandelbrot (real_values g1) (imag_values g1) (max_itr g1) /\
    handle_events (mpl := Demo.backend) g [MOUSEBUTTONDOWN (2, 0); MOUSEBUTTONUP (2, 1)] = Ok g2 /\
    (real_max g2 =? real_min g2)%float = true /\
    (imag_max g2 =? imag_min g2)%float = true /\
    px_arr g2 = calculate_mandelbrot (real_values g2) (imag_values g2) (max_itr g2).
Proof.
  eexists. eexists. eexists.
  split; [vm_compute; reflexivity|].
  split; [vm_compute; reflexivity|].
  split; [vm_compute; reflexivity|].
  split; [vm_compute; reflexivity|].
  split; [vm_compute; reflexivity|].
  split; [vm_compute; reflexivity|].
  split; vm_compute; reflexivity.
Qed.

(* ================================================================== *)
(** * The table that [initialize] builds *)
(* ================================================================== *)

Section Table.
Context {mpl : Backend}.

(** The getters read [scalarMap] and nothing else. *)
Lemma getter_reads_scalarMap ar get (s s' : ColorMap) (v : float) :
  getter_of ar = Some get -> scalarMap s = scalarMap s' -> get s v = get s' v.
Proof.
  unfold getter_of. intros G E.
  repeat match type of G with
         | (if ?b then _ else _) = _ => destruct b
         end;
    inversion G; subst get;
    unfold get_rgb_u8, get_rgba_u8, get_rgb_f, get_rgba_f; now rewrite E.
Qed.

(** A getter depends on its argument through [to_rgba] only. *)
Lemma getter_to_rgba ar get (s : ColorMap) (v v' : float) :
  getter_of ar = Some get ->
  to_rgba (scalarMap s) v = to_rgba (scalarMap s) v' ->
  get s v = get s v'.
Proof.
  unfold getter_of. intros G E.
  repeat match type of G with
         | (if ?b then _ else _) = _ => destruct b
         end;
    inversion G; subst get;
    unfold get_rgb_u8, get_rgba_u8, get_rgb_f, get_rgba_f; now rewrite E.
Qed.

Lemma collect_getter_ext ar get (s s' : ColorMap) (vals : list float) :
  getter_of ar = Some get -> scalarMap s = scalarMap s' ->
  collect (get s) vals = collect (get s') vals.
Proof.
  intros G E. induction vals as [|w vals IH]; cbn [collect]; [reflexivity|].
  now rewrite IH, (getter_reads_scalarMap _ _ s s' w G E).
Qed.

(** The body of the loop, by the getter it dispatches to. *)
Lemma append_color_getter (v : float) (s : ColorMap) :
  append_color v s =
  match getter_of (array_type s) with
  | Some get =>
      match get s v with
      | Ok c => (Ok tt, set_colormap_array (colormap_array s ++ [c]) s)
      | Raise e => (Raise e, s)
      end
  | None => (Ok tt, s)
  end.
Proof.
  unfold append_color, getter_of, mbind, get, lift, modify, ret.
  repeat match goal with
         | |- context [if ?b then _ else _] => destruct b
         end;
    try reflexivity;
    match goal with |- context [match ?g s v with _ => _ end] => destruct (g s v) end;
    reflexivity.
Qed.

Lemma set_colormap_array_twice a b (s : ColorMap) :
  set_colormap_array a (set_colormap_array b s) = set_colormap_array a s.
Proof. reflexivity. Qed.

(** The loop appends one colour per sample, in order, and stops at the
    first sample whose getter raises. *)
Lemma for_each_append get (vals : list float) :
  forall s : ColorMap,
    getter_of (array_type s) = Some get ->
    match collect (get s) vals with
    | Ok cols =>
        for_each vals append_color s
        = (Ok tt, set_colormap_array (colormap_array s ++ cols) s)
    | Raise e => fst (for_each vals append_color s) = Raise e
    end.
Proof.
  induction vals as [|v vals IH]; intros s G; cbn [collect for_each].
  - unfold ret. rewrite app_nil_r. now destruct s.
  - unfold mbind. rewrite append_color_getter, G.
    destruct (get s v) as [c|e] eqn:Ev; [|reflexivity].
    set (s1 := set_colormap_array (colormap_array s ++ [c]) s).
    assert (G1 : getter_of (array_type s1) = Some get) by exact G.
    specialize (IH s1 G1).
    assert (Hc : collect (get s1) vals = collect (get s) vals)
      by exact (collect_getter_ext _ _ s1 s vals G eq_refl).
    rewrite Hc in IH.
    destruct (collect (get s) vals) as [cols|e]; [|exact IH].
    rewrite IH. subst s1. cbn [colormap_array set_colormap_array].
    now rewrite set_colormap_array_twice, <- app_assoc.
Qed.

Lemma for_each_no_getter (vals : list float) (s : ColorMap) :
  getter_of (array_type s) = None -> for_each vals append_color s = (Ok tt, s).
Proof.
  intros G. induction vals as [|v vals IH]; cbn [for_each]; [reflexivity|].
  unfold mbind. now rewrite append_color_getter, G.
Qed.

(** The loop touches [colormap_array] only. *)
Lemma for_each_frame (vals : list float) :
  forall s : ColorMap,
    exists arr, snd (for_each vals append_color s) = set_colormap_array arr s.
Proof.
  induction vals as [|v vals IH]; intros s; cbn [for_each].
  - exists (colormap_array s). now destruct s.
  - unfold mbind. rewrite append_color_getter.
    destruct (getter_of (array_type s)) as [get|].
    + destruct (get s v) as [c|e].
      * destruct (IH (set_colormap_array (colormap_array s ++ [c]) s)) as [arr Ha].
        exists arr. rewrite Ha. reflexivity.
      * exists (colormap_array s). now destruct s.
    + apply IH.
Qed.

Lemma initialize_unregistered (s : ColorMap) :
  registered (cmap_name s) = false -> initialize s = (Raise ValueError, s).
Proof.
  intros R. unfold initialize, mbind, get, lift, get_cmap. now rewrite R.
Qed.

Lemma initialize_registered (s : ColorMap) :
  registered (cmap_name s) = true ->
  initialize s =
  match Numpy.linspace (min_value s) (max_value s) (number_colors s) with
  | Raise e => (Raise e, prepared s)
  | Ok vals => for_each vals append_color (set_colormap_array [] (prepared s))
  end.
Proof.
  intros R. unfold initialize, mbind, get, lift, get_cmap, modify. rewrite R.
  now destruct (Numpy.linspace _ _ _).
Qed.

(** A successful [initialize], taken apart: the name is registered, the
    samples exist, and the table holds the getter's colour for each
    sample (nothing, when [array_type] names no getter). *)
Lemma initialize_ok_inv (s s' : ColorMap) :
  initialize s = (Ok tt, s') ->
  registered (cmap_name s) = true /\
  exists vals cols,
    Numpy.linspace (min_value s) (max_value s) (number_colors s) = Ok vals /\
    s' = set_colormap_array cols (prepared s) /\
    match getter_of (array_type s) with
    | Some get => collect (get (prepared s)) vals = Ok cols
    | None => cols = []
    end.
Proof.
  intros H.
  destruct (registered (cmap_name s)) eqn:R;
    [|rewrite (initialize_unregistered s R) in H; discriminate].
  split; [reflexivity|].
  rewrite (initialize_registered s R) in H.
  destruct (Numpy.linspace _ _ _) as [vals|]; [|discriminate].
  exists vals.
  destruct (getter_of (array_type s)) as [get|] eqn:G.
  - pose proof (for_each_append get vals (set_colormap_array [] (prepared s)) G) as F.
    assert (Hc : collect (get (set_colormap_array [] (prepared s))) vals
                 = collect (get (prepared s)) vals)
      by exact (collect_getter_ext _ _ (set_colormap_array [] (prepared s)) (prepared s) vals G eq_refl).
    rewrite Hc in F.
    destruct (collect (get (prepared s)) vals) as [cols|e].
    + exists cols. rewrite F in H. injection H as <-. auto.
    + rewrite H in F. discriminate F.
  - rewrite for_each_no_getter in H by exact G. injection H as <-.
    exists []. auto.
Qed.

(** [initialize] never touches the name, the cycle list and index, the
    domain, the size or the encoding, whether it raises or not. *)
Lemma initialize_keeps (s : ColorMap) :
  let s' := snd (initialize s) in
  names_to_cycle s' = names_to_cycle s /\
  current_cycle_number s' = current_cycle_number s /\
  cmap_name s' = cmap_name s /\
  min_value s' = min_value s /\
  max_value s' = max_value s /\
  number_colors s' = number_colors s /\
  array_type s' = array_type s.
Proof.
  cbv zeta. destruct (registered (cmap_name s)) eqn:R.
  - rewrite (initialize_registered s R).
    destruct (Numpy.linspace _ _ _) as [vals|e].
    + destruct (for_each_frame vals (set_colormap_array [] (prepared s))) as [arr ->].
      repeat split.
    + repeat split.
  - rewrite (initialize_unregistered s R). repeat split.
Qed.

Lemma normalize_ok (n : Normalize) (v : float) :
  (vmax n <? vmin n)%float = false -> exists t, normalize n v = Ok t.
Proof.
  intros H. unfold normalize. rewrite H. destruct (_ =? _)%float; eauto.
Qed.

Lemma normalize_offset (n : Normalize) (v v' : float) :
  (v - vmin n = v' - vmin n)%float -> normalize n v = normalize n v'.
Proof. intros E. unfold normalize. now rewrite E. Qed.

Lemma getter_ok ar get (s : ColorMap) (v : float) :
  getter_of ar = Some get ->
  (vmax (sm_norm (scalarMap s)) <? vmin (sm_norm (scalarMap s)))%float = false ->
  roundable (sm_cmap (scalarMap s)) ->
  exists c, get s v = Ok c.
Proof.
  intros G N Rd.
  destruct (normalize_ok _ v N) as [t Ht].
  destruct (Rd t) as (Hr & Hg & Hb).
  destruct (py_round_finite _ Hr) as (r & Er & _).
  destruct (py_round_finite _ Hg) as (g & Eg & _).
  destruct (py_round_finite _ Hb) as (b & Eb & _).
  unfold getter_of in G.
  repeat match type of G with
         | (if ?b then _ else _) = _ => destruct b
         end;
    inversion G; subst get;
    unfold get_rgb_u8, get_rgba_u8, get_rgb_f, get_rgba_f, to_rgba;
    rewrite Ht; cbn [Py.bind]; rewrite ?Er, ?Eg, ?Eb; cbn [Py.bind]; eauto.
Qed.

(** [initialize] succeeds once the name is registered, the number of
    colours is not negative, the domain is not reversed and the colormap
    can be encoded. *)
Lemma initialize_succeeds (s : ColorMap) :
  registered (cmap_name s) = true ->
  0 <= number_colors s ->
  (max_value s <? min_value s)%float = false ->
  roundable (cmap_name s) ->
  exists s', initialize s = (Ok tt, s').
Proof.
  intros R Hn Hd Rd. rewrite (initialize_registered s R).
  destruct (linspace_ok (min_value s) (max_value s) _ Hn) as [vals ->].
  destruct (getter_of (array_type s)) as [get|] eqn:G.
  - pose proof (for_each_append get vals (set_colormap_array [] (prepared s)) G) as F.
    destruct (collect_ok (get (set_colormap_array [] (prepared s))) vals) as [cols Hc].
    { intros v _. now apply (getter_ok _ _ _ v G). }
    rewrite Hc in F. rewrite F. eauto.
  - rewrite for_each_no_getter by exact G. eauto.
Qed.

(** The table has [number_colors] entries whenever [array_type] is one
    of the four encodings. *)
Lemma initialize_length (s s' : ColorMap) get :
  initialize s = (Ok tt, s') ->
  getter_of (array_type s) = Some get ->
  List.length (colormap_array s') = Z.to_nat (number_colors s).
Proof.
  intros H G. destruct (initialize_ok_inv s s' H) as (_ & vals & cols & Hv & -> & Hc).
  rewrite G in Hc. cbn [colormap_array set_colormap_array].
  rewrite (collect_length _ _ _ Hc). now apply linspace_length in Hv.
Qed.

Lemma init_ok_inv (a b : float) (name : string) (n : Z) (ar : string) (cm : ColorMap) :
  init a b name n ar = Ok cm -> initialize (fresh a b name n ar) = (Ok tt, cm).
Proof.
  unfold init. destruct (initialize _) as [[[]|e] s]; [|discriminate].
  now intros [= <-].
Qed.

(** A palette of the encoding [rgb_u8] that has just been rebuilt. *)
Lemma rebuilt_table (s s' : ColorMap) :
  initialize s = (Ok tt, s') ->
  array_type s = "rgb_u8"%string ->
  0 <= number_colors s ->
  number_colors s' = number_colors s /\
  array_type s' = "rgb_u8"%string /\
  Z.of_nat (List.length (colormap_array s')) = number_colors s.
Proof.
  intros H Ha Hn.
  pose proof (initialize_keeps s) as K. rewrite H in K. cbn [snd] in K.
  destruct K as (_ & _ & _ & _ & _ & Kn & Ka).
  assert (G : getter_of (array_type s) = Some get_rgb_u8) by now rewrite Ha.
  rewrite (initialize_length s s' _ H G). repeat split; [congruence|congruence|lia].
Qed.

End Table.

Lemma demo_roundable (name : string) : roundable (mpl := Demo.backend) name.
Proof.
  intros t. cbn [lut Demo.backend]. unfold Demo.two_tone.
  destruct (is_nan t); [|destruct (t <? 0.5)%float]; repeat split.
Qed.

(* ================================================================== *)
(** * The 8-bit encodings *)
(* ================================================================== *)

(** C9. For every scalar, [get_rgb_u8] and [get_rgba_u8] return for red,
    green and blue the integer nearest to 255 times the colormap's
    channel (half-way cases to the even integer: rounding, not
    truncation), and [get_rgba_u8] passes the alpha channel on as the
    binary64 it is. *)
Theorem u8_channels_are_rounded {mpl : Backend} (self : ColorMap) (val : float) (c : RGBA) :
  to_rgba (scalarMap self) val = Ok c ->
  is_finite (255 * red c) = true ->
  is_finite (255 * green c) = true ->
  is_finite (255 * blue c) = true ->
  exists r g b : Z,
    py_round (255 * red c) = Ok r /\ nearest_even (255 * red c) r /\
    py_round (255 * green c) = Ok g /\ nearest_even (255 * green c) g /\
    py_round (255 * blue c) = Ok b /\ nearest_even (255 * blue c) b /\
    get_rgb_u8 self val = Ok (Tuple3 (PyInt r) (PyInt g) (PyInt b)) /\
    get_rgba_u8 self val = Ok (Tuple4 (PyInt r) (PyInt g) (PyInt b) (PyFloat (alpha c))).
Proof.
  intros Hc Fr Fg Fb.
  destruct (py_round_finite _ Fr) as (r & Er & Nr).
  destruct (py_round_finite _ Fg) as (g & Eg & Ng).
  destruct (py_round_finite _ Fb) as (b & Eb & Nb).
  exists r, g, b. unfold get_rgb_u8, get_rgba_u8.
  rewrite Hc. cbn [Py.bind]. rewrite Er, Eg, Eb. cbn [Py.bind]. tauto.
Qed.

Lemma u8_channels_are_rounded_witness :
  exists (cm : ColorMap) (c : RGBA),
    init_default (mpl := Demo.backend) 0 255 "viridis" = Ok cm /\
    c = mkRGBA 0.25 0 0.5 1 /\
    exists r g b : Z,
      py_round (255 * red c) = Ok r /\ nearest_even (255 * red c) r /\
      py_round (255 * green c) = Ok g /\ nearest_even (255 * green c) g /\
      py_round (255 * blue c) = Ok b /\ nearest_even (255 * blue c) b /\
      get_rgb_u8 (mpl := Demo.backend) cm 100
        = Ok (Tuple3 (PyInt r) (PyInt g) (PyInt b)) /\
      get_rgba_u8 (mpl := Demo.backend) cm 100
        = Ok (Tuple4 (PyInt r) (PyInt g) (PyInt b) (PyFloat (alpha c))).
Proof.
  eexists. eexists.
  split; [vm_compute; reflexivity|].
  split; [reflexivity|].
  apply (u8_channels_are_rounded (mpl := Demo.backend)); vm_compute; reflexivity.
Defined.

(** 255 times 0.25 is 63.75 and is stored as 64; 255 times 0.5 is 127.5
    and is stored as 128. *)
Example rounding_is_not_truncation :
  py_round (255 * 0.25) = Ok 64 /\ py_round (255 * 0.5) = Ok 128.
Proof. split; vm_compute; reflexivity. Qed.

(* ================================================================== *)
(** * Table lookup *)
(* ================================================================== *)

(** C5, as the program has it.  [colormap_array[index]] is Python's list
    indexing: an index in [0, len) gives that entry, an index in
    [-len, 0) gives the entry [len + index] (so [-1] is the last
    colour), and [IndexError] is raised exactly for [index < -len] or
    [index >= len].  The length is [number_colors] after any [initialize]
    that succeeds with one of the four encodings. *)
Theorem table_lookup_index {mpl : Backend} (cm : ColorMap) (index : Z) :
  let table := colormap_array cm in
  let n := Z.of_nat (List.length table) in
  (0 <= index < n ->
   exists c, nth_error table (Z.to_nat index) = Some c /\ getitem table index = Ok c) /\
  (- n <= index < 0 ->
   exists c, nth_error table (Z.to_nat (n + index)) = Some c /\
             getitem table index = Ok c) /\
  (getitem table index = Raise IndexError <-> index < - n \/ n <= index) /\
  (forall s get, initialize s = (Ok tt, cm) -> getter_of (array_type s) = Some get ->
                 List.length table = Z.to_nat (number_colors cm)).
Proof.
  cbv zeta. repeat split.
  - apply getitem_nonneg.
  - apply getitem_negative.
  - intros H%getitem_raises. unfold valid_index in H. lia.
  - intros H. apply getitem_raises. unfold valid_index. lia.
  - intros s get Hi G. rewrite (initialize_length s cm get Hi G).
    destruct (initialize_ok_inv s cm Hi) as (_ & vals & cols & _ & -> & _).
    reflexivity.
Qed.

(** In the palette the program starts with, index [-1] is answered with
    the colour of index 255. *)
Lemma negative_index_returns_last_colour :
  exists (cm : ColorMap) (c : Color),
    init_default (mpl := Demo.backend) 0 255 "viridis" = Ok cm /\
    getitem (colormap_array cm) 255 = Ok c /\
    getitem (colormap_array cm) (-1) = Ok c.
Proof.
  eexists. eexists.
  split; [vm_compute; reflexivity|].
  split; vm_compute; reflexivity.
Qed.

(* ================================================================== *)
(** * The ends of the table *)
(* ================================================================== *)

Section Endpoints.
Context {mpl : Backend}.

(** X25. In a palette that [initialize] has built with one of the
    four encodings, with [min_value < max_value], a size within the
    range of the float conversion,
    at least two colours and a finite sample spacing
    [(max_value - min_value) / (number_colors - 1)], the first entry of
    the table is the colour the getter returns for [min_value] and the
    last entry is the colour it returns for [max_value], exactly. *)
Theorem table_endpoints (self0 self : ColorMap) (get : ColorMap -> float -> result Color) :
  initialize self0 = (Ok tt, self) ->
  getter_of (array_type self) = Some get ->
  (min_value self <? max_value self)%float = true ->
  2 <= number_colors self < 2 ^ 63 ->
  is_finite ((max_value self - min_value self) / Z2F (number_colors self - 1)) = true ->
  exists c0 c1 : Color,
    getitem (colormap_array self) 0 = Ok c0 /\
    get self (min_value self) = Ok c0 /\
    getitem (colormap_array self) (number_colors self - 1) = Ok c1 /\
    get self (max_value self) = Ok c1.
Proof.
  intros Hi G _ [Hn _] F.
  destruct (initialize_ok_inv _ _ Hi) as (_ & vals & cols & Hv & -> & Hc).
  cbn [array_type min_value max_value number_colors colormap_array
       set_colormap_array prepared set_scalarMap set_norm set_cmap] in *.
  rewrite G in Hc.
  set (p := prepared self0) in *.
  set (s := set_colormap_array cols p).
  assert (Hget : forall v, get s v = get p v)
    by (intros v; now apply (getter_reads_scalarMap _ _ s p v G)).
  destruct (collect_nth _ _ _ Hc _ _ (linspace_first _ _ _ _ Hn Hv)) as (c0 & Hc0 & Hg0).
  destruct (collect_nth _ _ _ Hc _ _ (linspace_last _ _ _ _ Hn Hv)) as (c1 & Hc1 & Hg1).
  exists c0, c1. repeat split.
  - exact (getitem_of_nat cols 0 c0 Hc0).
  - rewrite Hget, <- Hg0. apply (getter_to_rgba _ _ p _ _ G).
    unfold to_rgba. f_equal. apply normalize_offset. symmetry.
    exact (first_sample_offset _ _ _ F).
  - replace (number_colors self0 - 1) with (Z.of_nat (Z.to_nat (number_colors self0 - 1)))
      by lia.
    exact (getitem_of_nat cols _ c1 Hc1).
  - now rewrite Hget.
Qed.

End Endpoints.

Lemma table_endpoints_witness :
  exists cm : ColorMap,
    initialize (mpl := Demo.backend) (fresh (mpl := Demo.backend) 0 255 "viridis" 6 "rgba_u8")
      = (Ok tt, cm) /\
    exists c0 c1 : Color,
      getitem (colormap_array cm) 0 = Ok c0 /\
      get_rgba_u8 (mpl := Demo.backend) cm (min_value cm) = Ok c0 /\
      getitem (colormap_array cm) (number_colors cm - 1) = Ok c1 /\
      get_rgba_u8 (mpl := Demo.backend) cm (max_value cm) = Ok c1.
Proof.
  eexists. split; [vm_compute; reflexivity|].
  eapply (table_endpoints (mpl := Demo.backend)
            (fresh (mpl := Demo.backend) 0 255 "viridis" 6 "rgba_u8")).
  - vm_compute. reflexivity.
  - reflexivity.
  - vm_compute. reflexivity.
  - split; vm_compute; [discriminate|reflexivity].
  - vm_compute. reflexivity.
Defined.

(** C7.  The docstring promises that [colormap_array[0]] corresponds to
    [min_val], and the table is built to that end, but its first sample
    is computed as [0 * step + min_value], not taken as [min_value].
    With the domain running from -2^1023 to 2^1023 and three colours
    [max_value - min_value] overflows, the step is infinite and the
    first sample is [nan]: the palette is built without an error, with
    [min_value < max_value], and its first entry is the colour of [nan]
    while the getter returns another colour for [min_value]. *)
Lemma overflowing_domain_misses_first_colour :
  exists cm : ColorMap,
    init (mpl := Demo.backend) (-0x1p+1023) 0x1p+1023 "viridis" 3 "rgb_u8" = Ok cm /\
    (min_value cm <? max_value cm)%float = true /\
    number_colors cm = 3 /\
    getitem (colormap_array cm) 0 = Ok (Tuple3 (PyInt 0) (PyInt 0) (PyInt 0)) /\
    get_rgb_u8 (mpl := Demo.backend) cm (min_value cm)
      = Ok (Tuple3 (PyInt 64) (PyInt 0) (PyInt 128)).
Proof.
  eexists.
  split; [vm_compute; reflexivity|].
  split; [vm_compute; reflexivity|].
  split; [vm_compute; reflexivity|].
  split; vm_compute; reflexivity.
Qed.

(* ================================================================== *)
(** * Changing the gradient *)
(* ================================================================== *)

Section Gradient.
Context {mpl : Backend}.


End Gradient.



(* ================================================================== *)
(** * Cycling *)
(* ================================================================== *)

Section Cycling.
Context {mpl : Backend}.

Lemma cycle_colormap_target (self : ColorMap) :
  0 < Z.of_nat (List.length (names_to_cycle self)) ->
  cycle_colormap self = initialize (cycle_target self).
Proof.
  intros Hn. unfold cycle_colormap, cycle_target, mbind, modify, get, lift, ret.
  cbn [names_to_cycle set_current_cycle_number current_cycle_number].
  set (n := Z.of_nat (List.length (names_to_cycle self))) in *.
  destruct (Z.eqb_spec n 0) as [E|_]; [lia|].
  set (k := (current_cycle_number self + 1) mod n).
  assert (Hk : 0 <= k < n) by (apply Z.mod_pos_bound; lia).
  change (names_to_cycle (set_current_cycle_number (current_cycle_number self + 1) self))
    with (names_to_cycle self).
  change (set_current_cycle_number k
            (set_current_cycle_number (current_cycle_number self + 1) self))
    with (set_current_cycle_number k self).
  destruct (getitem_nonneg (names_to_cycle self) k Hk) as (name & Hname & ->).
  now rewrite (nth_error_nth _ _ ""%string Hname).
Qed.

Lemma cycle_colormap_ok_inv (s s' : ColorMap) :
  cycle_colormap s = (Ok tt, s') ->
  0 < Z.of_nat (List.length (names_to_cycle s)) /\
  initialize (cycle_target s) = (Ok tt, s').
Proof.
  intros H.
  destruct (names_to_cycle s) as [|name names] eqn:E.
  - unfold cycle_colormap, mbind, modify, get, lift, ret in H.
    cbn [names_to_cycle set_current_cycle_number] in H. rewrite E in H.
    cbn in H. discriminate H.
  - assert (Hn : 0 < Z.of_nat (List.length (names_to_cycle s)))
      by (rewrite E; cbn [List.length]; lia).
    rewrite <- E. split; [exact Hn|]. now rewrite <- (cycle_colormap_target s Hn).
Qed.

(** One call: the index moves on by one, wrapped at the end of the
    list, and the name is the one found there. *)
Lemma cycle_colormap_step (self : ColorMap) :
  let n := Z.of_nat (List.length (names_to_cycle self)) in
  let self' := snd (cycle_colormap self) in
  0 < n ->
  names_to_cycle self' = names_to_cycle self /\
  current_cycle_number self' = (current_cycle_number self + 1) mod n /\
  nth_error (names_to_cycle self) (Z.to_nat (current_cycle_number self')) = Some (cmap_name self').
Proof.
  cbv zeta. intros Hn. rewrite (cycle_colormap_target self Hn).
  destruct (initialize_keeps (cycle_target self)) as (Hl & Hc & Hm & _).
  rewrite Hl, Hc, Hm. unfold cycle_target.
  cbn [names_to_cycle current_cycle_number cmap_name set_cmap_name set_current_cycle_number].
  repeat split.
  apply nth_error_nth'.
  pose proof (Z.mod_pos_bound (current_cycle_number self + 1) _ Hn). lia.
Qed.

Lemma cycled_step (k : nat) (self : ColorMap) :
  let n := Z.of_nat (List.length (names_to_cycle self)) in
  0 < n ->
  names_to_cycle (cycled (S k) self) = names_to_cycle self /\
  current_cycle_number (cycled (S k) self)
    = (current_cycle_number self + Z.of_nat (S k)) mod n /\
  nth_error (names_to_cycle self) (Z.to_nat (current_cycle_number (cycled (S k) self)))
    = Some (cmap_name (cycled (S k) self)).
Proof.
  cbv zeta. intros Hn. induction k as [|k (IHl & IHc & IHm)].
  - unfold cycled; cbn [Nat.iter].
    destruct (cycle_colormap_step self Hn) as (Hl & Hc & Hm). auto.
  - change (cycled (S (S k)) self) with (snd (cycle_colormap (cycled (S k) self))).
    assert (Hn' : 0 < Z.of_nat (List.length (names_to_cycle (cycled (S k) self))))
      by now rewrite IHl.
    destruct (cycle_colormap_step _ Hn') as (Hl & Hc & Hm).
    rewrite IHl in Hl, Hc, Hm. rewrite IHc in Hc.
    repeat split; [exact Hl| |exact Hm].
    rewrite Hc, Z.add_mod_idemp_l by lia. f_equal. lia.
Qed.

(** C6, as the program has it.  With a non-empty cycle list,
    [cycle_colormap] sets the index to [(index + 1) mod N] and the name
    to the entry found there, and then is [initialize]: the end of the
    list raises nothing, and the call succeeds whenever the rebuild
    does.  After [N] calls the index is the starting index modulo [N]
    and the name is the entry of the list at that index; it is the
    starting name when the starting name was the entry at the starting
    index. *)
Theorem cycle_wraps (self : ColorMap) :
  let names := names_to_cycle self in
  let n := Z.of_nat (List.length names) in
  let N := List.length names in
  0 < n ->
  cycle_colormap self = initialize (cycle_target self) /\
  current_cycle_number (snd (cycle_colormap self))
    = (current_cycle_number self + 1) mod n /\
  nth_error names (Z.to_nat ((current_cycle_number self + 1) mod n))
    = Some (cmap_name (snd (cycle_colormap self))) /\
  (registered (cmap_name (cycle_target self)) = true ->
   0 <= number_colors self ->
   (max_value self <? min_value self)%float = false ->
   roundable (cmap_name (cycle_target self)) ->
   fst (cycle_colormap self) = Ok tt) /\
  current_cycle_number (cycled N self) = current_cycle_number self mod n /\
  nth_error names (Z.to_nat (current_cycle_number self mod n))
    = Some (cmap_name (cycled N self)) /\
  (0 <= current_cycle_number self < n ->
   nth_error names (Z.to_nat (current_cycle_number self)) = Some (cmap_name self) ->
   current_cycle_number (cycled N self) = current_cycle_number self /\
   cmap_name (cycled N self) = cmap_name self).
Proof.
  cbv zeta. intros Hn.
  destruct (cycle_colormap_step self Hn) as (_ & Hc1 & Hm1).
  assert (HN : exists k, List.length (names_to_cycle self) = S k)
    by (destruct (names_to_cycle self); cbn in *; [lia|eauto]).
  destruct HN as [k HN].
  destruct (cycled_step k self Hn) as (_ & HcN & HmN).
  rewrite <- HN in HcN, HmN.
  replace ((current_cycle_number self + Z.of_nat (List.length (names_to_cycle self)))
             mod Z.of_nat (List.length (names_to_cycle self)))
    with (current_cycle_number self mod Z.of_nat (List.length (names_to_cycle self)))
    in HcN
    by (rewrite <- (Z.mul_1_l (Z.of_nat _)) at 2; now rewrite Z.mod_add by lia).
  split; [exact (cycle_colormap_target self Hn)|].
  split; [exact Hc1|].
  split; [now rewrite <- Hc1|].
  split.
  { intros R Hnum Hd Rd. rewrite (cycle_colormap_target self Hn).
    destruct (initialize_succeeds (cycle_target self) R Hnum Hd Rd) as [s' ->].
    reflexivity. }
  split; [exact HcN|].
  split; [now rewrite <- HcN|].
  intros Hr Hname. rewrite Z.mod_small in HcN by lia.
  split; [exact HcN|]. rewrite HcN in HmN. congruence.
Qed.

End Cycling.

Lemma cycle_wraps_witness :
  exists cm : ColorMap,
    init (mpl := Demo.backend) 0 255 "viridis" 4 "rgb_u8" = Ok cm /\
    current_cycle_number (cycled (mpl := Demo.backend) (List.length (names_to_cycle cm)) cm)
      = current_cycle_number cm /\
    cmap_name (cycled (mpl := Demo.backend) (List.length (names_to_cycle cm)) cm)
      = cmap_name cm.
Proof.
  eexists. split; [vm_compute; reflexivity|].
  refine (proj2 (proj2 (proj2 (proj2 (proj2 (proj2
            (cycle_wraps (mpl := Demo.backend) _ _)))))) _ _).
  - vm_compute. reflexivity.
  - vm_compute. split; [discriminate|reflexivity].
  - vm_compute. reflexivity.
Defined.

(** A palette created as ['plasma'] starts at index 0 like any other;
    eleven successful calls later its name is ['viridis']. *)
Lemma cycle_forgets_initial_name :
  exists cm cm' : ColorMap,
    init_default (mpl := Demo.backend) 0 255 "plasma" = Ok cm /\
    List.length (names_to_cycle cm) = 11%nat /\
    cycle_times (mpl := Demo.backend) 11 cm = Ok cm' /\
    cm' = cycled (mpl := Demo.backend) 11 cm /\
    cmap_name cm = "plasma"%string /\
    cmap_name cm' = "viridis"%string.
Proof.
  eexists. eexists.
  split; [vm_compute; reflexivity|].
  split; [vm_compute; reflexivity|].
  split; [vm_compute; reflexivity|].
  split; [vm_compute; reflexivity|].
  split; vm_compute; reflexivity.
Qed.

(* ================================================================== *)
(** * The program: every count is a valid colour index *)
(* ================================================================== *)

Section Program.
Context {mpl : Backend}.

Lemma override_last_keeps (v : Color) (c c' : ColorMap) :
  override_last v c = Ok c' ->
  number_colors c' = number_colors c /\
  array_type c' = array_type c /\
  List.length (colormap_array c') = List.length (colormap_array c).
Proof.
  unfold override_last, setitem. destruct (_ && _); [|discriminate].
  cbn [Py.bind]. intros [= <-]. cbn. now rewrite replace_nth_length.
Qed.

Lemma startup_consistent (nx ny : Z) (g : Globals) :
  startup nx ny = Ok g -> consistent g.
Proof.
  unfold startup. destruct (_ =? _)%float; [discriminate|].
  destruct (Numpy.linspace _ _ nx) as [rv|]; [|discriminate].
  destruct (Numpy.linspace _ _ ny) as [iv|]; [|discriminate].
  cbn [Py.bind].
  destruct (init_default 0 255 "viridis") as [cm|] eqn:Ec; [|discriminate].
  cbn [Py.bind]. intros [= <-].
  apply init_ok_inv in Ec.
  destruct (rebuilt_table _ _ Ec eq_refl) as (Hn & Ha & Hl); [cbn; lia|].
  cbn [fresh number_colors] in Hn, Hl.
  unfold consistent; cbn. rewrite Hn. repeat split; auto; lia.
Qed.

Lemma handle_event_consistent (g g' : Globals) (e : event) :
  consistent g -> handle_event g e = Ok g' -> consistent g'.
Proof.
  intros (Hm & H1 & Ha & Hl & Hp) H.
  destruct e as [|pos|pos|k|]; cbn [handle_event] in H.
  - injection H as <-. now repeat split.
  - injection H as <-. now repeat split.
  - unfold mouse_button_up in H.
    destruct (getitem _ _) as [rmin|]; [|discriminate].
    destruct (getitem _ _) as [rmax|]; [|discriminate].
    destruct (getitem _ _) as [imax|]; [|discriminate]. cbn [Py.bind] in H.
    destruct (Numpy.linspace _ _ _) as [rv|]; [|discriminate].
    destruct (Numpy.linspace _ _ _) as [iv|]; [|discriminate].
    cbn [Py.bind] in H. injection H as <-. now repeat split.
  - destruct k; cbn [key_down] in H.
    + destruct (cycle_colormap (cmap g)) as [[[]|err] c] eqn:Ec; [|discriminate].
      apply cycle_colormap_ok_inv in Ec as [_ Ec].
      destruct (rebuilt_table _ _ Ec Ha) as (Kn & Ka & Kl);
        [cbn [cycle_target number_colors set_cmap_name set_current_cycle_number]; lia|].
      cbn [cycle_target number_colors set_cmap_name set_current_cycle_number] in Kn, Kl.
      destruct (set_black g).
      * destruct (override_last black c) as [c'|] eqn:Eo; [|discriminate].
        cbn [Py.bind] in H. injection H as <-.
        destruct (override_last_keeps _ _ _ Eo) as (On & Oa & Ol).
        unfold consistent; cbn. rewrite On, Oa, Ol. repeat split; auto; congruence.
      * injection H as <-. unfold consistent; cbn. repeat split; auto; congruence.
    + cbn [set_black with_set_black] in H.
      destruct (negb (set_black g)).
      * cbn [cmap with_set_black] in H.
        destruct (override_last black (cmap g)) as [c'|] eqn:Eo; [|discriminate].
        cbn [Py.bind] in H. injection H as <-.
        destruct (override_last_keeps _ _ _ Eo) as (On & Oa & Ol).
        unfold consistent; cbn. rewrite On, Oa, Ol. now repeat split.
      * cbn [cmap with_set_black] in H.
        destruct (get_rgb_u8 _ _) as [v|]; [|discriminate]. cbn [Py.bind] in H.
        destruct (override_last v (cmap g)) as [c'|] eqn:Eo; [|discriminate].
        cbn [Py.bind] in H. injection H as <-.
        destruct (override_last_keeps _ _ _ Eo) as (On & Oa & Ol).
        unfold consistent; cbn. rewrite On, Oa, Ol. now repeat split.
    + injection H as <-. now repeat split.
    + injection H as <-. now repeat split.
  - injection H as <-. now repeat split.
Qed.

Lemma reachable_consistent (nx ny : Z) (g : Globals) :
  reachable nx ny g -> consistent g.
Proof.
  induction 1 as [g H|g e g' _ IH H].
  - exact (startup_consistent nx ny g H).
  - exact (handle_event_consistent g g' e IH H).
Qed.

Lemma reachable_events (nx ny : Z) (es : list event) :
  forall g g', reachable nx ny g -> handle_events g es = Ok g' -> reachable nx ny g'.
Proof.
  induction es as [|e es IH]; intros g g' R; cbn [handle_events].
  - now intros [= <-].
  - destruct (handle_event g e) as [g1|] eqn:E; [|discriminate]. cbn [Py.bind].
    apply IH. exact (reach_event nx ny g e g1 R E).
Qed.

(** The pass succeeds in every consistent state. *)
Lemma render_consistent (g : Globals) :
  consistent g -> exists pixels, render g = Ok pixels.
Proof.
  intros (Hm & H1 & Ha & Hl & Hp). unfold render.
  apply collect_ok. intros i (ki & -> & Hi)%In_range.
  apply collect_ok. intros j (kj & -> & Hj)%In_range.
  destruct (nth_error (real_values g) ki) as [cx|] eqn:Ex;
    [|apply nth_error_None in Ex; lia].
  destruct (nth_error (imag_values g) kj) as [cy|] eqn:Ey;
    [|apply nth_error_None in Ey; lia].
  rewrite Hp, (calculate_mandelbrot_at _ _ _ _ _ _ _ Ex Ey). cbn [Py.bind].
  pose proof (escape_time_bounds (max_itr g) cx cy) as Hb.
  destruct (getitem_nonneg (colormap_array (cmap g)) (escape_time (max_itr g) cx cy))
    as (c & _ & ->); [lia|eauto].
Qed.

(** C10. In every state the program reaches, the cap [max_itr] is the
    palette's [number_colors] and the length of [colormap_array], every
    count stored in [px_arr] is at least 0 and below that length, and the
    colouring pass runs to its end without an exception. *)
Theorem render_index_in_range (nx ny : Z) (g : Globals) :
  reachable nx ny g ->
  max_itr g = number_colors (cmap g) /\
  Z.of_nat (List.length (colormap_array (cmap g))) = max_itr g /\
  (forall i j v, px_at (px_arr g) i j = Ok v ->
                 0 <= v < Z.of_nat (List.length (colormap_array (cmap g))) /\
                 exists c, getitem (colormap_array (cmap g)) v = Ok c) /\
  exists pixels, render g = Ok pixels.
Proof.
  intros R. pose proof (reachable_consistent nx ny g R) as C.
  pose proof C as (Hm & H1 & Ha & Hl & Hp).
  split; [exact Hm|]. split; [exact Hl|]. split.
  - intros i j v Hv. rewrite Hp in Hv.
    apply calculate_mandelbrot_entries in Hv; [|exact H1].
    split; [lia|].
    destruct (getitem_nonneg (colormap_array (cmap g)) v) as (c & _ & Hc); [lia|eauto].
  - exact (render_consistent g C).
Qed.

End Program.

Lemma render_index_in_range_witness :
  exists g0 g : Globals,
    startup (mpl := Demo.backend) 4 3 = Ok g0 /\
    handle_events (mpl := Demo.backend) g0
      [KEYDOWN K_b; MOUSEBUTTONDOWN (1, 0); MOUSEBUTTONUP (2, 1); KEYDOWN K_c] = Ok g /\
    max_itr g = number_colors (cmap g) /\
    Z.of_nat (List.length (colormap_array (cmap g))) = max_itr g /\
    (forall i j v, px_at (px_arr g) i j = Ok v ->
                   0 <= v < Z.of_nat (List.length (colormap_array (cmap g))) /\
                   exists c, getitem (colormap_array (cmap g)) v = Ok c) /\
    exists pixels, render g = Ok pixels.
Proof.
  eexists. eexists.
  split; [vm_compute; reflexivity|].
  split; [vm_compute; reflexivity|].
  apply (render_index_in_range (mpl := Demo.backend) 4 3).
  eapply (reachable_events (mpl := Demo.backend) 4 3
            [KEYDOWN K_b; MOUSEBUTTONDOWN (1, 0); MOUSEBUTTONUP (2, 1); KEYDOWN K_c]).
  - apply reach_start. vm_compute. reflexivity.
  - vm_compute. reflexivity.
Defined.

(* ================================================================== *)
(** * More on the escape-time loop *)
(* ================================================================== *)

Section Caps.
Variables (cx cy : float).

(** The guard without its cap. *)
Lemma loop_cond_cap (m m' : Z) (s : LoopState) :
  m <= m' -> loop_cond m s = true -> loop_cond m' s = true.
Proof.
  unfold loop_cond. intros Hm [Hi ->]%andb_prop. rewrite andb_true_r.
  apply Z.ltb_lt in Hi. apply Z.ltb_lt. lia.
Qed.

Lemma while_exec_cap_le (m m' : Z) (s a : LoopState) :
  m <= m' -> while_exec m cx cy s a ->
  forall b, while_exec m' cx cy s b -> itr a <= itr b.
Proof.
  intros Hm Ha. induction Ha as [s C|s a C _ IH]; intros b Hb.
  - apply (while_exec_itr _ _ _ _ _ Hb).
  - pose proof (loop_cond_cap m m' s Hm C) as C'.
    inversion Hb; subst; [congruence|]. now apply IH.
Qed.

Lemma while_exec_cap_eq (m m' : Z) (s a : LoopState) :
  m <= m' -> while_exec m cx cy s a -> itr a < m - 1 ->
  while_exec m' cx cy s a.
Proof.
  intros Hm Ha. induction Ha as [s C|s a C _ IH]; intros Hlt.
  - apply while_exit. unfold loop_cond in *.
    destruct (Z.ltb_spec (itr s) (m - 1)); [|lia].
    cbn [andb] in C. rewrite C. apply andb_false_r.
  - apply while_iter; [now apply (loop_cond_cap m m')|now apply IH].
Qed.

End Caps.

(** X1. Raising the cap never lowers a count, and a count that stayed
    below [max_itr - 1] (the point escaped) is the same under every
    larger cap. *)
Theorem escape_time_cap (m m' : Z) (cx cy : float) :
  m <= m' ->
  escape_time m cx cy <= escape_time m' cx cy /\
  (escape_time m cx cy < m - 1 -> escape_time m' cx cy = escape_time m cx cy).
Proof.
  intros Hm.
  pose proof (escape_time_exec m cx cy) as E.
  pose proof (escape_time_exec m' cx cy) as E'.
  split.
  - exact (while_exec_cap_le cx cy m m' _ _ Hm E _ E').
  - intros Hlt. unfold escape_time in *.
    now rewrite (while_exec_det _ _ _ _ _ _ E' (while_exec_cap_eq cx cy m m' _ _ Hm E Hlt)).
Qed.

Lemma escape_time_cap_witness :
  escape_time 50 1 1 <= escape_time 256 1 1 /\
  (escape_time 50 1 1 < 50 - 1 -> escape_time 256 1 1 = escape_time 50 1 1).
Proof. apply (escape_time_cap 50 256 1 1). lia. Defined.

(** A loop that enters its body goes on from the state the body leaves. *)
Lemma while_exec_step (m : Z) (cx cy : float) (s a : LoopState) :
  loop_cond m s = true -> while_exec m cx cy s a ->
  while_exec m cx cy (loop_body cx cy s) a.
Proof. intros C H. inversion H; subst; [congruence|assumption]. Qed.

(** Adding a sample to [0.0] changes at most the sign of a zero, which a
    square does not see. *)
Lemma zero_add_square (c : float) : ((0 + c) * (0 + c) = c * c)%float.
Proof.
  apply Prim2SF_inj. rewrite !mul_spec, add_spec.
  change (Prim2SF 0) with (S754_zero false).
  destruct (Prim2SF c) as [[|]|s| |s m e]; reflexivity.
Qed.

(** The state after the first pass. *)
Lemma first_pass (cx cy : float) :
  loop_body cx cy loop_init = mkLoop 1 (0 + cx) (0 + cy).
Proof. reflexivity. Qed.

(** X2. With a cap of at most 1 the loop is never entered and every
    count is 0.  With a larger cap the first pass always runs, so every
    count is at least 1; it is exactly 1 when [cx*cx + cy*cy <= 4] fails
    in binary64 (a point outside the disc of radius 2, or a [nan]
    sample), and at least 2 otherwise once the cap is 3 or more. *)
Theorem escape_time_first_pass (m : Z) (cx cy : float) :
  (m <= 1 -> escape_time m cx cy = 0) /\
  (2 <= m -> 1 <= escape_time m cx cy) /\
  (2 <= m -> (cx * cx + cy * cy <=? 4)%float = false -> escape_time m cx cy = 1) /\
  (3 <= m -> (cx * cx + cy * cy <=? 4)%float = true -> 2 <= escape_time m cx cy).
Proof.
  pose proof (escape_time_exec m cx cy) as E. unfold escape_time.
  set (a := while_loop _ _ _ _ _) in *. clearbody a.
  assert (C0 : 2 <= m -> loop_cond m loop_init = true).
  { intros Hm. unfold loop_cond, loop_init; cbn [itr x y].
    destruct (Z.ltb_spec 0 (m - 1)); [reflexivity|lia]. }
  assert (C1 : loop_cond m (loop_body cx cy loop_init)
               = (1 <? m - 1) && (cx * cx + cy * cy <=? 4)%float).
  { rewrite first_pass. unfold loop_cond; cbn [itr x y].
    now rewrite !zero_add_square. }
  assert (E1 : 2 <= m -> while_exec m cx cy (loop_body cx cy loop_init) a).
  { intros Hm. exact (while_exec_step m cx cy _ _ (C0 Hm) E). }
  repeat split.
  - intros Hm. pose proof (while_exec_itr _ _ _ _ _ E) as H.
    cbn [loop_init itr] in H. lia.
  - intros Hm. pose proof (while_exec_itr _ _ _ _ _ (E1 Hm)) as H.
    cbn [loop_body loop_init itr] in H. lia.
  - intros Hm Hout.
    assert (X : while_exec m cx cy (loop_body cx cy loop_init) (loop_body cx cy loop_init)).
    { apply while_exit. now rewrite C1, Hout, andb_false_r. }
    now rewrite (while_exec_det _ _ _ _ _ _ (E1 Hm) X).
  - intros Hm Hin.
    assert (C : loop_cond m (loop_body cx cy loop_init) = true).
    { rewrite C1, Hin. destruct (Z.ltb_spec 1 (m - 1)); [reflexivity|lia]. }
    pose proof (while_exec_itr _ _ _ _ _
                  (while_exec_step m cx cy _ _ C (E1 ltac:(lia)))) as H.
    cbn [loop_body loop_init itr] in H. lia.
Qed.

(* ================================================================== *)
(** * The program: what the event loop keeps in step *)
(* ================================================================== *)

Lemma linspace_nonneg (start stop : float) (num : Z) (l : list float) :
  Numpy.linspace start stop num = Ok l -> 0 <= num.
Proof.
  unfold Numpy.linspace. destruct (Z.ltb_spec num 0); [discriminate|lia].
Qed.

Lemma collect_In {A B : Type} (f : A -> result B) (l : list A) (bs : list B) :
  collect f l = Ok bs -> forall b, In b bs -> exists a, In a l /\ f a = Ok b.
Proof.
  revert bs. induction l as [|h l IH]; intros bs; cbn [collect].
  - intros [= <-] b [].
  - destruct (f h) as [b0|] eqn:Eh; [|discriminate].
    destruct (collect f l) as [bs'|]; [|discriminate].
    intros [= <-] b [<-|Hb].
    + exists h. split; [now left|exact Eh].
    + destruct (IH bs' eq_refl b Hb) as (a & Ha & Hf). exists a. split; [now right|exact Hf].
Qed.

Lemma calculate_mandelbrot_shape (rv iv : list float) (m : Z) :
  has_shape (List.length rv) (List.length iv) (calculate_mandelbrot rv iv m).
Proof.
  unfold has_shape, calculate_mandelbrot. split; [apply length_map|].
  apply Forall_map, Forall_forall. intros cx _. apply length_map.
Qed.

Lemma range_length (n : nat) : List.length (range n) = n.
Proof. unfold range. now rewrite length_map, length_seq. Qed.

Lemma render_shape (g : Globals) (pixels : list (list Color)) :
  render g = Ok pixels ->
  has_shape (List.length (real_values g)) (List.length (imag_values g)) pixels.
Proof.
  unfold render, has_shape. intros H. split.
  - rewrite (collect_length _ _ _ H). apply range_length.
  - apply Forall_forall. intros col Hc.
    destruct (collect_In _ _ _ H col Hc) as (i & _ & Hi).
    rewrite (collect_length _ _ _ Hi). apply range_length.
Qed.

Section Sync.
Context {mpl : Backend}.

Lemma startup_in_sync (nx ny : Z) (g : Globals) :
  startup nx ny = Ok g -> num_x g = nx /\ num_y g = ny /\ in_sync g.
Proof.
  unfold startup. destruct (_ =? _)%float; [discriminate|].
  destruct (Numpy.linspace _ _ nx) as [rv|] eqn:Er; [|discriminate].
  destruct (Numpy.linspace _ _ ny) as [iv|] eqn:Ei; [|discriminate].
  cbn [Py.bind]. destruct (init_default 0 255 "viridis") as [cm|]; [|discriminate].
  cbn [Py.bind]. intros [= <-]. unfold in_sync; cbn. auto.
Qed.

Lemma handle_event_in_sync (g g' : Globals) (e : event) :
  handle_event g e = Ok g' -> in_sync g ->
  num_x g' = num_x g /\ num_y g' = num_y g /\ in_sync g'.
Proof.
  intros H S.
  destruct e as [|pos|pos|k|]; cbn [handle_event] in H.
  - injection H as <-. repeat split; apply S.
  - injection H as <-. repeat split; apply S.
  - clear S. unfold mouse_button_up in H.
    destruct (getitem _ _) as [rmin|]; [|discriminate].
    destruct (getitem _ _) as [rmax|]; [|discriminate].
    destruct (getitem _ _) as [imax|]; [|discriminate]. cbn [Py.bind] in H.
    revert H.
    destruct (Numpy.linspace rmin rmax (num_x g)) as [rv|] eqn:Er; [|discriminate].
    cbn [Py.bind].
    destruct (Numpy.linspace imax _ (num_y g)) as [iv|] eqn:Ei; [|discriminate].
    cbn [Py.bind]. intros [= <-]. unfold in_sync; cbn. auto.
  - destruct k; cbn [key_down] in H.
    + destruct (cycle_colormap (cmap g)) as [[[]|err] c]; [|discriminate].
      destruct (set_black g).
      * destruct (override_last black c) as [c'|]; [|discriminate].
        cbn [Py.bind] in H. injection H as <-. repeat split; apply S.
      * injection H as <-. repeat split; apply S.
    + cbn [set_black with_set_black cmap] in H.
      destruct (negb (set_black g)).
      * destruct (override_last black (cmap g)) as [c'|]; [|discriminate].
        cbn [Py.bind] in H. injection H as <-. repeat split; apply S.
      * destruct (get_rgb_u8 _ _) as [v|]; [|discriminate]. cbn [Py.bind] in H.
        destruct (override_last v (cmap g)) as [c'|]; [|discriminate].
        cbn [Py.bind] in H. injection H as <-. repeat split; apply S.
    + injection H as <-. repeat split; apply S.
    + injection H as <-. repeat split; apply S.
  - injection H as <-. repeat split; apply S.
Qed.

Lemma startup_width (nx ny : Z) (g : Globals) :
  startup nx ny = Ok g -> nx <> 0.
Proof.
  intros H ->. unfold startup in H.
  change (2 * Z2F 0 =? 0)%float with true in H. discriminate H.
Qed.

Lemma reachable_width (nx ny : Z) (g : Globals) :
  reachable nx ny g -> nx <> 0.
Proof.
  induction 1 as [g H|g e g' _ IH H]; [exact (startup_width nx ny g H)|exact IH].
Qed.

Lemma reachable_in_sync (nx ny : Z) (g : Globals) :
  reachable nx ny g -> num_x g = nx /\ num_y g = ny /\ in_sync g.
Proof.
  induction 1 as [g H|g e g' _ (Hx & Hy & S) H].
  - exact (startup_in_sync nx ny g H).
  - destruct (handle_event_in_sync g g' e H S) as (Hx' & Hy' & S').
    repeat split; [congruence|congruence|apply S'..].
Qed.

(** X3. In every state the program reaches, the window size is the one
    it started with, at least one pixel wide, the two sample arrays are
    the [linspace] of the stored bounds with [num_x] and [num_y]
    entries, [px_arr] is the matrix of exactly these samples, [num_x]
    columns of [num_y] counts, and a frame that is drawn has that shape
    too. *)
Theorem caches_stay_in_step (nx ny : Z) (g : Globals) :
  reachable nx ny g ->
  num_x g = nx /\ num_y g = ny /\ 1 <= nx /\ 0 <= ny /\
  Numpy.linspace (real_min g) (real_max g) nx = Ok (real_values g) /\
  Numpy.linspace (imag_max g) (imag_min g) ny = Ok (imag_values g) /\
  List.length (real_values g) = Z.to_nat nx /\
  List.length (imag_values g) = Z.to_nat ny /\
  px_arr g = calculate_mandelbrot (real_values g) (imag_values g) (max_itr g) /\
  has_shape (Z.to_nat nx) (Z.to_nat ny) (px_arr g) /\
  (forall pixels, render g = Ok pixels -> has_shape (Z.to_nat nx) (Z.to_nat ny) pixels).
Proof.
  intros R. destruct (reachable_in_sync nx ny g R) as (Hx & Hy & Sr & Si & Sp).
  rewrite Hx in Sr. rewrite Hy in Si.
  pose proof (linspace_length _ _ _ _ Sr) as Lr.
  pose proof (linspace_length _ _ _ _ Si) as Li.
  repeat split; auto.
  - pose proof (linspace_nonneg _ _ _ _ Sr). pose proof (reachable_width nx ny g R). lia.
  - exact (linspace_nonneg _ _ _ _ Si).
  - rewrite Sp. rewrite <- Lr. apply length_map.
  - rewrite Sp, <- Li. apply calculate_mandelbrot_shape.
  - rewrite <- Lr. now apply render_shape.
  - rewrite <- Li. now apply render_shape.
Qed.

End Sync.

Lemma caches_stay_in_step_witness :
  exists g0 g : Globals,
    startup (mpl := Demo.backend) 4 3 = Ok g0 /\
    handle_events (mpl := Demo.backend) g0
      [MOUSEBUTTONDOWN (0, 1); MOUSEBUTTONUP (2, 2); KEYDOWN K_c] = Ok g /\
    num_x g = 4 /\ num_y g = 3 /\ 1 <= 4 /\ 0 <= 3 /\
    Numpy.linspace (real_min g) (real_max g) 4 = Ok (real_values g) /\
    Numpy.linspace (imag_max g) (imag_min g) 3 = Ok (imag_values g) /\
    List.length (real_values g) = Z.to_nat 4 /\
    List.length (imag_values g) = Z.to_nat 3 /\
    px_arr g = calculate_mandelbrot (real_values g) (imag_values g) (max_itr g) /\
    has_shape (Z.to_nat 4) (Z.to_nat 3) (px_arr g) /\
    (forall pixels, render g = Ok pixels -> has_shape (Z.to_nat 4) (Z.to_nat 3) pixels).
Proof.
  eexists. eexists.
  split; [vm_compute; reflexivity|].
  split; [vm_compute; reflexivity|].
  apply (caches_stay_in_step (mpl := Demo.backend) 4 3).
  eapply (reachable_events (mpl := Demo.backend) 4 3
            [MOUSEBUTTONDOWN (0, 1); MOUSEBUTTONUP (2, 2); KEYDOWN K_c]).
  - apply reach_start. vm_compute. reflexivity.
  - vm_compute. reflexivity.
Defined.

(* ================================================================== *)
(** * The program: the black slot *)
(* ================================================================== *)

Lemma replace_nth_twice {A : Type} (n : nat) (a b : A) (l : list A) :
  replace_nth n a (replace_nth n b l) = replace_nth n a l.
Proof.
  revert n. induction l as [|h t IH]; intros [|n]; cbn; auto. now rewrite IH.
Qed.

Lemma replace_nth_id {A : Type} (n : nat) (a : A) (l : list A) :
  nth_error l n = Some a -> replace_nth n a l = l.
Proof.
  revert n. induction l as [|h t IH]; intros [|n]; cbn; try discriminate.
  - now intros [= ->].
  - intros H. now rewrite IH.
Qed.

Lemma override_last_eq (v : Color) (c : ColorMap) :
  1 <= number_colors c ->
  Z.of_nat (List.length (colormap_array c)) = number_colors c ->
  override_last v c =
  Ok (set_colormap_array
        (replace_nth (Z.to_nat (number_colors c - 1)) v (colormap_array c)) c).
Proof.
  intros H1 Hl. unfold override_last, setitem. rewrite Hl.
  destruct (Z.ltb_spec (number_colors c - 1) 0); [lia|].
  destruct (Z.leb_spec 0 (number_colors c - 1)); [|lia].
  destruct (Z.ltb_spec (number_colors c - 1) (number_colors c)); [|lia].
  reflexivity.
Qed.

Section BlackSlot.
Context {mpl : Backend}.

Lemma sampled_length (c : ColorMap) (cols : list Color) :
  sampled c cols -> List.length cols = Z.to_nat (number_colors c).
Proof.
  intros (vals & Hv & Hc).
  rewrite (collect_length _ _ _ Hc). exact (linspace_length _ _ _ _ Hv).
Qed.

Lemma sampled_last (c : ColorMap) (cols : list Color) :
  sampled c cols -> 2 <= number_colors c ->
  exists v, get_rgb_u8 c (max_value c) = Ok v /\
            nth_error cols (Z.to_nat (number_colors c - 1)) = Some v.
Proof.
  intros (vals & Hv & Hc) Hn.
  pose proof (linspace_last _ _ _ _ Hn Hv) as Hl.
  destruct (collect_nth _ _ _ Hc _ _ Hl) as (v & Hv' & Hg). eauto.
Qed.

Lemma sampled_frame (c c' : ColorMap) (cols : list Color) :
  scalarMap c' = scalarMap c -> min_value c' = min_value c ->
  max_value c' = max_value c -> number_colors c' = number_colors c ->
  sampled c cols -> sampled c' cols.
Proof.
  intros Hs Ha Hb Hn (vals & Hv & Hc). exists vals. rewrite Ha, Hb, Hn.
  split; [exact Hv|].
  now rewrite (collect_getter_ext "rgb_u8" get_rgb_u8 c' c vals eq_refl Hs).
Qed.

Lemma initialize_sampled (s s' : ColorMap) :
  initialize s = (Ok tt, s') -> array_type s = "rgb_u8"%string ->
  sampled s' (colormap_array s').
Proof.
  intros H Ha. destruct (initialize_ok_inv s s' H) as (_ & vals & cols & Hv & -> & Hc).
  rewrite Ha in Hc. change (getter_of "rgb_u8") with (Some get_rgb_u8) in Hc.
  exists vals. split; [exact Hv|]. cbn [colormap_array set_colormap_array].
  now rewrite (collect_getter_ext "rgb_u8" get_rgb_u8
                 (set_colormap_array cols (prepared s)) (prepared s) vals eq_refl eq_refl).
Qed.

Lemma startup_black_slot (nx ny : Z) (g : Globals) :
  startup nx ny = Ok g -> black_slot g.
Proof.
  unfold startup. destruct (_ =? _)%float; [discriminate|].
  destruct (Numpy.linspace _ _ nx) as [rv|]; [|discriminate].
  destruct (Numpy.linspace _ _ ny) as [iv|]; [|discriminate].
  cbn [Py.bind]. destruct (init_default 0 255 "viridis") as [cm|] eqn:Ec; [|discriminate].
  cbn [Py.bind]. intros [= <-]. apply init_ok_inv in Ec.
  pose proof (initialize_keeps (fresh 0 255 "viridis" 256 "rgb_u8")) as K.
  rewrite Ec in K. cbn [snd] in K. destruct K as (_ & _ & _ & _ & _ & Kn & Ka).
  unfold black_slot. cbn [cmap set_black]. repeat split; [exact Ka|exact Kn|].
  exists (colormap_array cm). split; [|reflexivity].
  exact (initialize_sampled _ _ Ec eq_refl).
Qed.

Lemma handle_event_black_slot (g g' : Globals) (e : event) :
  handle_event g e = Ok g' -> black_slot g -> black_slot g'.
Proof.
  intros H (Ha & Hn & cols & Hs & Ht).
  pose proof (sampled_length _ _ Hs) as Hl.
  destruct e as [|pos|pos|k|]; cbn [handle_event] in H.
  - injection H as <-. unfold black_slot. cbn. eauto.
  - injection H as <-. unfold black_slot. cbn. eauto.
  - unfold mouse_button_up in H.
    destruct (getitem _ _) as [rmin|]; [|discriminate].
    destruct (getitem _ _) as [rmax|]; [|discriminate].
    destruct (getitem _ _) as [imax|]; [|discriminate]. cbn [Py.bind] in H.
    destruct (Numpy.linspace rmin rmax (num_x g)) as [rv|]; [|discriminate].
    cbn [Py.bind] in H.
    destruct (Numpy.linspace imax _ (num_y g)) as [iv|]; [|discriminate].
    cbn [Py.bind] in H. injection H as <-. unfold black_slot. cbn. eauto.
  - destruct k; cbn [key_down] in H.
    + destruct (cycle_colormap (cmap g)) as [[[]|err] c] eqn:Ec; [|discriminate].
      apply cycle_colormap_ok_inv in Ec as [_ Ec].
      pose proof (initialize_keeps (cycle_target (cmap g))) as K.
      rewrite Ec in K. cbn [snd] in K. destruct K as (_ & _ & _ & _ & _ & Kn & Ka).
      cbn [cycle_target number_colors array_type set_cmap_name
           set_current_cycle_number] in Kn, Ka.
      pose proof (initialize_sampled _ _ Ec Ha) as Sc.
      pose proof (sampled_length _ _ Sc) as Lc.
      destruct (set_black g) eqn:Eb.
      * rewrite override_last_eq in H by lia.
        cbn [Py.bind] in H. injection H as <-.
        unfold black_slot. cbn [cmap with_cmap set_black array_type number_colors
                                set_colormap_array colormap_array].
        rewrite Eb. repeat split; [congruence|congruence|].
        exists (colormap_array c). split; [|reflexivity].
        now apply (sampled_frame c).
      * injection H as <-. unfold black_slot.
        cbn [cmap with_cmap set_black]. rewrite Eb.
        repeat split; [congruence|congruence|]. eauto.
    + cbn [set_black with_set_black] in H.
      assert (Hlen : Z.of_nat (List.length (colormap_array (cmap g)))
                     = number_colors (cmap g)).
      { rewrite Ht. destruct (set_black g); rewrite ?replace_nth_length; lia. }
      destruct (set_black g) eqn:Eb; cbn [negb] in H; cbn [cmap with_set_black] in H.
      * destruct (sampled_last _ _ Hs) as (v & Hv & Hlast); [lia|].
        rewrite Hv in H. cbn [Py.bind] in H.
        rewrite override_last_eq in H by lia.
        cbn [Py.bind] in H. injection H as <-.
        unfold black_slot. cbn [cmap with_cmap with_set_black set_black array_type
                                number_colors set_colormap_array colormap_array].
        repeat split; [exact Ha|exact Hn|].
        exists cols. split; [now apply (sampled_frame (cmap g))|].
        rewrite Ht, replace_nth_twice. now apply replace_nth_id.
      * rewrite override_last_eq in H by lia.
        cbn [Py.bind] in H. injection H as <-.
        unfold black_slot. cbn [cmap with_cmap with_set_black set_black array_type
                                number_colors set_colormap_array colormap_array].
        repeat split; [exact Ha|exact Hn|].
        exists cols. split; [now apply (sampled_frame (cmap g))|].
        now rewrite Ht.
    + injection H as <-. unfold black_slot. cbn. eauto.
    + injection H as <-. unfold black_slot. eauto.
  - injection H as <-. unfold black_slot. eauto.
Qed.

Lemma reachable_black_slot (nx ny : Z) (g : Globals) :
  reachable nx ny g -> black_slot g.
Proof.
  induction 1 as [g H|g e g' _ IH H].
  - exact (startup_black_slot nx ny g H).
  - exact (handle_event_black_slot g g' e H IH).
Qed.

(** X4. In every state the program reaches the palette has 256 entries:
    the colours sampled from the current gradient, except that the last
    entry, the one interior points are drawn with, is black exactly
    while [set_black] is on.  Cycling the gradient keeps the black
    entry, since the branch writes it again. *)
Theorem black_entry_follows_flag (nx ny : Z) (g : Globals) :
  reachable nx ny g ->
  exists cols,
    sampled (cmap g) cols /\
    List.length cols = 256%nat /\
    (set_black g = false -> colormap_array (cmap g) = cols) /\
    (set_black g = true ->
       getitem (colormap_array (cmap g)) 255 = Ok black /\
       forall i, 0 <= i < 255 ->
         getitem (colormap_array (cmap g)) i = getitem cols i).
Proof.
  intros R. destruct (reachable_black_slot nx ny g R) as (Ha & Hn & cols & Hs & Ht).
  pose proof (sampled_length _ _ Hs) as Hl. rewrite Hn in Hl, Ht.
  exists cols. split; [exact Hs|]. split; [exact Hl|]. split.
  - intros Eb. now rewrite Eb in Ht.
  - intros Eb. rewrite Eb in Ht. rewrite Ht.
    assert (L : List.length (replace_nth (Z.to_nat (256 - 1)) black cols) = 256%nat)
      by now rewrite replace_nth_length.
    split.
    + apply (getitem_of_nat _ 255). apply replace_nth_same. rewrite Hl. lia.
    + intros i Hi.
      destruct (getitem_nonneg (replace_nth (Z.to_nat (256 - 1)) black cols) i)
        as (a & Ea & ->); [rewrite L; lia|].
      destruct (getitem_nonneg cols i) as (b & Eb' & ->); [rewrite Hl; lia|].
      rewrite replace_nth_other in Ea by lia. congruence.
Qed.

Lemma key_down_b (g : Globals) (v : Color) :
  1 <= number_colors (cmap g) ->
  Z.of_nat (List.length (colormap_array (cmap g))) = number_colors (cmap g) ->
  get_rgb_u8 (cmap g) (max_value (cmap g)) = Ok v ->
  key_down g K_b =
  Ok (with_cmap
        (set_colormap_array
           (replace_nth (Z.to_nat (number_colors (cmap g) - 1))
              (if set_black g then v else black) (colormap_array (cmap g)))
           (cmap g))
        (with_set_black (negb (set_black g)) g)).
Proof.
  intros H1 Hl Hv. unfold key_down. cbn [set_black with_set_black cmap].
  destruct (set_black g); cbn [negb].
  - rewrite Hv. cbn [Py.bind]. now rewrite override_last_eq.
  - now rewrite override_last_eq.
Qed.

(** X5. Pressing [b] twice is a round trip: from every state the program
    reaches, the two key presses succeed and leave the state exactly as
    it was.  The colour written back when the flag goes off is the one
    the table held there, because the last sample of the table is
    [max_value] itself. *)
Theorem toggle_black_twice (nx ny : Z) (g : Globals) :
  reachable nx ny g ->
  handle_events g [KEYDOWN K_b; KEYDOWN K_b] = Ok g.
Proof.
  intros R. destruct (reachable_black_slot nx ny g R) as (Ha & Hn & cols & Hs & Ht).
  pose proof (sampled_length _ _ Hs) as Hl.
  destruct (sampled_last _ _ Hs) as (v & Hv & Hlast); [lia|].
  assert (Hlen : Z.of_nat (List.length (colormap_array (cmap g)))
                 = number_colors (cmap g)).
  { rewrite Ht. destruct (set_black g); rewrite ?replace_nth_length; lia. }
  cbn [handle_events handle_event].
  rewrite (key_down_b g v) by (lia || assumption). cbn [Py.bind].
  rewrite (key_down_b _ v).
  - cbn [Py.bind]. f_equal.
    cbn [cmap with_cmap with_set_black set_black number_colors colormap_array
         set_colormap_array].
    rewrite replace_nth_twice.
    assert (E : replace_nth (Z.to_nat (number_colors (cmap g) - 1))
                  (if negb (set_black g) then v else black) (colormap_array (cmap g))
                = colormap_array (cmap g)).
    { rewrite Ht. destruct (set_black g); cbn [negb].
      - now rewrite replace_nth_twice.
      - now apply replace_nth_id. }
    rewrite E, negb_involutive.
    destruct g as [nx' ny' rmin rmax imax imin rv iv c sb mi px dx dy ux uy rn].
    destruct c as [na nc ccn nm mn mx n arr ar cm nrm sm]. reflexivity.
  - cbn. lia.
  - cbn. rewrite replace_nth_length. exact Hlen.
  - cbn [cmap with_cmap with_set_black max_value set_colormap_array].
    rewrite <- Hv.
    exact (getter_reads_scalarMap "rgb_u8" get_rgb_u8 _ (cmap g) _ eq_refl eq_refl).
Qed.

End BlackSlot.

Lemma black_entry_follows_flag_witness :
  exists g0 g : Globals,
    startup (mpl := Demo.backend) 4 3 = Ok g0 /\
    handle_events (mpl := Demo.backend) g0 [KEYDOWN K_b; KEYDOWN K_c] = Ok g /\
    exists cols,
      sampled (mpl := Demo.backend) (cmap g) cols /\
      List.length cols = 256%nat /\
      (set_black g = false -> colormap_array (cmap g) = cols) /\
      (set_black g = true ->
         getitem (colormap_array (cmap g)) 255 = Ok black /\
         forall i, 0 <= i < 255 ->
           getitem (colormap_array (cmap g)) i = getitem cols i).
Proof.
  eexists. eexists.
  split; [vm_compute; reflexivity|].
  split; [vm_compute; reflexivity|].
  apply (black_entry_follows_flag (mpl := Demo.backend) 4 3).
  eapply (reachable_events (mpl := Demo.backend) 4 3 [KEYDOWN K_b; KEYDOWN K_c]).
  - apply reach_start. vm_compute. reflexivity.
  - vm_compute. reflexivity.
Defined.

Lemma toggle_black_twice_witness :
  exists g0 g : Globals,
    startup (mpl := Demo.backend) 4 3 = Ok g0 /\
    handle_events (mpl := Demo.backend) g0 [KEYDOWN K_c] = Ok g /\
    handle_events (mpl := Demo.backend) g [KEYDOWN K_b; KEYDOWN K_b] = Ok g.
Proof.
  eexists. eexists.
  split; [vm_compute; reflexivity|].
  split; [vm_compute; reflexivity|].
  apply (toggle_black_twice (mpl := Demo.backend) 4 3).
  eapply (reachable_events (mpl := Demo.backend) 4 3 [KEYDOWN K_c]).
  - apply reach_start. vm_compute. reflexivity.
  - vm_compute. reflexivity.
Defined.

(* ================================================================== *)
(** * The program: what each event touches *)
(* ================================================================== *)

Lemma getitem_cases {A : Type} (l : list A) (i : Z) :
  (valid_index l i /\ exists a, getitem l i = Ok a) \/
  (~ valid_index l i /\ getitem l i = Raise IndexError).
Proof.
  assert (D : valid_index l i \/ ~ valid_index l i) by (unfold valid_index; lia).
  destruct D as [V|N].
  - left. split; [exact V|exact (getitem_valid l i V)].
  - right. split; [exact N|]. now apply getitem_raises.
Qed.

Lemma mouse_button_up_cases (g : Globals) (pos : Z * Z) :
  0 <= num_x g -> 0 <= num_y g ->
  let inside :=
    valid_index (real_values g) (mouse_down_x g) /\
    valid_index (real_values g) (fst pos) /\
    valid_index (imag_values g) (mouse_down_y g) in
  (inside -> exists g', mouse_button_up g pos = Ok g') /\
  (forall e, mouse_button_up g pos = Raise e -> e = IndexError /\ ~ inside).
Proof.
  intros Hx Hy inside. subst inside. unfold mouse_button_up.
  destruct (getitem_cases (real_values g) (mouse_down_x g)) as [[V1 [rmin ->]]|[N1 ->]];
    [|split; [tauto|intros e [= <-]; tauto]].
  destruct (getitem_cases (real_values g) (fst pos)) as [[V2 [rmax ->]]|[N2 ->]];
    [|split; [tauto|intros e [= <-]; tauto]].
  destruct (getitem_cases (imag_values g) (mouse_down_y g)) as [[V3 [imax ->]]|[N3 ->]];
    [|split; [tauto|intros e [= <-]; tauto]].
  cbn [Py.bind].
  destruct (linspace_ok rmin rmax (num_x g) Hx) as [rv ->]. cbn [Py.bind].
  destruct (linspace_ok imax (zoom_imag_min (num_x g) (num_y g) rmin rmax imax)
              (num_y g) Hy) as [iv ->].
  cbn [Py.bind]. split; [eauto|discriminate].
Qed.

(** X6. A release zooms exactly when the click column, the click row and
    the release column are indices of the sample arrays (negative ones,
    counted from the end, included); otherwise it raises [IndexError],
    and it raises nothing else.  The release row plays no part. *)
Theorem zoom_raises_only_index_error (g : Globals) (pos : Z * Z) :
  0 <= num_x g -> 0 <= num_y g ->
  let inside :=
    valid_index (real_values g) (mouse_down_x g) /\
    valid_index (real_values g) (fst pos) /\
    valid_index (imag_values g) (mouse_down_y g) in
  (inside -> exists g', mouse_button_up g pos = Ok g') /\
  (forall e, mouse_button_up g pos = Raise e -> e = IndexError /\ ~ inside).
Proof.
  intros Hx Hy inside.
  destruct (mouse_button_up_cases g pos Hx Hy) as [Hok Hraise].
  split.
  - intros Hin. exact (Hok Hin).
  - intros e He. exact (Hraise e He).
Qed.

Lemma zoom_raises_only_index_error_witness :
  exists g : Globals,
    startup (mpl := Demo.backend) 4 3 = Ok g /\
    ((valid_index (real_values g) (mouse_down_x g) /\
      valid_index (real_values g) (fst (-1, 7)) /\
      valid_index (imag_values g) (mouse_down_y g) ->
      exists g', mouse_button_up g (-1, 7) = Ok g') /\
     (forall e, mouse_button_up g (-1, 7) = Raise e ->
        e = IndexError /\
        ~ (valid_index (real_values g) (mouse_down_x g) /\
           valid_index (real_values g) (fst (-1, 7)) /\
           valid_index (imag_values g) (mouse_down_y g)))).
Proof.
  eexists. split; [vm_compute; reflexivity|].
  refine (zoom_raises_only_index_error _ (-1, 7) _ _); vm_compute; discriminate.
Defined.

(** X7. The row of the release pixel is recorded and never used: two
    releases in the same column zoom to the same region, or fail alike. *)
Theorem zoom_ignores_release_row (g : Globals) (col row row' : Z) :
  match mouse_button_up g (col, row), mouse_button_up g (col, row') with
  | Ok a, Ok b =>
      same_view a b /\ same_colours a b /\
      mouse_up_x a = col /\ mouse_up_x b = col /\
      mouse_up_y a = row /\ mouse_up_y b = row'
  | Raise e, Raise e' => e = e'
  | _, _ => False
  end.
Proof.
  unfold mouse_button_up. cbn [fst snd].
  destruct (getitem (real_values g) (mouse_down_x g)) as [rmin|]; [|reflexivity].
  destruct (getitem (real_values g) col) as [rmax|]; [|reflexivity].
  destruct (getitem (imag_values g) (mouse_down_y g)) as [imax|]; [|reflexivity].
  cbn [Py.bind].
  destruct (Numpy.linspace rmin rmax (num_x g)) as [rv|]; [|reflexivity].
  cbn [Py.bind].
  destruct (Numpy.linspace imax _ (num_y g)) as [iv|]; [|reflexivity].
  cbn [Py.bind]. unfold same_view, same_colours. cbn. tauto.
Qed.

Section Footprint.
Context {mpl : Backend}.

Lemma key_down_keeps (g g' : Globals) (k : key) :
  key_down g k = Ok g' ->
  num_x g' = num_x g /\ num_y g' = num_y g /\ max_itr g' = max_itr g /\
  run g' = (match k with K_ESCAPE => false | _ => run g end) /\
  same_view g g' /\ same_drag g g'.
Proof.
  intros H. unfold same_view, same_drag.
  destruct k; cbn [key_down] in H.
  - destruct (cycle_colormap (cmap g)) as [[[]|err] c]; [|discriminate].
    destruct (set_black g).
    + destruct (override_last black c) as [c'|]; [|discriminate].
      cbn [Py.bind] in H. injection H as <-. cbn. tauto.
    + injection H as <-. cbn. tauto.
  - cbn [set_black with_set_black cmap] in H.
    destruct (negb (set_black g)).
    + destruct (override_last black (cmap g)) as [c'|]; [|discriminate].
      cbn [Py.bind] in H. injection H as <-. cbn. tauto.
    + destruct (get_rgb_u8 _ _) as [v|]; [|discriminate]. cbn [Py.bind] in H.
      destruct (override_last v (cmap g)) as [c'|]; [|discriminate].
      cbn [Py.bind] in H. injection H as <-. cbn. tauto.
  - injection H as <-. cbn. tauto.
  - injection H as <-. cbn. tauto.
Qed.

(** X8. What one event can change.  The window size and the iteration
    cap never change.  A key press leaves the region, its samples, the
    matrix and the pending drag alone: recolouring never recomputes.
    Every other event leaves the palette and the black flag alone.
    Pressing the button only records the pixel.  And [run], once off,
    stays off. *)
Theorem event_footprint (g g' : Globals) (e : event) :
  handle_event g e = Ok g' ->
  num_x g' = num_x g /\ num_y g' = num_y g /\ max_itr g' = max_itr g /\
  (run g = false -> run g' = false) /\
  (forall k, e = KEYDOWN k -> same_view g g' /\ same_drag g g') /\
  ((forall k, e <> KEYDOWN k) -> same_colours g g') /\
  (forall pos, e = MOUSEBUTTONDOWN pos ->
     same_view g g' /\ run g' = run g /\
     mouse_down_x g' = fst pos /\ mouse_down_y g' = snd pos /\
     mouse_up_x g' = mouse_up_x g /\ mouse_up_y g' = mouse_up_y g).
Proof.
  intros H.
  destruct e as [|pos|pos|k|]; cbn [handle_event] in H.
  - unfold same_view, same_colours, same_drag.
    injection H as <-. cbn. repeat split; auto; try discriminate.
  - unfold same_view, same_colours, same_drag.
    injection H as <-. cbn. repeat split; auto; try discriminate.
    all: congruence.
  - unfold same_view, same_colours, same_drag. unfold mouse_button_up in H.
    destruct (getitem _ _) as [rmin|]; [|discriminate].
    destruct (getitem _ _) as [rmax|]; [|discriminate].
    destruct (getitem _ _) as [imax|]; [|discriminate]. cbn [Py.bind] in H.
    destruct (Numpy.linspace rmin rmax (num_x g)) as [rv|]; [|discriminate].
    cbn [Py.bind] in H.
    destruct (Numpy.linspace imax _ (num_y g)) as [iv|]; [|discriminate].
    cbn [Py.bind] in H. injection H as <-. cbn.
    repeat split; auto; try discriminate.
  - destruct (key_down_keeps g g' k H) as (K1 & K2 & K3 & K4 & K5 & K6).
    split; [exact K1|]. split; [exact K2|]. split; [exact K3|]. split.
    { intros R. rewrite K4. now destruct k. }
    split; [intros k' _; split; assumption|]. split.
    { intros N. now destruct (N k). }
    intros pos [=].
  - unfold same_view, same_colours, same_drag.
    injection H as <-. repeat split; auto; try discriminate.
Qed.

End Footprint.

Lemma event_footprint_witness :
  exists g0 g : Globals,
    startup (mpl := Demo.backend) 4 3 = Ok g0 /\
    handle_event (mpl := Demo.backend) g0 (KEYDOWN K_c) = Ok g /\
    num_x g = num_x g0 /\ num_y g = num_y g0 /\ max_itr g = max_itr g0 /\
    (run g0 = false -> run g = false) /\
    (forall k, KEYDOWN K_c = KEYDOWN k -> same_view g0 g /\ same_drag g0 g) /\
    ((forall k, KEYDOWN K_c <> KEYDOWN k) -> same_colours g0 g) /\
    (forall pos, KEYDOWN K_c = MOUSEBUTTONDOWN pos ->
       same_view g0 g /\ run g = run g0 /\
       mouse_down_x g = fst pos /\ mouse_down_y g = snd pos /\
       mouse_up_x g = mouse_up_x g0 /\ mouse_up_y g = mouse_up_y g0).
Proof.
  eexists. eexists.
  split; [vm_compute; reflexivity|].
  split; [vm_compute; reflexivity|].
  refine (event_footprint (mpl := Demo.backend) _ _ (KEYDOWN K_c) _).
  vm_compute. reflexivity.
Defined.

(* ================================================================== *)
(** * From a pixel to its colour *)
(* ================================================================== *)

Lemma arange_nth (num : Z) (i : nat) :
  (i < Z.to_nat num)%nat ->
  nth_error (Numpy.arange num) i = Some (Z2F (Z.of_nat i)).
Proof.
  intros H. unfold Numpy.arange.
  rewrite nth_error_map, nth_error_seq.
  destruct (Nat.ltb_spec i (Z.to_nat num)); [reflexivity|lia].
Qed.

Lemma linspace_nth (start stop : float) (num : Z) (vals : list float) (i : nat) :
  Numpy.linspace start stop num = Ok vals -> (i < Z.to_nat num)%nat ->
  nth_error vals i = Some (grid_point start stop num (Z.of_nat i)).
Proof.
  intros H Hi. pose proof (linspace_length _ _ _ _ H) as Hl.
  unfold Numpy.linspace in H. destruct (Z.ltb_spec num 0); [lia|].
  injection H as <-. unfold grid_point.
  assert (Hm : forall f : float -> float,
             nth_error (map f (Numpy.arange num)) i = Some (f (Z2F (Z.of_nat i)))).
  { intros f. now rewrite nth_error_map, arange_nth. }
  destruct (Z.ltb_spec 1 num) as [H1|H1].
  - rewrite replace_nth_length in Hl. rewrite Hl.
    destruct (Z.eqb_spec (Z.of_nat i) (num - 1)) as [E|E]; cbn [andb].
    + replace (Z.to_nat num - 1)%nat with i by lia.
      apply replace_nth_same. lia.
    + rewrite replace_nth_other by lia.
      destruct (Z.ltb_spec 0 (num - 1)); [|lia].
      rewrite nth_error_map.
      destruct (_ =? 0)%float; now rewrite Hm.
  - cbn [andb]. destruct (Z.ltb_spec 0 (num - 1)); [lia|].
    rewrite nth_error_map. now rewrite Hm.
Qed.

Lemma range_nth (n i : nat) :
  (i < n)%nat -> nth_error (range n) i = Some (Z.of_nat i).
Proof.
  intros H. unfold range. rewrite nth_error_map, nth_error_seq.
  destruct (Nat.ltb_spec i n); [reflexivity|lia].
Qed.

Section PixelToColour.
Context {mpl : Backend}.

(** X9. From a pixel to its colour.  In every state the program reaches,
    pixel [(i, j)] of the window stands for the point whose coordinates
    are sample [i] between [real_min] and [real_max] and sample [j]
    between [imag_max] and [imag_min]; [px_arr] holds that point's
    count, and the frame that is drawn gives the pixel the table entry
    at that count. *)
Theorem pixel_to_colour (nx ny : Z) (g : Globals) (i j : nat) :
  reachable nx ny g -> (i < Z.to_nat nx)%nat -> (j < Z.to_nat ny)%nat ->
  let cx := grid_point (real_min g) (real_max g) nx (Z.of_nat i) in
  let cy := grid_point (imag_max g) (imag_min g) ny (Z.of_nat j) in
  let n := escape_time (max_itr g) cx cy in
  px_at (px_arr g) (Z.of_nat i) (Z.of_nat j) = Ok n /\
  exists pixels column colour,
    render g = Ok pixels /\
    nth_error pixels i = Some column /\
    nth_error column j = Some colour /\
    getitem (colormap_array (cmap g)) n = Ok colour.
Proof.
  intros R Hi Hj cx cy n.
  destruct (reachable_in_sync nx ny g R) as (Hx & Hy & Sr & Si & Sp).
  rewrite Hx in Sr. rewrite Hy in Si.
  pose proof (linspace_nth _ _ _ _ i Sr Hi) as Ex.
  pose proof (linspace_nth _ _ _ _ j Si Hj) as Ey.
  fold cx in Ex. fold cy in Ey.
  assert (P : px_at (px_arr g) (Z.of_nat i) (Z.of_nat j) = Ok n).
  { rewrite Sp. exact (calculate_mandelbrot_at _ _ _ i j cx cy Ex Ey). }
  split; [exact P|].
  destruct (render_consistent g (reachable_consistent nx ny g R)) as [pixels Hp].
  exists pixels. unfold render in Hp.
  rewrite (linspace_length _ _ _ _ Sr), (linspace_length _ _ _ _ Si) in Hp.
  destruct (collect_nth _ _ _ Hp i (Z.of_nat i) (range_nth _ _ Hi)) as (column & Ec & Hc).
  destruct (collect_nth _ _ _ Hc j (Z.of_nat j) (range_nth _ _ Hj)) as (colour & Ek & Hk).
  exists column, colour. rewrite P in Hk. cbn [Py.bind] in Hk.
  unfold render. rewrite (linspace_length _ _ _ _ Sr), (linspace_length _ _ _ _ Si).
  auto.
Qed.

End PixelToColour.

Lemma pixel_to_colour_witness :
  exists g0 g : Globals,
    startup (mpl := Demo.backend) 4 3 = Ok g0 /\
    handle_events (mpl := Demo.backend) g0
      [MOUSEBUTTONDOWN (0, 1); MOUSEBUTTONUP (2, 2)] = Ok g /\
    (px_at (px_arr g) (Z.of_nat 1) (Z.of_nat 2)
     = Ok (escape_time (max_itr g)
             (grid_point (real_min g) (real_max g) 4 (Z.of_nat 1))
             (grid_point (imag_max g) (imag_min g) 3 (Z.of_nat 2))) /\
     exists pixels column colour,
       render g = Ok pixels /\
       nth_error pixels 1 = Some column /\
       nth_error column 2 = Some colour /\
       getitem (colormap_array (cmap g))
         (escape_time (max_itr g)
            (grid_point (real_min g) (real_max g) 4 (Z.of_nat 1))
            (grid_point (imag_max g) (imag_min g) 3 (Z.of_nat 2))) = Ok colour).
Proof.
  eexists. eexists.
  split; [vm_compute; reflexivity|].
  split; [vm_compute; reflexivity|].
  refine (pixel_to_colour (mpl := Demo.backend) 4 3 _ 1 2 _ _ _).
  - eapply (reachable_events (mpl := Demo.backend) 4 3
              [MOUSEBUTTONDOWN (0, 1); MOUSEBUTTONUP (2, 2)]).
    + apply reach_start. vm_compute. reflexivity.
    + vm_compute. reflexivity.
  - vm_compute. lia.
  - vm_compute. lia.
Defined.

(* ================================================================== *)
(** * The palette: edge cases of the mutators *)
(* ================================================================== *)

Lemma SFcompare_lt_not_eq (a b : spec_float) :
  SFcompare b a = Some Lt -> SFcompare a b <> Some Eq.
Proof.
  destruct a as [sa|sa| |sa ma ea], b as [sb|sb| |sb mb eb]; cbn;
    repeat match goal with s : bool |- _ => destruct s end;
    cbn; try discriminate; try congruence.
  all: rewrite (Z.compare_antisym ea eb); destruct (ea ?= eb); cbn;
    try discriminate; try congruence.
  all: change (Pos.compare_cont Eq mb ma) with (Pos.compare mb ma);
    change (Pos.compare_cont Eq ma mb) with (Pos.compare ma mb);
    rewrite (Pos.compare_antisym ma mb);
    destruct (Pos.compare ma mb); cbn; try discriminate; congruence.
Qed.

Lemma ltb_not_eqb (a b : float) : (b <? a)%float = true -> (a =? b)%float = false.
Proof.
  rewrite ltb_spec, eqb_spec. unfold SFltb, SFeqb. intros H.
  destruct (SFcompare (Prim2SF b) (Prim2SF a)) as [[]|] eqn:E; try discriminate.
  pose proof (SFcompare_lt_not_eq _ _ E) as N.
  destruct (SFcompare (Prim2SF a) (Prim2SF b)) as [[]|]; congruence.
Qed.

Section Mutators.
Context {mpl : Backend}.


Lemma getter_of_none (ar : string) :
  ar <> "rgb_u8"%string -> ar <> "rgba_u8"%string ->
  ar <> "rgb_f"%string -> ar <> "rgba_f"%string -> getter_of ar = None.
Proof.
  intros H1 H2 H3 H4. unfold getter_of.
  now rewrite (proj2 (String.eqb_neq _ _) H1), (proj2 (String.eqb_neq _ _) H2),
    (proj2 (String.eqb_neq _ _) H3), (proj2 (String.eqb_neq _ _) H4).
Qed.

(** X10. An [array_type] that is none of the four names is accepted
    without complaint: the call returns, the name is stored, and the
    table is left empty whatever [number_colors] says, even for a
    domain that would make every getter raise. *)
Theorem unknown_array_type_empties_table (self : ColorMap) (ar : string) :
  ar <> "rgb_u8"%string -> ar <> "rgba_u8"%string ->
  ar <> "rgb_f"%string -> ar <> "rgba_f"%string ->
  registered (cmap_name self) = true -> 0 <= number_colors self ->
  exists self',
    set_array_type ar self = (Ok tt, self') /\
    array_type self' = ar /\ colormap_array self' = [] /\
    number_colors self' = number_colors self.
Proof.
  intros H1 H2 H3 H4 R Hn.
  change (set_array_type ar self) with (initialize (set_array_type_attr ar self)).
  rewrite initialize_registered by exact R.
  cbn [min_value max_value number_colors set_array_type_attr].
  destruct (linspace_ok (min_value self) (max_value self) (number_colors self) Hn)
    as [vals ->].
  rewrite for_each_no_getter by (cbn; now apply getter_of_none).
  eexists. split; [reflexivity|]. cbn. auto.
Qed.

(** X11. [set_number_colors]: a negative size is stored and then makes
    [linspace] raise, so the old table stays while [number_colors] no
    longer is its length; a size that is not negative gives a table of
    exactly that many entries (none for 0). *)
Theorem set_number_colors_outcome (self : ColorMap) (n : Z) :
  registered (cmap_name self) = true ->
  (n < 0 ->
   exists self',
     set_number_colors n self = (Raise ValueError, self') /\
     number_colors self' = n /\ colormap_array self' = colormap_array self) /\
  (0 <= n ->
   (max_value self <? min_value self)%float = false ->
   roundable (cmap_name self) ->
   forall get, getter_of (array_type self) = Some get ->
   exists self',
     set_number_colors n self = (Ok tt, self') /\
     number_colors self' = n /\
     List.length (colormap_array self') = Z.to_nat n).
Proof.
  intros R.
  change (set_number_colors n self) with (initialize (set_number_colors_attr n self)).
  split.
  - intros Hn. rewrite initialize_registered by exact R.
    cbn [min_value max_value number_colors set_number_colors_attr].
    unfold Numpy.linspace. destruct (Z.ltb_spec n 0); [|lia].
    eexists. split; [reflexivity|]. cbn. auto.
  - intros Hn D Q get G.
    destruct (initialize_succeeds (set_number_colors_attr n self)) as [self' E];
      try assumption.
    exists self'. split; [exact E|].
    pose proof (initialize_keeps (set_number_colors_attr n self)) as K.
    rewrite E in K. cbn [snd] in K. destruct K as (_ & _ & _ & _ & _ & Kn & _).
    split; [exact Kn|]. exact (initialize_length _ _ get E G).
Qed.


(** X13. Every entry of a table that [initialize] has built is the
    getter's colour at the [linspace] sample of the same index. *)
Theorem table_entry_is_sample (s self : ColorMap) get (i : Z) :
  initialize s = (Ok tt, self) ->
  getter_of (array_type self) = Some get ->
  0 <= i < number_colors self ->
  exists c,
    getitem (colormap_array self) i = Ok c /\
    get self (grid_point (min_value self) (max_value self) (number_colors self) i) = Ok c.
Proof.
  intros H G Hi.
  pose proof (initialize_keeps s) as K. rewrite H in K. cbn [snd] in K.
  destruct K as (_ & _ & _ & Ka & Kb & Kn & Kt).
  rewrite Ka, Kb, Kn in *. rewrite Kt in G.
  destruct (initialize_ok_inv s self H) as (_ & vals & cols & Hv & -> & Hc).
  rewrite G in Hc. cbn [colormap_array set_colormap_array].
  assert (Hi' : (Z.to_nat i < Z.to_nat (number_colors s))%nat) by lia.
  pose proof (linspace_nth _ _ _ _ _ Hv Hi') as Ev. rewrite Z2Nat.id in Ev by lia.
  destruct (collect_nth _ _ _ Hc _ _ Ev) as (c & Ec & Hg).
  exists c. split.
  - rewrite <- (Z2Nat.id i) by lia. now apply getitem_of_nat.
  - rewrite <- Hg.
    exact (getter_reads_scalarMap _ get (set_colormap_array cols (prepared s))
             (prepared s) _ G eq_refl).
Qed.

(** X14. The entries of a built table have the form the [array_type]
    names: three integers, three integers and a float, three floats, or
    four floats. *)
Theorem table_entries_have_the_type (s self : ColorMap) (c : Color) :
  initialize s = (Ok tt, self) -> In c (colormap_array self) ->
  (array_type self = "rgb_u8"%string ->
   exists r g b : Z, c = Tuple3 (PyInt r) (PyInt g) (PyInt b)) /\
  (array_type self = "rgba_u8"%string ->
   exists (r g b : Z) (a : float), c = Tuple4 (PyInt r) (PyInt g) (PyInt b) (PyFloat a)) /\
  (array_type self = "rgb_f"%string ->
   exists r g b : float, c = Tuple3 (PyFloat r) (PyFloat g) (PyFloat b)) /\
  (array_type self = "rgba_f"%string ->
   exists r g b a : float, c = Tuple4 (PyFloat r) (PyFloat g) (PyFloat b) (PyFloat a)).
Proof.
  intros H Hin.
  pose proof (initialize_keeps s) as K. rewrite H in K. cbn [snd] in K.
  destruct K as (_ & _ & _ & _ & _ & _ & Kt). rewrite Kt.
  destruct (initialize_ok_inv s self H) as (_ & vals & cols & _ & -> & Hc).
  cbn [colormap_array set_colormap_array] in Hin.
  assert (Sh : forall get, collect (get (prepared s)) vals = Ok cols ->
                 exists v, get (prepared s) v = Ok c).
  { intros get Hg. destruct (collect_In _ _ _ Hg c Hin) as (v & _ & Hv). eauto. }
  repeat split; intros E; rewrite E in Hc.
  - change (getter_of "rgb_u8") with (Some get_rgb_u8) in Hc.
    destruct (Sh _ Hc) as [v Hg]. unfold get_rgb_u8 in Hg.
    destruct (to_rgba _ v) as [rgba|]; [cbn [Py.bind] in Hg|discriminate].
    repeat (destruct (py_round _); [cbn [Py.bind] in Hg|discriminate]).
    injection Hg as <-. eauto.
  - change (getter_of "rgba_u8") with (Some get_rgba_u8) in Hc.
    destruct (Sh _ Hc) as [v Hg]. unfold get_rgba_u8 in Hg.
    destruct (to_rgba _ v) as [rgba|]; [cbn [Py.bind] in Hg|discriminate].
    repeat (destruct (py_round _); [cbn [Py.bind] in Hg|discriminate]).
    injection Hg as <-. eauto.
  - change (getter_of "rgb_f") with (Some get_rgb_f) in Hc.
    destruct (Sh _ Hc) as [v Hg]. unfold get_rgb_f in Hg.
    destruct (to_rgba _ v) as [rgba|]; [cbn [Py.bind] in Hg|discriminate].
    injection Hg as <-. eauto.
  - change (getter_of "rgba_f") with (Some get_rgba_f) in Hc.
    destruct (Sh _ Hc) as [v Hg]. unfold get_rgba_f in Hg.
    destruct (to_rgba _ v) as [rgba|]; [cbn [Py.bind] in Hg|discriminate].
    injection Hg as <-. eauto.
Qed.

(** X15. A flat domain ([min_value = max_value]) gives a table of one
    colour: every entry is the colour the colormap has at 0. *)
Theorem flat_domain_gives_one_colour (s self : ColorMap) get (c : Color) :
  initialize s = (Ok tt, self) ->
  getter_of (array_type self) = Some get ->
  (min_value self =? max_value self)%float = true ->
  In c (colormap_array self) ->
  forall v, get self v = Ok c.
Proof.
  intros H G D Hin v.
  pose proof (initialize_keeps s) as K. rewrite H in K. cbn [snd] in K.
  destruct K as (_ & _ & _ & Ka & Kb & _ & Kt). rewrite Ka, Kb in D. rewrite Kt in G.
  destruct (initialize_ok_inv s self H) as (_ & vals & cols & _ & -> & Hc).
  rewrite G in Hc. cbn [colormap_array set_colormap_array] in Hin.
  destruct (collect_In _ _ _ Hc c Hin) as (w & _ & Hg).
  rewrite <- Hg.
  rewrite (getter_reads_scalarMap _ get (set_colormap_array cols (prepared s))
             (prepared s) v G eq_refl).
  apply (getter_to_rgba _ get _ v w G).
  cbn. unfold to_rgba, normalize. cbn [sm_norm vmin vmax]. now rewrite D.
Qed.

(** X16. How [cycle_colormap] fails.  With an empty [names_to_cycle] it
    raises [ZeroDivisionError] after the index has been incremented.
    With a name at the next index that matplotlib does not know it
    raises [ValueError] after index and name have moved on, the old
    table still in place.  Whatever happens, the domain, the size, the
    encoding and the list of names are as before. *)
Theorem cycle_colormap_failures (self : ColorMap) :
  (names_to_cycle self = [] ->
   cycle_colormap self =
   (Raise ZeroDivisionError,
    set_current_cycle_number (current_cycle_number self + 1) self)) /\
  (names_to_cycle self <> [] ->
   registered (cmap_name (cycle_target self)) = false ->
   cycle_colormap self = (Raise ValueError, cycle_target self) /\
   colormap_array (snd (cycle_colormap self)) = colormap_array self) /\
  (let self' := snd (cycle_colormap self) in
   names_to_cycle self' = names_to_cycle self /\
   min_value self' = min_value self /\ max_value self' = max_value self /\
   number_colors self' = number_colors self /\ array_type self' = array_type self).
Proof.
  assert (E0 : names_to_cycle self = [] ->
               cycle_colormap self =
               (Raise ZeroDivisionError,
                set_current_cycle_number (current_cycle_number self + 1) self)).
  { intros E. unfold cycle_colormap, mbind, modify, get, lift, ret.
    cbn [names_to_cycle set_current_cycle_number]. now rewrite E. }
  assert (E1 : names_to_cycle self <> [] ->
               cycle_colormap self = initialize (cycle_target self)).
  { intros N. apply cycle_colormap_target.
    destruct (names_to_cycle self); [congruence|cbn [List.length]; lia]. }
  split; [exact E0|]. split.
  - intros N U. rewrite (E1 N), (initialize_unregistered _ U). split; reflexivity.
  - destruct (names_to_cycle self) as [|name names] eqn:E.
    + rewrite (E0 eq_refl). cbn. now rewrite E.
    + rewrite (E1 ltac:(discriminate)).
      pose proof (initialize_keeps (cycle_target self)) as K. cbv zeta in K |- *.
      destruct K as (K1 & _ & _ & K4 & K5 & K6 & K7).
      rewrite K1, K4, K5, K6, K7. cbn. now rewrite E.
Qed.

(** X17. The constructor.  An unknown name or a negative size raises
    [ValueError] and no object is made.  An object that is made holds
    the five arguments, the index 0 and the list of eleven names,
    whatever name was given: so its first [cycle_colormap] selects
    ['plasma'], the name at index 1. *)
Theorem constructor_outcome (a b : float) (name : string) (n : Z) (ar : string) :
  (registered name = false -> init a b name n ar = Raise ValueError) /\
  (n < 0 -> init a b name n ar = Raise ValueError) /\
  (forall cm, init a b name n ar = Ok cm ->
     registered name = true /\ 0 <= n /\
     names_all cm = colormaps /\ names_to_cycle cm = cycle_names /\
     current_cycle_number cm = 0 /\ cmap_name cm = name /\
     min_value cm = a /\ max_value cm = b /\
     number_colors cm = n /\ array_type cm = ar /\
     norm cm = mkNormalize a b /\
     scalarMap cm = mkScalarMappable (mkNormalize a b) name /\
     current_cycle_number (snd (cycle_colormap cm)) = 1 /\
     cmap_name (snd (cycle_colormap cm)) = "plasma"%string).
Proof.
  unfold init. split; [|split].
  - intros U. now rewrite (initialize_unregistered (fresh a b name n ar) U).
  - intros Hn. destruct (registered name) eqn:R.
    + rewrite (initialize_registered (fresh a b name n ar) R).
      cbn [fresh min_value max_value number_colors]. unfold Numpy.linspace.
      destruct (Z.ltb_spec n 0); [reflexivity|lia].
    + now rewrite (initialize_unregistered (fresh a b name n ar) R).
  - intros cm H.
    destruct (initialize (fresh a b name n ar)) as [[[]|e] cm'] eqn:E; [|discriminate].
    injection H as ->.
    destruct (initialize_ok_inv _ _ E) as (R & vals & cols & Hv & -> & _).
    cbn [fresh cmap_name min_value max_value number_colors] in R, Hv.
    pose proof (linspace_nonneg _ _ _ _ Hv) as Hn.
    set (cm := set_colormap_array cols (prepared (fresh a b name n ar))).
    assert (Nm : names_to_cycle cm = cycle_names) by reflexivity.
    assert (C0 : current_cycle_number cm = 0) by reflexivity.
    pose proof (cycle_colormap_step cm) as S. cbv zeta in S.
    rewrite Nm, C0 in S.
    destruct S as (_ & K & N); [vm_compute; reflexivity|].
    assert (K1 : current_cycle_number (snd (cycle_colormap cm)) = 1)
      by (rewrite K; vm_compute; reflexivity).
    rewrite K1 in N. cbn [cycle_names Z.to_nat Pos.to_nat Pos.iter_op nth_error] in N.
    injection N as N.
    repeat split; try assumption; try reflexivity. now symmetry.
Qed.

End Mutators.

Lemma unknown_array_type_empties_table_witness :
  exists cm : ColorMap,
    init (mpl := Demo.backend) 0 255 "viridis" 4 "rgb_u8" = Ok cm /\
    exists self',
      set_array_type (mpl := Demo.backend) "bgr" cm = (Ok tt, self') /\
      array_type self' = "bgr"%string /\ colormap_array self' = [] /\
      number_colors self' = number_colors cm.
Proof.
  eexists. split; [vm_compute; reflexivity|].
  apply (unknown_array_type_empties_table (mpl := Demo.backend));
    [discriminate | discriminate | discriminate | discriminate
    | vm_compute; reflexivity | vm_compute; discriminate].
Defined.

Lemma set_number_colors_outcome_witness :
  exists cm : ColorMap,
    init (mpl := Demo.backend) 0 255 "viridis" 4 "rgb_u8" = Ok cm /\
    (-3 < 0 ->
     exists self',
       set_number_colors (mpl := Demo.backend) (-3) cm = (Raise ValueError, self') /\
       number_colors self' = -3 /\ colormap_array self' = colormap_array cm) /\
    (0 <= -3 ->
     (max_value cm <? min_value cm)%float = false ->
     roundable (mpl := Demo.backend) (cmap_name cm) ->
     forall get, getter_of (mpl := Demo.backend) (array_type cm) = Some get ->
     exists self',
       set_number_colors (mpl := Demo.backend) (-3) cm = (Ok tt, self') /\
       number_colors self' = -3 /\
       List.length (colormap_array self') = Z.to_nat (-3)).
Proof.
  eexists. split; [vm_compute; reflexivity|].
  apply (set_number_colors_outcome (mpl := Demo.backend)).
  vm_compute. reflexivity.
Defined.


Lemma table_entry_is_sample_witness :
  exists cm : ColorMap,
    initialize (mpl := Demo.backend) (fresh (mpl := Demo.backend) 0 255 "viridis" 6 "rgba_u8")
      = (Ok tt, cm) /\
    exists c,
      getitem (colormap_array cm) 3 = Ok c /\
      get_rgba_u8 (mpl := Demo.backend) cm
        (grid_point (min_value cm) (max_value cm) (number_colors cm) 3) = Ok c.
Proof.
  eexists. split; [vm_compute; reflexivity|].
  eapply (table_entry_is_sample (mpl := Demo.backend)
            (fresh (mpl := Demo.backend) 0 255 "viridis" 6 "rgba_u8")).
  - vm_compute. reflexivity.
  - reflexivity.
  - vm_compute. split; [discriminate|reflexivity].
Defined.

Lemma table_entries_have_the_type_witness :
  exists (cm : ColorMap) (c : Color),
    initialize (mpl := Demo.backend) (fresh (mpl := Demo.backend) 0 255 "viridis" 3 "rgba_u8")
      = (Ok tt, cm) /\
    In c (colormap_array cm) /\
    (array_type cm = "rgb_u8"%string ->
     exists r g b : Z, c = Tuple3 (PyInt r) (PyInt g) (PyInt b)) /\
    (array_type cm = "rgba_u8"%string ->
     exists (r g b : Z) (a : float), c = Tuple4 (PyInt r) (PyInt g) (PyInt b) (PyFloat a)) /\
    (array_type cm = "rgb_f"%string ->
     exists r g b : float, c = Tuple3 (PyFloat r) (PyFloat g) (PyFloat b)) /\
    (array_type cm = "rgba_f"%string ->
     exists r g b a : float, c = Tuple4 (PyFloat r) (PyFloat g) (PyFloat b) (PyFloat a)).
Proof.
  eexists. eexists. split; [vm_compute; reflexivity|].
  split; [left; reflexivity|].
  apply (table_entries_have_the_type (mpl := Demo.backend)
           (fresh (mpl := Demo.backend) 0 255 "viridis" 3 "rgba_u8")).
  - vm_compute. reflexivity.
  - left. reflexivity.
Defined.

Lemma flat_domain_gives_one_colour_witness :
  exists (cm : ColorMap) (c : Color),
    initialize (mpl := Demo.backend) (fresh (mpl := Demo.backend) 7 7 "viridis" 3 "rgb_f")
      = (Ok tt, cm) /\
    In c (colormap_array cm) /\
    forall v, get_rgb_f (mpl := Demo.backend) cm v = Ok c.
Proof.
  eexists. eexists. split; [vm_compute; reflexivity|].
  split; [left; reflexivity|].
  apply (flat_domain_gives_one_colour (mpl := Demo.backend)
           (fresh (mpl := Demo.backend) 7 7 "viridis" 3 "rgb_f")).
  - vm_compute. reflexivity.
  - reflexivity.
  - vm_compute. reflexivity.
  - left. reflexivity.
Defined.

(* ================================================================== *)
(** * The 8-bit encodings stay in [0, 255] *)
(* ================================================================== *)

Lemma shr_1_m (r : shr_record) : 0 <= shr_m r -> shr_m (shr_1 r) = shr_m r / 2.
Proof.
  destruct r as [m rb sb]. cbn [shr_m]. intros H.
  destruct m as [|[p|p|]|p]; cbn [shr_1 shr_m]; try lia; try reflexivity.
  - apply Z.div_unique with 1; lia.
  - apply Z.div_unique with 0; lia.
Qed.

Lemma iter_pos_shr_1_m (p : positive) :
  forall r, 0 <= shr_m r ->
            shr_m (iter_pos shr_1 p r) = shr_m r / 2 ^ Zpos p.
Proof.
  induction p as [p IH|p IH|]; intros r H; cbn [iter_pos].
  - assert (H1 : 0 <= shr_m (shr_1 r)) by (rewrite shr_1_m by exact H; apply Z.div_pos; lia).
    assert (H2 : 0 <= shr_m (iter_pos shr_1 p (shr_1 r)))
      by (rewrite IH by exact H1; apply Z.div_pos; lia).
    rewrite IH by exact H2. rewrite IH by exact H1. rewrite shr_1_m by exact H.
    rewrite !Z.div_div by lia. f_equal.
    replace (Z.pos p~1) with (1 + Z.pos p + Z.pos p) by lia.
    rewrite !Z.pow_add_r by lia. change (2 ^ 1) with 2. ring.
  - assert (H2 : 0 <= shr_m (iter_pos shr_1 p r))
      by (rewrite IH by exact H; apply Z.div_pos; lia).
    rewrite IH by exact H2. rewrite IH by exact H.
    rewrite !Z.div_div by lia. f_equal.
    replace (Z.pos p~0) with (Z.pos p + Z.pos p) by lia.
    rewrite Z.pow_add_r by lia. reflexivity.
  - rewrite shr_1_m by exact H. reflexivity.
Qed.

Lemma shr_m_div (r : shr_record) (e n : Z) :
  0 <= shr_m r ->
  snd (shr r e n) = e + Z.max n 0 /\
  shr_m (fst (shr r e n)) = shr_m r / 2 ^ Z.max n 0.
Proof.
  intros H. destruct n as [|p|p]; cbn [shr fst snd].
  - rewrite Z.max_id. cbn. rewrite Z.div_1_r. lia.
  - rewrite Z.max_l by lia. split; [reflexivity|]. now apply iter_pos_shr_1_m.
  - rewrite Z.max_r by lia. cbn. rewrite Z.div_1_r. lia.
Qed.

Lemma digits2_pos_le (m : positive) :
  forall k, Zpos m < 2 ^ k -> 0 <= k -> Zpos (digits2_pos m) <= k.
Proof.
  induction m as [m IH|m IH|]; intros k H Hk; cbn [digits2_pos].
  - assert (k <> 0) by (intros ->; cbn in H; lia).
    replace k with (Z.succ (k - 1)) in H by lia. rewrite Z.pow_succ_r in H by lia.
    specialize (IH (k - 1)). lia.
  - assert (k <> 0) by (intros ->; cbn in H; lia).
    replace k with (Z.succ (k - 1)) in H by lia. rewrite Z.pow_succ_r in H by lia.
    specialize (IH (k - 1)). lia.
  - assert (k <> 0) by (intros ->; cbn in H; lia). lia.
Qed.

Lemma digits2_pos_lt (m : positive) : Zpos m < 2 ^ Zpos (digits2_pos m).
Proof.
  induction m as [m IH|m IH|]; cbn [digits2_pos];
    rewrite ?Pos2Z.inj_succ, ?Z.pow_succ_r by lia; lia.
Qed.

Lemma Zdigits2_le (m k : Z) : 0 <= m < 2 ^ k -> 0 <= k -> Zdigits2 m <= k.
Proof.
  intros [H0 H] Hk. destruct m as [|p|p]; cbn [Zdigits2]; [lia| |lia].
  now apply digits2_pos_le.
Qed.

(** One normalisation step keeps a mantissa below [255 * 2^(-e)], up to
    the carry [d] of the rounding before it. *)
Lemma shr_fexp_le (m e d : Z) (l : location) :
  0 <= m -> e <= -45 -> 0 <= d <= 1 -> m <= 255 * 2 ^ (- e) + d ->
  let r := fst (shr_fexp prec emax m e l) in
  let e' := snd (shr_fexp prec emax m e l) in
  e <= e' <= -45 /\ 0 <= shr_m r /\ shr_m r <= 255 * 2 ^ (- e') + d.
Proof.
  intros H0 He Hd Hm. cbv zeta. unfold shr_fexp.
  set (n := SpecFloat.fexp prec emax (Zdigits2 m + e) - e).
  assert (Hr : shr_m (shr_record_of_loc m l) = m) by (destruct l as [|[]]; reflexivity).
  destruct (shr_m_div (shr_record_of_loc m l) e n) as [-> ->]; [rewrite Hr; exact H0|].
  rewrite Hr.
  assert (P : 2 <= 2 ^ (- e)).
  { change 2 with (2 ^ 1) at 1. apply Z.pow_le_mono_r; lia. }
  assert (D : Zdigits2 m <= 8 - e).
  { apply Zdigits2_le; [|lia]. split; [exact H0|].
    replace (8 - e) with (8 + - e) by lia. rewrite Z.pow_add_r by lia.
    change (2 ^ 8) with 256. lia. }
  assert (N : e + Z.max n 0 <= -45).
  { subst n. unfold SpecFloat.fexp, emin, prec, emax in *. lia. }
  set (k := Z.max n 0) in *. assert (Hk : 0 <= k) by (subst k; lia).
  split; [lia|]. split; [apply Z.div_pos; lia|].
  assert (E : 2 ^ (- e) = 2 ^ (- (e + k)) * 2 ^ k).
  { rewrite <- Z.pow_add_r by lia. f_equal. lia. }
  assert (Pk : 0 < 2 ^ k) by (apply Z.pow_pos_nonneg; lia).
  apply Z.le_trans with ((255 * 2 ^ (- (e + k)) * 2 ^ k + d) / 2 ^ k).
  - apply Z.div_le_mono; [exact Pk|]. rewrite E in Hm. lia.
  - rewrite Z.div_add_l by lia.
    assert (d / 2 ^ k <= d); [|lia].
    apply Z.div_le_upper_bound; [exact Pk|]. nia.
Qed.

Lemma round_nearest_even_le (m : Z) (l : location) :
  m <= round_nearest_even m l <= m + 1.
Proof.
  destruct l as [|[]]; cbn [round_nearest_even]; try lia.
  destruct (Z.even m); lia.
Qed.

(** A positive product of at most 255 rounds to zero or to a positive
    binary64 that is at most one unit of its last place above 255. *)
Lemma binary_round_aux_le (M ez : Z) :
  0 < M -> ez <= -45 -> M <= 255 * 2 ^ (- ez) ->
  binary_round_aux prec emax false M ez loc_Exact = S754_zero false \/
  exists m e,
    binary_round_aux prec emax false M ez loc_Exact = S754_finite false m e /\
    e <= -45 /\ Zpos m <= 255 * 2 ^ (- e) + 1.
Proof.
  intros HM He Hb. unfold binary_round_aux.
  pose proof (shr_fexp_le M ez 0 loc_Exact) as A. cbv zeta in A.
  destruct (shr_fexp prec emax M ez loc_Exact) as [r1 e1]. cbn [fst snd] in A.
  destruct A as (A1 & A2 & A3); try lia.
  pose proof (round_nearest_even_le (shr_m r1) (loc_of_shr_record r1)) as B.
  set (m2 := round_nearest_even (shr_m r1) (loc_of_shr_record r1)) in *.
  pose proof (shr_fexp_le m2 e1 1 loc_Exact) as C. cbv zeta in C.
  destruct (shr_fexp prec emax m2 e1 loc_Exact) as [r3 e3]. cbn [fst snd] in C.
  destruct C as (C1 & C2 & C3); try lia.
  destruct (shr_m r3) as [|m3|m3] eqn:E3; [now left| |lia].
  right. exists m3, e3.
  destruct (Z.leb_spec e3 (emax - prec)) as [_|Hbig];
    [|unfold emax, prec in Hbig; lia].
  split; [reflexivity|]. split; lia.
Qed.

Lemma SFleb_pos (m1 m2 : positive) (e1 e2 : Z) :
  SFleb (S754_finite false m1 e1) (S754_finite false m2 e2) = true ->
  e1 < e2 \/ (e1 = e2 /\ Zpos m1 <= Zpos m2).
Proof.
  unfold SFleb, SFcompare.
  destruct (Z.compare_spec e1 e2) as [E|E|E]; [|now left|discriminate].
  intros H. right. split; [exact E|].
  change (Pos.compare_cont Eq m1 m2) with (Pos.compare m1 m2) in H.
  destruct (Pos.compare_spec m1 m2); [lia|lia|discriminate].
Qed.

(** [round(255 * c)] for a channel [c] in [0, 1] is an integer in
    [0, 255]. *)
Lemma py_round_255 (c : float) :
  unit_interval c -> exists z, py_round (255 * c) = Ok z /\ 0 <= z <= 255.
Proof.
  intros [H0 H1]. unfold py_round.
  rewrite leb_spec in H0, H1. rewrite mul_spec.
  change (Prim2SF 255) with (S754_finite false 8972014882652160 (-45)).
  change (Prim2SF 0) with (S754_zero false) in H0.
  change (Prim2SF 1) with (S754_finite false 4503599627370496 (-52)) in H1.
  pose proof (Prim2SF_valid c) as V.
  destruct (Prim2SF c) as [s|s| |s m e]; try discriminate.
  - exists 0. cbn. split; [reflexivity|lia].
  - destruct s; discriminate.
  - destruct s; [discriminate|]. clear H0.
    cbn [valid_binary] in V. unfold bounded, canonical_mantissa in V.
    apply andb_prop in V as [V _]. apply Z.eqb_eq in V.
    assert (Dg : Zpos (digits2_pos m) <= 53)
      by (unfold SpecFloat.fexp, emin, prec, emax in V; lia).
    pose proof (digits2_pos_lt m) as Lt.
    assert (L53 : Zpos m < 2 ^ 53).
    { eapply Z.lt_le_trans; [exact Lt|]. apply Z.pow_le_mono_r; lia. }
    assert (Hm : e <= -52 /\ Zpos m <= 2 ^ (- e)).
    { destruct (SFleb_pos _ _ _ _ H1) as [E|[E L]].
      - split; [lia|]. apply Z.lt_le_incl. eapply Z.lt_le_trans; [exact L53|].
        apply Z.pow_le_mono_r; lia.
      - split; [rewrite E; discriminate|]. rewrite E.
        assert (P52 : 2 ^ (- -52) = 4503599627370496) by (vm_compute; reflexivity).
        rewrite P52. exact L. }
    destruct Hm as [He Hm].
    cbn [SF64mul SFmul xorb].
    destruct (binary_round_aux_le (Zpos (8972014882652160 * m)) (-45 + e))
      as [->|(m' & e' & -> & He' & Hm')].
    + lia.
    + lia.
    + replace (- (-45 + e)) with (45 + - e) by lia. rewrite Z.pow_add_r by lia.
      change (2 ^ 45) with 35184372088832. rewrite Pos2Z.inj_mul. nia.
    + exists 0. split; [reflexivity|lia].
    + eexists. split; [reflexivity|]. cbn [cond_Zopp].
      destruct (round_half_even_nearest (Zpos m') e') as [R _]; [lia|].
      cbv zeta in R.
      set (z := round_half_even (Zpos m') e') in *.
      set (d := 2 ^ (- e')) in *.
      assert (Hd : 2 ^ 45 <= d) by (subst d; apply Z.pow_le_mono_r; lia).
      change (2 ^ 45) with 35184372088832 in Hd.
      split; nia.
Qed.

Lemma replace_nth_In {A : Type} (n : nat) (v a : A) (l : list A) :
  In a (replace_nth n v l) -> a = v \/ In a l.
Proof.
  revert n. induction l as [|h t IH]; intros [|n]; cbn; try tauto.
  - intros [<-|H]; auto.
  - intros [<-|H]; auto. destruct (IH n H); auto.
Qed.

Section ByteRange.
Context {mpl : Backend}.

Lemma to_rgba_in_gamut (sm : ScalarMappable) (v : float) (c : RGBA) :
  in_gamut (sm_cmap sm) -> to_rgba sm v = Ok c ->
  unit_interval (red c) /\ unit_interval (green c) /\ unit_interval (blue c).
Proof.
  intros G. unfold to_rgba. destruct (normalize _ v) as [t|]; [|discriminate].
  cbn [Py.bind]. intros [= <-]. apply G.
Qed.

Lemma u8_getters_range (self : ColorMap) (val : float) (c : RGBA) :
  to_rgba (scalarMap self) val = Ok c ->
  unit_interval (red c) -> unit_interval (green c) -> unit_interval (blue c) ->
  exists r g b : Z,
    get_rgb_u8 self val = Ok (Tuple3 (PyInt r) (PyInt g) (PyInt b)) /\
    get_rgba_u8 self val = Ok (Tuple4 (PyInt r) (PyInt g) (PyInt b) (PyFloat (alpha c))) /\
    0 <= r <= 255 /\ 0 <= g <= 255 /\ 0 <= b <= 255.
Proof.
  intros T Hr Hg Hb.
  destruct (py_round_255 _ Hr) as (r & Er & Rr).
  destruct (py_round_255 _ Hg) as (g & Eg & Rg).
  destruct (py_round_255 _ Hb) as (b & Eb & Rb).
  exists r, g, b. unfold get_rgb_u8, get_rgba_u8.
  rewrite T. cbn [Py.bind]. rewrite Er, Eg, Eb. cbn [Py.bind]. auto.
Qed.

(** X18. The 8-bit getters keep what the comment in the code promises:
    when the colormap's red, green and blue are in [0, 1], [round] never
    raises and the three integers are in [0, 255]; the alpha of
    [get_rgba_u8] is passed on as it is. *)
Theorem u8_channels_stay_in_range (self : ColorMap) (val : float) (c : RGBA) :
  to_rgba (scalarMap self) val = Ok c ->
  unit_interval (red c) -> unit_interval (green c) -> unit_interval (blue c) ->
  exists r g b : Z,
    get_rgb_u8 self val = Ok (Tuple3 (PyInt r) (PyInt g) (PyInt b)) /\
    get_rgba_u8 self val = Ok (Tuple4 (PyInt r) (PyInt g) (PyInt b) (PyFloat (alpha c))) /\
    0 <= r <= 255 /\ 0 <= g <= 255 /\ 0 <= b <= 255.
Proof.
  intros T Hr Hg Hb.
  destruct (u8_getters_range self val c T Hr Hg Hb) as (r & g & b & H).
  exists r, g, b. exact H.
Qed.

Lemma get_rgb_u8_in_gamut (self : ColorMap) (v : float) (c : Color) :
  in_gamut (sm_cmap (scalarMap self)) -> get_rgb_u8 self v = Ok c ->
  exists r g b : Z,
    c = Tuple3 (PyInt r) (PyInt g) (PyInt b) /\
    0 <= r <= 255 /\ 0 <= g <= 255 /\ 0 <= b <= 255.
Proof.
  intros G H.
  destruct (to_rgba (scalarMap self) v) as [rgba|e] eqn:T.
  - destruct (to_rgba_in_gamut _ _ _ G T) as (Hr & Hg & Hb).
    destruct (u8_getters_range self v rgba T Hr Hg Hb) as (r & g & b & E & _ & R).
    rewrite E in H. injection H as <-. eauto.
  - unfold get_rgb_u8 in H. rewrite T in H. discriminate H.
Qed.

Lemma get_rgb_u8_succeeds (self : ColorMap) (v : float) :
  in_gamut (sm_cmap (scalarMap self)) ->
  (vmax (sm_norm (scalarMap self)) <? vmin (sm_norm (scalarMap self)))%float = false ->
  exists c, get_rgb_u8 self v = Ok c.
Proof.
  intros G D. destruct (normalize_ok (sm_norm (scalarMap self)) v D) as [t Ht].
  assert (T : to_rgba (scalarMap self) v = Ok (lut (sm_cmap (scalarMap self)) t))
    by (unfold to_rgba; now rewrite Ht).
  destruct (to_rgba_in_gamut _ _ _ G T) as (Hr & Hg & Hb).
  destruct (u8_getters_range self v _ T Hr Hg Hb) as (r & g & b & E & _). eauto.
Qed.

(** X19. For a colormap in [0, 1], a registered name, a size that is
    not negative and a domain that is not reversed, building the
    ['rgb_u8'] table never fails, and every entry is a triple of
    integers in [0, 255]. *)
Theorem u8_table_stays_in_range (s : ColorMap) :
  registered (cmap_name s) = true -> 0 <= number_colors s ->
  (max_value s <? min_value s)%float = false ->
  in_gamut (cmap_name s) -> array_type s = "rgb_u8"%string ->
  exists self,
    initialize s = (Ok tt, self) /\
    List.length (colormap_array self) = Z.to_nat (number_colors s) /\
    forall c, In c (colormap_array self) ->
      exists r g b : Z,
        c = Tuple3 (PyInt r) (PyInt g) (PyInt b) /\
        0 <= r <= 255 /\ 0 <= g <= 255 /\ 0 <= b <= 255.
Proof.
  intros R Hn D G A.
  rewrite (initialize_registered s R).
  destruct (linspace_ok (min_value s) (max_value s) (number_colors s) Hn) as [vals E].
  rewrite E.
  set (s0 := set_colormap_array [] (prepared s)).
  assert (G0 : getter_of (array_type s0) = Some get_rgb_u8)
    by (cbn [s0 array_type set_colormap_array prepared set_scalarMap set_norm set_cmap];
        now rewrite A).
  pose proof (for_each_append get_rgb_u8 vals s0 G0) as F.
  destruct (collect_ok (get_rgb_u8 s0) vals) as [cols Hc].
  { intros v _. apply get_rgb_u8_succeeds; [exact G|exact D]. }
  rewrite Hc in F. rewrite F. eexists. split; [reflexivity|].
  cbn [colormap_array set_colormap_array s0 app]. split.
  - rewrite (collect_length _ _ _ Hc). exact (linspace_length _ _ _ _ E).
  - intros c Hin. destruct (collect_In _ _ _ Hc c Hin) as (v & _ & Hv).
    exact (get_rgb_u8_in_gamut s0 v c G Hv).
Qed.

(** X20. With colormaps in [0, 1], every pixel of every frame the
    program draws is a triple of integers in [0, 255]: a sampled colour,
    or the black of the interior. *)
Theorem frame_pixels_are_bytes (nx ny : Z) (g : Globals) (pixels : list (list Color)) :
  (forall name, in_gamut name) ->
  reachable nx ny g -> render g = Ok pixels ->
  forall column c, In column pixels -> In c column ->
    exists r g b : Z,
      c = Tuple3 (PyInt r) (PyInt g) (PyInt b) /\
      0 <= r <= 255 /\ 0 <= g <= 255 /\ 0 <= b <= 255.
Proof.
  intros G R H column c Hcol Hc.
  destruct (reachable_black_slot nx ny g R) as (_ & _ & cols & (vals & _ & Hs) & Ht).
  unfold render in H.
  destruct (collect_In _ _ _ H column Hcol) as (i & _ & Hi).
  destruct (collect_In _ _ _ Hi c Hc) as (j & _ & Hj).
  destruct (px_at (px_arr g) i j) as [v|]; [|discriminate]. cbn [Py.bind] in Hj.
  apply getitem_In in Hj. rewrite Ht in Hj.
  assert (K : c = black \/ In c cols).
  { destruct (set_black g); [|now right]. now apply replace_nth_In in Hj. }
  destruct K as [->|K].
  - exists 0, 0, 0. split; [reflexivity|lia].
  - destruct (collect_In _ _ _ Hs c K) as (w & _ & Hw).
    exact (get_rgb_u8_in_gamut (cmap g) w c (G _) Hw).
Qed.

End ByteRange.

Lemma demo_in_gamut (name : string) : in_gamut (mpl := Demo.backend) name.
Proof.
  intros t. unfold unit_interval. cbn [lut Demo.backend]. unfold Demo.two_tone.
  destruct (is_nan t); [repeat split; reflexivity|].
  destruct (t <? 0.5)%float; repeat split; reflexivity.
Qed.

Lemma u8_channels_stay_in_range_witness :
  exists cm : ColorMap,
    init (mpl := Demo.backend) 0 255 "viridis" 4 "rgb_u8" = Ok cm /\
    exists r g b : Z,
      get_rgb_u8 (mpl := Demo.backend) cm 200
        = Ok (Tuple3 (PyInt r) (PyInt g) (PyInt b)) /\
      get_rgba_u8 (mpl := Demo.backend) cm 200
        = Ok (Tuple4 (PyInt r) (PyInt g) (PyInt b) (PyFloat (alpha (mkRGBA 1 1 0 1)))) /\
      0 <= r <= 255 /\ 0 <= g <= 255 /\ 0 <= b <= 255.
Proof.
  eexists. split; [vm_compute; reflexivity|].
  apply (u8_channels_stay_in_range (mpl := Demo.backend) _ 200 (mkRGBA 1 1 0 1)).
  - vm_compute. reflexivity.
  - split; vm_compute; reflexivity.
  - split; vm_compute; reflexivity.
  - split; vm_compute; reflexivity.
Defined.

Lemma u8_table_stays_in_range_witness :
  exists self,
    initialize (mpl := Demo.backend) (fresh (mpl := Demo.backend) 0 255 "viridis" 4 "rgb_u8")
      = (Ok tt, self) /\
    List.length (colormap_array self) = Z.to_nat 4 /\
    forall c, In c (colormap_array self) ->
      exists r g b : Z,
        c = Tuple3 (PyInt r) (PyInt g) (PyInt b) /\
        0 <= r <= 255 /\ 0 <= g <= 255 /\ 0 <= b <= 255.
Proof.
  apply (u8_table_stays_in_range (mpl := Demo.backend)
           (fresh (mpl := Demo.backend) 0 255 "viridis" 4 "rgb_u8")).
  - vm_compute. reflexivity.
  - vm_compute. discriminate.
  - vm_compute. reflexivity.
  - apply demo_in_gamut.
  - reflexivity.
Defined.

Lemma frame_pixels_are_bytes_witness :
  exists (g0 g : Globals) (pixels : list (list Color)),
    startup (mpl := Demo.backend) 4 3 = Ok g0 /\
    handle_events (mpl := Demo.backend) g0 [KEYDOWN K_b; KEYDOWN K_c] = Ok g /\
    render g = Ok pixels /\
    forall column c, In column pixels -> In c column ->
      exists r g b : Z,
        c = Tuple3 (PyInt r) (PyInt g) (PyInt b) /\
        0 <= r <= 255 /\ 0 <= g <= 255 /\ 0 <= b <= 255.
Proof.
  eexists. eexists. eexists.
  split; [vm_compute; reflexivity|].
  split; [vm_compute; reflexivity|].
  split; [vm_compute; reflexivity|].
  refine (frame_pixels_are_bytes (mpl := Demo.backend) 4 3 _ _ demo_in_gamut _ _).
  - eapply (reachable_events (mpl := Demo.backend) 4 3 [KEYDOWN K_b; KEYDOWN K_c]).
    + apply reach_start. vm_compute. reflexivity.
    + vm_compute. reflexivity.
  - vm_compute. reflexivity.
Defined.

(* ================================================================== *)
(** * The program: which events can fail *)
(* ================================================================== *)

Lemma override_last_inv (v : Color) (c c' : ColorMap) :
  override_last v c = Ok c' -> exists arr, c' = set_colormap_array arr c.
Proof.
  unfold override_last. destruct (setitem _ _ v) as [arr|]; [|discriminate].
  cbn [Py.bind]. intros [= <-]. eauto.
Qed.

Section Failures.
Context {mpl : Backend}.

Lemma startup_palette_fixed (nx ny : Z) (g : Globals) :
  startup nx ny = Ok g -> palette_fixed g.
Proof.
  unfold startup. destruct (_ =? _)%float; [discriminate|].
  destruct (Numpy.linspace _ _ nx) as [rv|]; [|discriminate].
  destruct (Numpy.linspace _ _ ny) as [iv|]; [|discriminate].
  cbn [Py.bind]. destruct (init_default 0 255 "viridis") as [cm|] eqn:Ec; [|discriminate].
  cbn [Py.bind]. intros [= <-]. apply init_ok_inv in Ec.
  pose proof (initialize_keeps (fresh 0 255 "viridis" 256 "rgb_u8")) as K.
  rewrite Ec in K. cbn [snd] in K. destruct K as (K1 & _ & _ & K4 & K5 & _).
  unfold palette_fixed. cbn [cmap]. rewrite K1, K4, K5. now repeat split.
Qed.

Lemma handle_event_palette_fixed (g g' : Globals) (e : event) :
  handle_event g e = Ok g' -> palette_fixed g -> palette_fixed g'.
Proof.
  intros H (P1 & P2 & P3).
  destruct e as [|pos|pos|k|]; cbn [handle_event] in H.
  - injection H as <-. now repeat split.
  - injection H as <-. now repeat split.
  - unfold mouse_button_up in H.
    destruct (getitem _ _) as [rmin|]; [|discriminate].
    destruct (getitem _ _) as [rmax|]; [|discriminate].
    destruct (getitem _ _) as [imax|]; [|discriminate]. cbn [Py.bind] in H.
    destruct (Numpy.linspace rmin rmax (num_x g)) as [rv|]; [|discriminate].
    cbn [Py.bind] in H.
    destruct (Numpy.linspace imax _ (num_y g)) as [iv|]; [|discriminate].
    cbn [Py.bind] in H. injection H as <-. now repeat split.
  - destruct k; cbn [key_down] in H.
    + destruct (cycle_colormap (cmap g)) as [[[]|err] c] eqn:Ec; [|discriminate].
      apply cycle_colormap_ok_inv in Ec as [_ Ec].
      pose proof (initialize_keeps (cycle_target (cmap g))) as K.
      rewrite Ec in K. cbn [snd] in K. destruct K as (K1 & _ & _ & K4 & K5 & _).
      cbn [cycle_target names_to_cycle min_value max_value set_cmap_name
           set_current_cycle_number] in K1, K4, K5.
      destruct (set_black g).
      * destruct (override_last black c) as [c'|] eqn:Eo; [|discriminate].
        cbn [Py.bind] in H. injection H as <-.
        destruct (override_last_inv _ _ _ Eo) as [arr ->].
        unfold palette_fixed. cbn. repeat split; congruence.
      * injection H as <-. unfold palette_fixed. cbn. repeat split; congruence.
    + cbn [set_black with_set_black cmap] in H.
      destruct (negb (set_black g)).
      * destruct (override_last black (cmap g)) as [c'|] eqn:Eo; [|discriminate].
        cbn [Py.bind] in H. injection H as <-.
        destruct (override_last_inv _ _ _ Eo) as [arr ->].
        unfold palette_fixed. cbn. now repeat split.
      * destruct (get_rgb_u8 _ _) as [v|]; [|discriminate]. cbn [Py.bind] in H.
        destruct (override_last v (cmap g)) as [c'|] eqn:Eo; [|discriminate].
        cbn [Py.bind] in H. injection H as <-.
        destruct (override_last_inv _ _ _ Eo) as [arr ->].
        unfold palette_fixed. cbn. now repeat split.
    + injection H as <-. now repeat split.
    + injection H as <-. now repeat split.
  - injection H as <-. now repeat split.
Qed.

Lemma reachable_palette_fixed (nx ny : Z) (g : Globals) :
  reachable nx ny g -> palette_fixed g.
Proof.
  induction 1 as [g H|g e g' _ IH H].
  - exact (startup_palette_fixed nx ny g H).
  - exact (handle_event_palette_fixed g g' e H IH).
Qed.

Lemma cycle_target_name_In (c : ColorMap) :
  names_to_cycle c <> [] -> In (cmap_name (cycle_target c)) (names_to_cycle c).
Proof.
  intros N. unfold cycle_target. cbn [cmap_name set_cmap_name].
  apply nth_In.
  assert (0 < Z.of_nat (List.length (names_to_cycle c)))
    by (destruct (names_to_cycle c); [congruence|cbn [List.length]; lia]).
  pose proof (Z.mod_pos_bound (current_cycle_number c + 1)
                (Z.of_nat (List.length (names_to_cycle c))) H). lia.
Qed.

(** In a state the program reaches, no key press fails. *)
Lemma key_down_ok (nx ny : Z) (g : Globals) (k : key) :
  cycle_names_usable -> reachable nx ny g -> exists g', key_down g k = Ok g'.
Proof.
  intros U R.
  destruct (reachable_consistent nx ny g R) as (Cm & C1 & Ca & Cl & _).
  destruct (reachable_black_slot nx ny g R) as (_ & Bn & cols & Bs & _).
  destruct (reachable_palette_fixed nx ny g R) as (P1 & P2 & P3).
  destruct k.
  - cbn [key_down].
    assert (N : names_to_cycle (cmap g) <> []) by (rewrite P1; discriminate).
    rewrite cycle_colormap_target
      by (destruct (names_to_cycle (cmap g)); [congruence|cbn [List.length]; lia]).
    pose proof (cycle_target_name_In (cmap g) N) as Hin. rewrite P1 in Hin.
    destruct (U _ Hin) as [Hreg Hround].
    destruct (initialize_succeeds (cycle_target (cmap g))) as [c Ec].
    + exact Hreg.
    + cbn [cycle_target number_colors set_cmap_name set_current_cycle_number]. lia.
    + cbn [cycle_target min_value max_value set_cmap_name set_current_cycle_number].
      rewrite P2, P3. reflexivity.
    + exact Hround.
    + rewrite Ec.
      destruct (rebuilt_table _ _ Ec) as (Kn & _ & Kl).
      * exact Ca.
      * cbn [cycle_target number_colors set_cmap_name set_current_cycle_number]. lia.
      * cbn [cycle_target number_colors set_cmap_name set_current_cycle_number] in Kn, Kl.
        destruct (set_black g); [|eauto].
        rewrite override_last_eq by lia. cbn [Py.bind]. eauto.
  - destruct (sampled_last _ _ Bs) as (v & Hv & _); [lia|].
    rewrite (key_down_b g v) by (lia || assumption). eauto.
  - cbn [key_down]. eauto.
  - cbn [key_down]. eauto.
Qed.

Lemma handle_event_raise (nx ny : Z) (g : Globals) (e : event) (x : exn) :
  cycle_names_usable -> reachable nx ny g -> handle_event g e = Raise x ->
  exists pos,
    e = MOUSEBUTTONUP pos /\ x = IndexError /\
    ~ (valid_index (real_values g) (mouse_down_x g) /\
       valid_index (real_values g) (fst pos) /\
       valid_index (imag_values g) (mouse_down_y g)).
Proof.
  intros U R H.
  destruct e as [|pos|pos|k|]; cbn [handle_event] in H; try discriminate.
  - exists pos.
    destruct (reachable_in_sync nx ny g R) as (Hx & Hy & Sr & Si & _).
    destruct (mouse_button_up_cases g pos) as [_ Hr].
    + exact (linspace_nonneg _ _ _ _ Sr).
    + exact (linspace_nonneg _ _ _ _ Si).
    + destruct (Hr x H) as [-> N]. auto.
  - destruct (key_down_ok nx ny g k U R) as [g' E]. congruence.
Qed.

(** X21. In a state the program reaches, with the eleven names to cycle
    known to matplotlib and encodable, the only event that can fail is
    a release, the only exception is [IndexError], and it is raised
    only when the click column, the click row or the release column is
    not an index of the sample arrays.  No key press ever fails. *)
Theorem only_a_release_can_fail (nx ny : Z) (g : Globals) (e : event) (x : exn) :
  cycle_names_usable -> reachable nx ny g -> handle_event g e = Raise x ->
  exists pos,
    e = MOUSEBUTTONUP pos /\ x = IndexError /\
    ~ (valid_index (real_values g) (mouse_down_x g) /\
       valid_index (real_values g) (fst pos) /\
       valid_index (imag_values g) (mouse_down_y g)).
Proof.
  intros U R H.
  destruct (handle_event_raise nx ny g e x U R H) as (pos & E & X & N).
  exists pos. split; [exact E|]. split; [exact X|exact N].
Qed.

(** What holds along a run whose positions are inside the window. *)
Lemma inside_window_step (nx ny : Z) (g : Globals) (e : event) :
  cycle_names_usable -> reachable nx ny g ->
  0 <= mouse_down_x g < nx -> 0 <= mouse_down_y g < ny ->
  inside_window nx ny e ->
  exists g', handle_event g e = Ok g' /\
             0 <= mouse_down_x g' < nx /\ 0 <= mouse_down_y g' < ny.
Proof.
  intros U R Dx Dy I.
  destruct (handle_event g e) as [g'|x] eqn:H.
  - exists g'. split; [reflexivity|].
    destruct e as [|pos|pos|k|]; cbn [handle_event] in H.
    + injection H as <-. cbn. auto.
    + injection H as <-. cbn. cbn in I. auto.
    + unfold mouse_button_up in H.
      destruct (getitem _ _) as [rmin|]; [|discriminate].
      destruct (getitem _ _) as [rmax|]; [|discriminate].
      destruct (getitem _ _) as [imax|]; [|discriminate]. cbn [Py.bind] in H.
      destruct (Numpy.linspace rmin rmax (num_x g)) as [rv|]; [|discriminate].
      cbn [Py.bind] in H.
      destruct (Numpy.linspace imax _ (num_y g)) as [iv|]; [|discriminate].
      cbn [Py.bind] in H. injection H as <-. cbn. auto.
    + destruct (key_down_keeps g g' k H) as (_ & _ & _ & _ & _ & (-> & -> & _)). auto.
    + injection H as <-. auto.
  - exfalso.
    destruct (handle_event_raise nx ny g e x U R H) as (pos & -> & _ & N).
    apply N. cbn in I.
    destruct (reachable_in_sync nx ny g R) as (Hx & Hy & Sr & Si & _).
    rewrite Hx in Sr. rewrite Hy in Si.
    unfold valid_index.
    rewrite (linspace_length _ _ _ _ Sr), (linspace_length _ _ _ _ Si). lia.
Qed.

Lemma inside_window_run (nx ny : Z) (es : list event) :
  cycle_names_usable -> Forall (inside_window nx ny) es ->
  forall g, reachable nx ny g ->
            0 <= mouse_down_x g < nx -> 0 <= mouse_down_y g < ny ->
            exists g', handle_events g es = Ok g'.
Proof.
  intros U. induction 1 as [|e es I _ IH]; intros g R Dx Dy; cbn [handle_events].
  - eauto.
  - destruct (inside_window_step nx ny g e U R Dx Dy I) as (g1 & E & Dx1 & Dy1).
    rewrite E. cbn [Py.bind].
    exact (IH g1 (reach_event nx ny g e g1 R E) Dx1 Dy1).
Qed.

(** X22. The program does not crash on the events pygame can send: once
    it has started, with a window at least one pixel high and the
    eleven names usable, every sequence of events whose positions are
    inside the window is handled without an exception, and the frame
    after it is drawn. *)
Theorem no_crash_inside_window (nx ny : Z) (g0 : Globals) (es : list event) :
  cycle_names_usable -> startup nx ny = Ok g0 -> 1 <= ny ->
  Forall (inside_window nx ny) es ->
  exists g pixels, frame g0 es = Ok (g, pixels).
Proof.
  intros U S Hy F.
  pose proof (reach_start nx ny g0 S) as R.
  pose proof (reachable_width nx ny g0 R) as W.
  destruct (reachable_in_sync nx ny g0 R) as (_ & _ & Sr & _).
  pose proof (linspace_nonneg _ _ _ _ Sr) as Wx.
  assert (D : mouse_down_x g0 = 0 /\ mouse_down_y g0 = 0).
  { unfold startup in S. destruct (_ =? _)%float; [discriminate|].
    destruct (Numpy.linspace _ _ nx) as [rv|]; [|discriminate].
    destruct (Numpy.linspace _ _ ny) as [iv|]; [|discriminate].
    cbn [Py.bind] in S. destruct (init_default 0 255 "viridis") as [cm|]; [|discriminate].
    cbn [Py.bind] in S. injection S as <-. cbn. auto. }
  destruct D as [D1 D2].
  destruct (reachable_in_sync nx ny g0 R) as (Hx & _).
  destruct (inside_window_run nx ny es U F g0 R) as [g E]; [lia|lia|].
  destruct (render_consistent g) as [pixels P].
  { apply (reachable_consistent nx ny). exact (reachable_events nx ny es g0 g R E). }
  exists g, pixels. unfold frame. rewrite E. cbn [Py.bind]. rewrite P. reflexivity.
Qed.

End Failures.

Lemma demo_usable : cycle_names_usable (mpl := Demo.backend).
Proof.
  intros name Hin. split; [|apply demo_roundable].
  unfold cycle_names in Hin. cbn [In] in Hin.
  repeat (destruct Hin as [<-|Hin]; [vm_compute; reflexivity|]). destruct Hin.
Qed.

Lemma only_a_release_can_fail_witness :
  exists g0 : Globals,
    startup (mpl := Demo.backend) 4 3 = Ok g0 /\
    handle_event (mpl := Demo.backend) g0 (MOUSEBUTTONUP (9, 0)) = Raise IndexError /\
    exists pos,
      MOUSEBUTTONUP (9, 0) = MOUSEBUTTONUP pos /\ IndexError = IndexError /\
      ~ (valid_index (real_values g0) (mouse_down_x g0) /\
         valid_index (real_values g0) (fst pos) /\
         valid_index (imag_values g0) (mouse_down_y g0)).
Proof.
  eexists.
  split; [vm_compute; reflexivity|].
  split; [vm_compute; reflexivity|].
  apply (only_a_release_can_fail (mpl := Demo.backend) 4 3 _ _ _ demo_usable).
  - apply reach_start. vm_compute. reflexivity.
  - vm_compute. reflexivity.
Defined.

Lemma no_crash_inside_window_witness :
  exists g0 : Globals,
    startup (mpl := Demo.backend) 4 3 = Ok g0 /\
    exists g pixels,
      frame (mpl := Demo.backend) g0
        [MOUSEBUTTONDOWN (1, 0); MOUSEBUTTONUP (3, 2); KEYDOWN K_c; KEYDOWN K_b; QUIT]
      = Ok (g, pixels).
Proof.
  eexists.
  split; [vm_compute; reflexivity|].
  apply (no_crash_inside_window (mpl := Demo.backend) 4 3 _ _ demo_usable).
  - vm_compute. reflexivity.
  - vm_compute. discriminate.
  - repeat constructor; vm_compute; discriminate.
Defined.

(* ================================================================== *)
(** * The program: how it starts *)
(* ================================================================== *)

Lemma digits2_pos_ge (m : positive) : 2 ^ (Zpos (digits2_pos m) - 1) <= Zpos m.
Proof.
  induction m as [m IH|m IH|]; cbn [digits2_pos];
    rewrite ?Pos2Z.inj_succ; [| |cbn; lia].
  - replace (Z.succ (Zpos (digits2_pos m)) - 1) with (Z.succ (Zpos (digits2_pos m) - 1)) by lia.
    rewrite Z.pow_succ_r by lia. lia.
  - replace (Z.succ (Zpos (digits2_pos m)) - 1) with (Z.succ (Zpos (digits2_pos m) - 1)) by lia.
    rewrite Z.pow_succ_r by lia. lia.
Qed.

(** Away from the subnormal range a normalisation step does not lose a
    positive mantissa. *)
Lemma shr_fexp_pos (m e : Z) (l : location) :
  0 < m -> -1000 <= e ->
  0 < shr_m (fst (shr_fexp prec emax m e l)) /\ e <= snd (shr_fexp prec emax m e l).
Proof.
  intros Hm He. unfold shr_fexp.
  set (n := SpecFloat.fexp prec emax (Zdigits2 m + e) - e).
  assert (Hr : shr_m (shr_record_of_loc m l) = m) by (destruct l as [|[]]; reflexivity).
  destruct (shr_m_div (shr_record_of_loc m l) e n) as [-> ->]; [rewrite Hr; lia|].
  rewrite Hr. split; [|lia].
  destruct m as [|p|p]; try lia. cbn [Zdigits2] in n.
  pose proof (digits2_pos_ge p) as G.
  assert (N : Z.max n 0 <= Zpos (digits2_pos p) - 1).
  { subst n. unfold SpecFloat.fexp, emin, prec, emax. lia. }
  apply Z.div_str_pos. split; [apply Z.pow_pos_nonneg; lia|].
  eapply Z.le_trans; [|exact G]. apply Z.pow_le_mono_r; lia.
Qed.

Lemma binary_round_aux_nonzero (s : bool) (M e : Z) (l : location) :
  0 < M -> -1000 <= e ->
  (exists m' e', binary_round_aux prec emax s M e l = S754_finite s m' e' /\ e <= e') \/
  binary_round_aux prec emax s M e l = S754_infinity s.
Proof.
  intros HM He. unfold binary_round_aux.
  pose proof (shr_fexp_pos M e l HM He) as A.
  destruct (shr_fexp prec emax M e l) as [r1 e1]. cbn [fst snd] in A.
  destruct A as [A1 A2].
  pose proof (round_nearest_even_le (shr_m r1) (loc_of_shr_record r1)) as B.
  set (m2 := round_nearest_even (shr_m r1) (loc_of_shr_record r1)) in *.
  pose proof (shr_fexp_pos m2 e1 loc_Exact) as C.
  destruct (shr_fexp prec emax m2 e1 loc_Exact) as [r3 e3]. cbn [fst snd] in C.
  destruct C as [C1 C2]; try lia.
  destruct (shr_m r3) as [|m3|m3]; try lia.
  destruct (e3 <=? emax - prec); [left|now right].
  exists m3, e3. split; [reflexivity|lia].
Qed.

Lemma of_uint63_nonzero (p : positive) :
  Zpos p < 2 ^ 63 ->
  (exists m e, Prim2SF (of_uint63 (Uint63.of_Z (Zpos p))) = S754_finite false m e /\ -52 <= e) \/
  Prim2SF (of_uint63 (Uint63.of_Z (Zpos p))) = S754_infinity false.
Proof.
  intros H. rewrite of_uint63_spec, Uint63.of_Z_spec.
  rewrite Z.mod_small by (change Uint63.wB with (2 ^ 63); lia).
  cbn [binary_normalize]. unfold binary_round, shl_align.
  set (f := SpecFloat.fexp prec emax (Zpos (digits2_pos p) + 0)).
  assert (F : -52 <= f) by (subst f; unfold SpecFloat.fexp, emin, prec, emax; lia).
  destruct (f - 0) as [|d|d] eqn:E.
  - destruct (binary_round_aux_nonzero false (Zpos p) 0 loc_Exact) as [(m & e & -> & He)| ->];
      [lia|lia| |now right].
    left. exists m, e. split; [reflexivity|lia].
  - destruct (binary_round_aux_nonzero false (Zpos p) 0 loc_Exact) as [(m & e & -> & He)| ->];
      [lia|lia| |now right].
    left. exists m, e. split; [reflexivity|lia].
  - destruct (binary_round_aux_nonzero false (Zpos (Pos.iter xO p d)) f loc_Exact)
      as [(m & e & -> & He)| ->]; [lia|lia| |now right].
    left. exists m, e. split; [reflexivity|lia].
Qed.

(** [2.0 * num_x] is not zero unless [num_x] is. *)
Lemma Z2F_nonzero (z : Z) :
  z <> 0 -> - 2 ^ 63 < z < 2 ^ 63 -> (2 * Z2F z =? 0)%float = false.
Proof.
  intros Hz Hr. rewrite eqb_spec, mul_spec.
  change (Prim2SF 2) with (S754_finite false 4503599627370496 (-51)).
  change (Prim2SF 0) with (S754_zero false).
  assert (K : exists s, (exists m e, Prim2SF (Z2F z) = S754_finite s m e /\ -52 <= e) \/
                        Prim2SF (Z2F z) = S754_infinity s).
  { destruct z as [|p|p]; [congruence| |]; cbn [Z2F].
    - exists false. apply of_uint63_nonzero. lia.
    - exists true. rewrite opp_spec.
      destruct (of_uint63_nonzero p) as [(m & e & -> & He)| ->]; [lia| |now right].
      left. exists m, e. now split. }
  destruct K as [s [(m & e & -> & He)| ->]].
  - cbn [SF64mul SFmul xorb].
    destruct (binary_round_aux_nonzero s (Zpos (4503599627370496 * m)) (-51 + e) loc_Exact)
      as [(m' & e' & -> & _)| ->]; [lia|lia| |]; now destruct s.
  - now destruct s.
Qed.

Section Startup.
Context {mpl : Backend}.

Lemma startup_starts (nx ny : Z) :
  0 < nx < 2 ^ 63 -> 0 <= ny ->
  registered "viridis" = true -> roundable "viridis" ->
  exists g,
    startup nx ny = Ok g /\
    num_x g = nx /\ num_y g = ny /\
    real_min g = (-2)%float /\ real_max g = 1%float /\
    imag_max g = (Z2F ny * (1 - -2) / (2 * Z2F nx))%float /\
    imag_min g = (- imag_max g)%float /\
    set_black g = false /\ max_itr g = 256 /\ run g = true /\
    cmap_name (cmap g) = "viridis"%string /\
    mouse_down_x g = 0 /\ mouse_down_y g = 0.
Proof.
  intros Hn Hy Rg Q. unfold startup.
  rewrite Z2F_nonzero by lia.
  destruct (linspace_ok (-2) 1 nx) as [rv ->]; [lia|]. cbn [Py.bind].
  match goal with |- context [Numpy.linspace ?a ?b ny] =>
    destruct (linspace_ok a b ny Hy) as [iv ->] end.
  cbn [Py.bind]. unfold init_default, init.
  destruct (initialize_succeeds (fresh 0 255 "viridis" 256 "rgb_u8")) as [cm E];
    [exact Rg|cbn; lia|reflexivity|exact Q|].
  rewrite E. cbn [Py.bind].
  pose proof (initialize_keeps (fresh 0 255 "viridis" 256 "rgb_u8")) as K.
  rewrite E in K. cbn [snd] in K. destruct K as (_ & _ & K3 & _ & _ & K6 & _).
  eexists. split; [reflexivity|]. cbn.
  repeat split; assumption.
Qed.

(** X23. How the program starts, for a window whose width and height
    are within the range of the float conversion.  With a width of 0
    the division that computes [imag_max] raises [ZeroDivisionError];
    with a matplotlib that has no ['viridis'] the constructor raises
    [ValueError].  In every other case it starts: the region is [-2, 1]
    by [-imag_max, imag_max], the black flag is off, the cap is 256 and
    nothing has been dragged. *)
Theorem startup_outcome (nx ny : Z) :
  0 <= nx < 2 ^ 63 -> 0 <= ny < 2 ^ 63 ->
  (nx = 0 -> startup nx ny = Raise ZeroDivisionError) /\
  (0 < nx -> registered "viridis" = false -> startup nx ny = Raise ValueError) /\
  (0 < nx -> registered "viridis" = true -> roundable "viridis" ->
   exists g,
     startup nx ny = Ok g /\
     num_x g = nx /\ num_y g = ny /\
     real_min g = (-2)%float /\ real_max g = 1%float /\
     imag_max g = (Z2F ny * (1 - -2) / (2 * Z2F nx))%float /\
     imag_min g = (- imag_max g)%float /\
     set_black g = false /\ max_itr g = 256 /\ run g = true /\
     cmap_name (cmap g) = "viridis"%string /\
     mouse_down_x g = 0 /\ mouse_down_y g = 0).
Proof.
  intros Hr [Hy _].
  split; [|split].
  - intros ->. reflexivity.
  - intros Hn U. unfold startup. rewrite Z2F_nonzero by lia.
    destruct (linspace_ok (-2) 1 nx) as [rv ->]; [lia|]. cbn [Py.bind].
    match goal with |- context [Numpy.linspace ?a ?b ny] =>
      destruct (linspace_ok a b ny Hy) as [iv ->] end.
    cbn [Py.bind]. unfold init_default, init.
    now rewrite (initialize_unregistered (fresh 0 255 "viridis" 256 "rgb_u8") U).
  - intros Hn Rg Q. apply startup_starts; [lia|exact Hy|exact Rg|exact Q].
Qed.

End Startup.

Lemma startup_outcome_witness :
  (4 = 0 -> startup (mpl := Demo.backend) 4 3 = Raise ZeroDivisionError) /\
  (0 < 4 -> registered (mpl := Demo.backend) "viridis" = false ->
   startup (mpl := Demo.backend) 4 3 = Raise ValueError) /\
  (0 < 4 -> registered (mpl := Demo.backend) "viridis" = true ->
   roundable (mpl := Demo.backend) "viridis" ->
   exists g,
     startup (mpl := Demo.backend) 4 3 = Ok g /\
     num_x g = 4 /\ num_y g = 3 /\
     real_min g = (-2)%float /\ real_max g = 1%float /\
     imag_max g = (Z2F 3 * (1 - -2) / (2 * Z2F 4))%float /\
     imag_min g = (- imag_max g)%float /\
     set_black g = false /\ max_itr g = 256 /\ run g = true /\
     cmap_name (cmap g) = "viridis"%string /\
     mouse_down_x g = 0 /\ mouse_down_y g = 0).
Proof.
  apply (startup_outcome (mpl := Demo.backend) 4 3).
  - split; vm_compute; [discriminate|reflexivity].
  - split; vm_compute; [discriminate|reflexivity].
Defined.

(* ================================================================== *)
(** * The getters: how they fail *)
(* ================================================================== *)

Lemma py_round_raise (f : float) (e : exn) :
  py_round f = Raise e -> e = ValueError \/ e = OverflowError.
Proof.
  unfold py_round. destruct (Prim2SF f); intros [=]; auto.
Qed.

Section GetterFailures.
Context {mpl : Backend}.

(** X24. How the four getters fail.  With a reversed domain
    ([max_value < min_value] when the scalar map was made) each of them
    raises [ValueError] for every value.  Otherwise the two float
    getters always return, with the colormap's channels as they are,
    and the two 8-bit getters fail together, only in [round], with
    [ValueError] (a channel that is nan) or [OverflowError] (an
    infinite one). *)
Theorem getters_failure_modes (self : ColorMap) (v : float) :
  let n := sm_norm (scalarMap self) in
  ((vmax n <? vmin n)%float = true ->
   get_rgb_u8 self v = Raise ValueError /\ get_rgba_u8 self v = Raise ValueError /\
   get_rgb_f self v = Raise ValueError /\ get_rgba_f self v = Raise ValueError) /\
  ((vmax n <? vmin n)%float = false ->
   exists c,
     to_rgba (scalarMap self) v = Ok c /\
     get_rgb_f self v
     = Ok (Tuple3 (PyFloat (red c)) (PyFloat (green c)) (PyFloat (blue c))) /\
     get_rgba_f self v
     = Ok (Tuple4 (PyFloat (red c)) (PyFloat (green c)) (PyFloat (blue c))
             (PyFloat (alpha c))) /\
     (forall e, get_rgb_u8 self v = Raise e -> e = ValueError \/ e = OverflowError) /\
     (forall e, get_rgba_u8 self v = Raise e <-> get_rgb_u8 self v = Raise e)).
Proof.
  intros n. split.
  - intros D.
    assert (T : to_rgba (scalarMap self) v = Raise ValueError).
    { unfold to_rgba, normalize. fold n. now rewrite (ltb_not_eqb _ _ D), D. }
    unfold get_rgb_u8, get_rgba_u8, get_rgb_f, get_rgba_f. rewrite T. cbn. auto.
  - intros D. destruct (normalize_ok n v D) as [t Ht].
    exists (lut (sm_cmap (scalarMap self)) t).
    assert (T : to_rgba (scalarMap self) v = Ok (lut (sm_cmap (scalarMap self)) t))
      by (unfold to_rgba; fold n; now rewrite Ht).
    split; [exact T|].
    unfold get_rgb_u8, get_rgba_u8, get_rgb_f, get_rgba_f. rewrite T. cbn [Py.bind].
    split; [reflexivity|]. split; [reflexivity|].
    set (c := lut (sm_cmap (scalarMap self)) t).
    destruct (py_round (255 * red c)) as [r|er] eqn:Er; cbn [Py.bind].
    + destruct (py_round (255 * green c)) as [g|eg] eqn:Eg; cbn [Py.bind].
      * destruct (py_round (255 * blue c)) as [b|eb] eqn:Eb; cbn [Py.bind].
        -- split; [discriminate|]. intros e. split; discriminate.
        -- split; [|tauto]. intros e [= <-]. exact (py_round_raise _ _ Eb).
      * split; [|tauto]. intros e [= <-]. exact (py_round_raise _ _ Eg).
    + split; [|tauto]. intros e [= <-]. exact (py_round_raise _ _ Er).
Qed.

End GetterFailures.

(* ================================================================== *)
(** * Deep zoom *)
(* ================================================================== *)


Section Views.
Context {mpl : Backend}.


End Views.

